(** * ocf_datapipes: merging numpy examples into batches, splitting them
      again, and extending time axes into the future.

    A shallow embedding of
      - [ocf_datapipes/batch/merge_numpy_examples_to_batch.py]
      - [ocf_datapipes/utils/utils.py] ([stack_np_examples_into_batch])
      - [ocf_datapipes/transform/numpy/extend_timestamps_to_future.py]
    together with the small part of Python and numpy these files rely on. *)

From Stdlib Require Import String Ascii ZArith Lia Bool Arith Floats List.
Import ListNotations.

Set Implicit Arguments.

(** ** Batch keys ([ocf_datapipes/utils/consts.py])

    [BatchKey] and [NWPBatchKey] are two Python [Enum] classes.  A member is
    identified by its class and its name; members of different classes never
    compare equal, even under the same name. *)
Module Consts.

(** Modelled from the spec: the key enumerations [BatchKey] and
    [NWPBatchKey] of [ocf_datapipes/utils/consts.py], a file that is not
    among the sources.  A field key is an identifier of a closed set with a
    symbolic name; the sources read [key.name], compare keys with [==], and
    name the members [BatchKey.nwp], [BatchKey.nwp_channel_names] and
    [NWPBatchKey.nwp_channel_names].  Which other names each class declares
    is left open: any name stands for a possible member.  Of the three
    members named, the design document speaks of the secondary-modality key
    and of one channel-names key, that of the secondary modality; whether
    [BatchKey] declares a [nwp_channel_names] of its own is a parameter of
    the one function that reads it (see [Utils]). *)
Inductive key : Type :=
| BatchKey (name : string)
| NWPBatchKey (name : string).

Definition name (k : key) : string :=
  match k with BatchKey n => n | NWPBatchKey n => n end.

Definition key_eqb (a b : key) : bool :=
  match a, b with
  | BatchKey n, BatchKey m => String.eqb n m
  | NWPBatchKey n, NWPBatchKey m => String.eqb n m
  | _, _ => false
  end.

Definition BatchKey_nwp : key := BatchKey "nwp".
Definition BatchKey_nwp_channel_names : key := BatchKey "nwp_channel_names".
Definition NWPBatchKey_nwp_channel_names : key := NWPBatchKey "nwp_channel_names".

End Consts.
Export Consts.

(** ** The fragment of Python the sources use *)
Module Py.

(** Exceptions.  The first group are the built-in ones the code can raise.
    The second group are the four error names of the design document; no
    statement of the sources constructs any of them. *)
Inductive exn : Type :=
| IndexError | KeyError | NameError | ValueError | TypeError
| AttributeError | StopIteration | ZeroDivisionError | OverflowError
| EmptyInputError
| StackShapeError (k : key) (shapes : list (list nat))
| NoVariableFieldError
| BatchSizeMismatchError.


Inductive result (A : Type) : Type :=
| Ok (a : A)
| Raise (e : exn).
Arguments Raise {A} e.

Definition rbind {A B} (m : result A) (f : A -> result B) : result B :=
  match m with Ok a => f a | Raise e => Raise e end.

(** Records written through [logging]. *)
Inductive log_record : Type :=
| DEBUG (msg : string)
| DEBUG_could_not_stack (batch_key : key)
| DEBUG_shapes (shapes : list (list nat))
| ERROR (e : exn).

(** A computation that may log and may raise. *)
Definition M (A : Type) : Type := (list log_record * result A)%type.

Definition ret {A} (a : A) : M A := ([], Ok a).
Definition raise {A} (e : exn) : M A := ([], Raise e).
Definition logger (r : log_record) : M unit := ([r], Ok tt).
Definition lift {A} (m : result A) : M A := ([], m).
Definition bind {A B} (m : M A) (f : A -> M B) : M B :=
  match m with
  | (l, Ok a) => let (l', r) := f a in (l ++ l', r)
  | (l, Raise e) => (l, Raise e)
  end.

(** [for x in xs: acc = body(acc, x)], stopping at the first exception. *)
Fixpoint for_each {A S} (body : S -> A -> result S) (xs : list A) (acc : S)
  : result S :=
  match xs with
  | [] => Ok acc
  | x :: xs' => rbind (body acc x) (for_each body xs')
  end.

Fixpoint for_eachM {A S} (body : S -> A -> M S) (xs : list A) (acc : S) : M S :=
  match xs with
  | [] => ret acc
  | x :: xs' => bind (body acc x) (for_eachM body xs')
  end.

(** [[f(x) for x in xs]] *)
Fixpoint comprehension {A B} (f : A -> result B) (xs : list A) : result (list B) :=
  match xs with
  | [] => Ok []
  | x :: xs' =>
      rbind (f x) (fun y => rbind (comprehension f xs') (fun ys => Ok (y :: ys)))
  end.

(** [l[0]], [l[-1]], [l[-2]] on a Python list. *)
Definition item0 {A} (l : list A) : result A :=
  match l with [] => Raise IndexError | x :: _ => Ok x end.

Definition item_from_end {A} (l : list A) (n : nat) : result A :=
  match nth_error (rev l) n with Some x => Ok x | None => Raise IndexError end.

(** [next(it)] on a fresh iterator over [l]. *)
Definition next {A} (l : list A) : result A :=
  match l with [] => Raise StopIteration | x :: _ => Ok x end.

(** [s.endswith(suffix)] *)
Definition endswith (s suffix : string) : bool :=
  let n := String.length s in
  let m := String.length suffix in
  (m <=? n) && String.eqb (substring (n - m) m s) suffix.

(** A finite Python [float], that is a binary64 number, held as
    [significand * 2 ^ exponent]. *)
Record finite_float : Type := mk_float { significand : Z; exponent : Z }.

(** The fraction [num / den] of two positive integers rounded to the nearest
    integer, a tie going to the even neighbour. *)
Definition round_half_even (num den : Z) : Z :=
  let q := (num / den)%Z in
  let r := (num mod den)%Z in
  if (2 * r <? den)%Z then q
  else if (den <? 2 * r)%Z then (q + 1)%Z
  else if Z.even q then q else (q + 1)%Z.

(** [x / (y * 2 ^ e)] as a fraction of two integers. *)
Definition scaled (x y e : Z) : Z * Z :=
  if (0 <=? e)%Z then (x, y * 2 ^ e)%Z else (x * 2 ^ (- e), y)%Z.

(** The exponent at which the quotient of two positive integers has a
    significand of 53 bits, and not less than the exponent of the subnormal
    numbers. *)
Definition binary64_exponent (x y : Z) : Z :=
  let e0 := (Z.log2 x - Z.log2 y - 53)%Z in
  let e1 :=
    if (2 ^ 53 <=? fst (scaled x y e0) / snd (scaled x y e0))%Z
    then (e0 + 1)%Z else e0 in
  Z.max e1 (-1074).

(** [a / b] on two [int]s, which is also what [timedelta / timedelta]
    computes on the two counts of microseconds: the exact quotient rounded
    to the nearest binary64 number, so the result is a [float] even when [b]
    divides [a].  A zero divisor raises [ZeroDivisionError], a quotient
    beyond the range of binary64 raises [OverflowError]. *)
Definition truediv (a b : Z) : result finite_float :=
  if (b =? 0)%Z then Raise ZeroDivisionError
  else if (a =? 0)%Z then Ok (mk_float 0 0)
  else
    let x := Z.abs a in
    let y := Z.abs b in
    let e := binary64_exponent x y in
    let m := round_half_even (fst (scaled x y e)) (snd (scaled x y e)) in
    if (972 <=? e)%Z || ((e =? 971)%Z && (m =? 2 ^ 53)%Z)
    then Raise OverflowError
    else Ok (mk_float (Z.sgn a * Z.sgn b * m) e).

(** [int(f)]: the fractional part is dropped. *)
Definition int_of_float (f : finite_float) : Z :=
  if (0 <=? exponent f)%Z then (significand f * 2 ^ exponent f)%Z
  else Z.quot (significand f) (2 ^ (- exponent f)).

(** Insertion-ordered dictionaries. *)
Section Dict.
Variables K V : Type.
Variable eqb : K -> K -> bool.

Definition dict : Type := list (K * V).

Definition keys (d : dict) : list K := map fst d.

Fixpoint getitem (d : dict) (k : K) : result V :=
  match d with
  | [] => Raise KeyError
  | (k', v) :: d' => if eqb k' k then Ok v else getitem d' k
  end.

(** [d[k] = v]: overwrite in place, or append a new key at the end. *)
Fixpoint setitem (d : dict) (k : K) (v : V) : dict :=
  match d with
  | [] => [(k, v)]
  | (k', v') :: d' =>
      if eqb k' k then (k', v) :: d' else (k', v') :: setitem d' k v
  end.
End Dict.

End Py.
Export Py.

Declare Scope result_scope.
Delimit Scope result_scope with res.
Notation "x <- c1 ;; c2" := (rbind c1 (fun x => c2))
  (at level 61, c1 at next level, right associativity) : result_scope.

Declare Scope M_scope.
Delimit Scope M_scope with M.
Notation "x <- c1 ;; c2" := (bind c1 (fun x => c2))
  (at level 61, c1 at next level, right associativity) : M_scope.
Notation "c1 ;; c2" := (bind c1 (fun _ => c2))
  (at level 61, right associativity) : M_scope.

(** ** The fragment of numpy the sources use

    An array is its shape and its elements in row-major order.  Every array
    is held as float64, the encoding the pipeline's conversion to numpy
    produces and the one [np.asarray(..., dtype=np.float64)] asks for;
    stacking and indexing move elements without reading them. *)
Module Np.

Record ndarray : Type := mk_ndarray { shape : list nat; data : list float }.

Definition size (s : list nat) : nat := fold_right Nat.mul 1 s.

(** The element list has exactly the length the shape announces. *)
Definition well_formed (a : ndarray) : Prop := List.length (data a) = size (shape a).

Definition shape_eqb (s t : list nat) : bool :=
  if list_eq_dec Nat.eq_dec s t then true else false.

(** [np.stack(arrays)]: a new leading axis; all shapes must agree. *)
Definition stack (arrays : list ndarray) : result ndarray :=
  match arrays with
  | [] => Raise ValueError
  | a :: rest =>
      if forallb (fun b => shape_eqb (shape b) (shape a)) rest
      then Ok (mk_ndarray (List.length arrays :: shape a) (concat (map data arrays)))
      else Raise ValueError
  end.

(** The [i]-th slice along the leading axis, for [i] within bounds. *)
Definition slice (s : list nat) (xs : list float) (i : nat) : ndarray :=
  mk_ndarray s (firstn (size s) (skipn (i * size s) xs)).

(** [a[i]] for a non-negative integer [i]. *)
Definition index (a : ndarray) (i : nat) : result ndarray :=
  match shape a with
  | [] => Raise IndexError
  | n :: s => if i <? n then Ok (slice s (data a) i) else Raise IndexError
  end.

(** [a.shape[0]] *)
Definition shape0 (a : ndarray) : result nat :=
  match shape a with [] => Raise IndexError | n :: _ => Ok n end.

(** [list(a)]: iteration over the leading axis; a 0-d array is not iterable. *)
Definition to_list (a : ndarray) : result (list ndarray) :=
  match shape a with
  | [] => Raise TypeError
  | n :: s => Ok (map (slice s (data a)) (seq 0 n))
  end.

(** Elementwise arithmetic.  The operands met here are slices of one array
    and therefore share a shape. *)
Fixpoint zip_with (f : float -> float -> float) (xs ys : list float) : list float :=
  match xs, ys with
  | x :: xs', y :: ys' => f x y :: zip_with f xs' ys'
  | _, _ => []
  end.

Definition sub (a b : ndarray) : ndarray :=
  mk_ndarray (shape a) (zip_with PrimFloat.sub (data a) (data b)).
Definition add (a b : ndarray) : ndarray :=
  mk_ndarray (shape a) (zip_with PrimFloat.add (data a) (data b)).
Definition abs (a : ndarray) : ndarray :=
  mk_ndarray (shape a) (map PrimFloat.abs (data a)).

(** [np.asarray(items, dtype=np.float64)] on a Python list of equal-shaped
    items. *)
Definition asarray_float64 (items : list ndarray) : result ndarray :=
  match items with
  | [] => Ok (mk_ndarray [0] [])
  | _ => stack items
  end.

(** A 0-d array holding one number, and a 1-d array of numbers. *)
Definition scalar (x : float) : ndarray := mk_ndarray [] [x].
Definition vector (xs : list float) : ndarray := mk_ndarray [List.length xs] xs.

End Np.

(** ** Examples and batches ([NumpyBatch], [NWPNumpyBatch])

    [NWPNumpyBatch = dict[NWPBatchKey, np.ndarray]] and
    [NumpyBatch = dict[BatchKey, np.ndarray | dict[str, NWPNumpyBatch]]],
    where only [BatchKey.nwp] holds the nested mapping. *)
Module Types.

(** Modelled from the spec: the type aliases [NWPNumpyBatch] and
    [NumpyBatch] of [ocf_datapipes/utils/consts.py], a file that is not
    among the sources.  An example is an ordered mapping from field key to
    array, except for the one secondary-modality key, whose value maps a
    source identifier to a nested ordered mapping from secondary key to
    array. *)
Definition NWPNumpyBatch : Type := dict key Np.ndarray.
Definition NWPSources : Type := dict string NWPNumpyBatch.

Inductive value : Type :=
| Array (a : Np.ndarray)
| Nested (m : NWPSources).

(** One item of a [NumpyBatch].  A nested mapping sits under [BatchKey.nwp]
    by construction. *)
Inductive entry : Type :=
| Field (k : key) (a : Np.ndarray)
| NwpEntry (m : NWPSources).

Definition key_of (e : entry) : key :=
  match e with Field k _ => k | NwpEntry _ => BatchKey_nwp end.

Definition value_of (e : entry) : value :=
  match e with Field _ a => Array a | NwpEntry m => Nested m end.

Definition NumpyBatch : Type := list entry.

(** [list(d.keys())] *)
Definition batch_keys_of (d : NumpyBatch) : list key := map key_of d.

(** [d[k]] *)
Fixpoint lookup (d : NumpyBatch) (k : key) : result value :=
  match d with
  | [] => Raise KeyError
  | e :: d' => if key_eqb (key_of e) k then Ok (value_of e) else lookup d' k
  end.

(** [d[k]] for a key other than [BatchKey.nwp]: always an array. *)
Fixpoint lookup_array (d : NumpyBatch) (k : key) : result Np.ndarray :=
  match d with
  | [] => Raise KeyError
  | Field k' a :: d' => if key_eqb k' k then Ok a else lookup_array d' k
  | NwpEntry _ :: d' => lookup_array d' k
  end.

(** [d[k] = e] where [k] is the key of [e] *)
Fixpoint store (d : NumpyBatch) (e : entry) : NumpyBatch :=
  match d with
  | [] => [e]
  | e' :: d' =>
      if key_eqb (key_of e') (key_of e) then e :: d' else e' :: store d' e
  end.

(** [d[BatchKey.nwp][nwp_source][nwp_batch_key]] *)
Definition nwp_lookup (d : NumpyBatch) (nwp_source : string) (nwp_batch_key : key)
  : result Np.ndarray :=
  (v <- lookup d BatchKey_nwp ;;
   match v with
   | Array _ => Raise IndexError
   | Nested m =>
       s <- getitem String.eqb m nwp_source ;;
       getitem key_eqb s nwp_batch_key
   end)%res.

(** [d[BatchKey.nwp].keys()]: an array has no [keys]. *)
Definition nwp_mapping (d : NumpyBatch) : result NWPSources :=
  (v <- lookup d BatchKey_nwp ;;
   match v with
   | Array _ => Raise AttributeError
   | Nested m => Ok m
   end)%res.

End Types.
Export Types.

(** ** Generators

    What a consumer that pulls until the end observes of a generator: the
    records it logged, the items it yielded, and the exception that ended it,
    if any. *)
Module Gen.

Record run (A : Type) : Type :=
  mk_run { log : list log_record; yielded : list A; raised : option exn }.

Definition finished {A} : run A := mk_run [] [] None.
Definition failed {A} (l : list log_record) (e : exn) : run A := mk_run l [] (Some e).
Definition emit {A} (l : list log_record) (x : A) (r : run A) : run A :=
  mk_run (l ++ log r) (x :: yielded r) (raised r).
Definition logged {A} (rec : log_record) (r : run A) : run A :=
  mk_run (rec :: log r) (yielded r) (raised r).

End Gen.

(** ** [ocf_datapipes/batch/merge_numpy_examples_to_batch.py] *)
Module MergeNumpyExamplesToBatch.

Definition _key_is_constant (batch_key : key) : bool :=
  endswith (name batch_key) "t0_idx"
  || key_eqb batch_key NWPBatchKey_nwp_channel_names.

Definition non_constant (x : key) : bool := negb (_key_is_constant x).

Definition stack_data_list (data_list : list Np.ndarray) (batch_key : key)
  : M Np.ndarray :=
  if _key_is_constant batch_key then lift (item0 data_list)
  else
    match Np.stack data_list with
    | Ok a => ret a
    | Raise e =>
        (logger (DEBUG_could_not_stack batch_key) ;;
         let shapes := map Np.shape data_list in
         logger (DEBUG_shapes shapes) ;;
         logger (ERROR e) ;;
         raise e)%M
    end.

Definition extract_data_from_batch (data : Np.ndarray) (batch_key : key)
  (index_num : nat) : result Np.ndarray :=
  if _key_is_constant batch_key then Ok data else Np.index data index_num.

(** The body of [for nwp_source in nwp_sources] in the stacking function. *)
Definition stack_nwp_source (dict_list : list NumpyBatch)
  (nwp_batch_keys : list key) (nwp_source : string) : M NWPNumpyBatch :=
  for_eachM
    (fun nwp_source_batch nwp_batch_key =>
       (data_list <- lift (comprehension
                             (fun d => nwp_lookup d nwp_source nwp_batch_key)
                             dict_list) ;;
        x <- stack_data_list data_list nwp_batch_key ;;
        ret (setitem key_eqb nwp_source_batch nwp_batch_key x))%M)
    nwp_batch_keys [].

Definition stack_np_examples_into_batch (dict_list : list NumpyBatch)
  : M NumpyBatch :=
  (first <- lift (item0 dict_list) ;;
   let batch_keys := batch_keys_of first in
   for_eachM
     (fun batch batch_key =>
        if key_eqb batch_key BatchKey_nwp then
          m <- lift (nwp_mapping first) ;;
          let nwp_sources := keys m in
          source0 <- lift (item0 nwp_sources) ;;
          inner <- lift (getitem String.eqb m source0) ;;
          let nwp_batch_keys := keys inner in
          nwp_batch <-
            for_eachM
              (fun nwp_batch nwp_source =>
                 nwp_source_batch <-
                   stack_nwp_source dict_list nwp_batch_keys nwp_source ;;
                 ret (setitem String.eqb nwp_batch nwp_source nwp_source_batch))
              nwp_sources [] ;;
          ret (store batch (NwpEntry nwp_batch))
        else
          data_list <- lift (comprehension (fun d => lookup_array d batch_key)
                               dict_list) ;;
          x <- stack_data_list data_list batch_key ;;
          ret (store batch (Field batch_key x)))
     batch_keys [])%M.

(** Lines 106-121 of [unstack_np_batch_into_examples]: the batch size read
    off a non-constant key. *)
Definition batch_size_of (batch : NumpyBatch) : result nat :=
  (let batch_keys := batch_keys_of batch in
   non_constant_key <- next (filter non_constant batch_keys) ;;
   if key_eqb non_constant_key BatchKey_nwp then
     m <- nwp_mapping batch ;;
     nwp_source <- next (keys m) ;;
     inner <- getitem String.eqb m nwp_source ;;
     non_constant_nwp_key <- next (filter non_constant (keys inner)) ;;
     a <- nwp_lookup batch nwp_source non_constant_nwp_key ;;
     Np.shape0 a
   else
     a <- lookup_array batch non_constant_key ;;
     Np.shape0 a)%res.

(** A name that is neither assigned in the enclosing function nor defined
    at module level: reading it raises [NameError]. *)
Definition unbound_name (A : Type) (identifier : string) : result A :=
  Raise NameError.

(** The body of [for nwp_source in nwp_sources] in the splitting function.
    The slot is first assigned [batch[...][i]] and then assigned again from
    [extract_data_from_batch]. *)
Definition unstack_nwp_source (batch : NumpyBatch) (nwp_batch_keys : list key)
  (i : nat) (nwp_source : string) : result NWPNumpyBatch :=
  for_each
    (fun nwp_source_batch nwp_batch_key =>
       (a <- nwp_lookup batch nwp_source nwp_batch_key ;;
        x <- Np.index a i ;;
        let nwp_source_batch := setitem key_eqb nwp_source_batch nwp_batch_key x in
        a' <- nwp_lookup batch nwp_source nwp_batch_key ;;
        y <- extract_data_from_batch a' nwp_batch_key i ;;
        Ok (setitem key_eqb nwp_source_batch nwp_batch_key y))%res)
    nwp_batch_keys [].

(** The body of [for i in range(batch_size)].  The loop variable is [key];
    the branch for ordinary keys reads [batch_key], which this function
    never binds. *)
Definition unstack_sample (batch : NumpyBatch) (batch_keys : list key) (i : nat)
  : result NumpyBatch :=
  for_each
    (fun sample key =>
       (if key_eqb key BatchKey_nwp then
          m <- nwp_mapping batch ;;
          let nwp_sources := keys m in
          source0 <- item0 nwp_sources ;;
          inner <- getitem String.eqb m source0 ;;
          let nwp_batch_keys := keys inner in
          nwp_batch <-
            for_each
              (fun nwp_batch nwp_source =>
                 nwp_source_batch <-
                   unstack_nwp_source batch nwp_batch_keys i nwp_source ;;
                 Ok (setitem String.eqb nwp_batch nwp_source nwp_source_batch))
              nwp_sources [] ;;
          Ok (store sample (NwpEntry nwp_batch))
        else
          batch_key <- unbound_name Consts.key "batch_key" ;;
          a <- lookup_array batch batch_key ;;
          x <- extract_data_from_batch a batch_key i ;;
          Ok (store sample (Field batch_key x)))%res)
    batch_keys [].

Definition unstack_np_batch_into_examples (batch : NumpyBatch)
  : result (list NumpyBatch) :=
  (let batch_keys := batch_keys_of batch in
   batch_size <- batch_size_of batch ;;
   comprehension (unstack_sample batch batch_keys) (seq 0 batch_size))%res.

(** [MergeNumpyBatchIterDataPipe] *)
Fixpoint MergeNumpyBatch_loop (source_datapipe : list (list NumpyBatch))
  : Gen.run NumpyBatch :=
  match source_datapipe with
  | [] => Gen.finished
  | examples_list :: rest =>
      match stack_np_examples_into_batch examples_list with
      | (l, Ok batch) => Gen.emit l batch (MergeNumpyBatch_loop rest)
      | (l, Raise e) => Gen.failed l e
      end
  end.

Definition MergeNumpyBatch___iter__ (source_datapipe : list (list NumpyBatch))
  : Gen.run NumpyBatch :=
  Gen.logged (DEBUG "Merging numpy batch") (MergeNumpyBatch_loop source_datapipe).

(** [MergeNumpyExamplesToBatchIterDataPipe] *)
Record MergeNumpyExamplesToBatchIterDataPipe : Type :=
  { source_datapipe : list NumpyBatch; n_examples_per_batch : Z }.

Definition __init__ (source_datapipe : list NumpyBatch) (n_examples_per_batch : Z)
  : result MergeNumpyExamplesToBatchIterDataPipe :=
  Ok {| source_datapipe := source_datapipe;
        n_examples_per_batch := n_examples_per_batch |}.

(** The [for np_batch in self.source_datapipe] loop, with the buffer
    [np_examples] as loop state.  When the source is exhausted the generator
    returns and the buffer goes out of scope. *)
Fixpoint accumulate (n_examples_per_batch : Z) (np_examples : list NumpyBatch)
  (source : list NumpyBatch) : Gen.run NumpyBatch :=
  match source with
  | [] => Gen.finished
  | np_batch :: rest =>
      let np_examples := np_examples ++ [np_batch] in
      if (Z.of_nat (List.length np_examples) =? n_examples_per_batch)%Z then
        match stack_np_examples_into_batch np_examples with
        | (l, Ok batch) =>
            Gen.emit l batch (accumulate n_examples_per_batch [] rest)
        | (l, Raise e) => Gen.failed l e
        end
      else accumulate n_examples_per_batch np_examples rest
  end.

Definition __iter__ (self : MergeNumpyExamplesToBatchIterDataPipe)
  : Gen.run NumpyBatch :=
  Gen.logged (DEBUG "Merging numpy batch")
    (accumulate (n_examples_per_batch self) [] (source_datapipe self)).

End MergeNumpyExamplesToBatch.

(** ** [ocf_datapipes/utils/utils.py] *)
Module Utils.

(** What a key of the returned batch is bound to: a value as an example
    holds it, float arrays among them, or the one-dimensional array of
    objects that [np.stack] builds when some of its items are mappings,
    each of which it takes for a 0-d array holding the mapping. *)
Inductive stacked : Type :=
| Plain (v : value)
| ObjectArray (items : list value).

(** A batch of the ordinary kind, as this function would return it. *)
Definition of_batch (batch : NumpyBatch) : dict key stacked :=
  map (fun e => (key_of e, Plain (value_of e))) batch.

Definition of_result (c : M NumpyBatch) : M (dict key stacked) :=
  (fst c, match snd c with Ok batch => Ok (of_batch batch) | Raise e => Raise e end).

(** [np.asanyarray(v).shape] and [v.shape]: a mapping has no attribute
    [shape]. *)
Definition shape_as_array (v : value) : list nat :=
  match v with Array a => Np.shape a | Nested _ => [] end.

Definition shape_attr (v : value) : result (list nat) :=
  match v with Array a => Ok (Np.shape a) | Nested _ => Raise AttributeError end.

(** The items, when all of them are arrays. *)
Fixpoint arrays_of (items : list value) : option (list Np.ndarray) :=
  match items with
  | [] => Some []
  | Array a :: rest =>
      match arrays_of rest with Some arrays => Some (a :: arrays) | None => None end
  | Nested _ :: _ => None
  end.

(** [np.stack(examples_for_key)] on the values read from the examples. *)
Definition np_stack (examples_for_key : list value) : result stacked :=
  match arrays_of examples_for_key with
  | Some arrays => (a <- Np.stack arrays ;; Ok (Plain (Array a)))%res
  | None =>
      if forallb (fun v => Np.shape_eqb (shape_as_array v) []) examples_for_key
      then Ok (ObjectArray examples_for_key)
      else Raise ValueError
  end.

Section BatchKeyMembers.

(** [ocf_datapipes/utils/consts.py] is not among the sources.  Line 129
    reads [BatchKey.nwp_channel_names]; whether [BatchKey] declares such a
    member is taken as a parameter.  Reading a member that an [Enum] class
    does not declare raises [AttributeError]. *)
Variable BatchKey_declares_nwp_channel_names : bool.

Definition BatchKey_dot_nwp_channel_names : result key :=
  if BatchKey_declares_nwp_channel_names then Ok BatchKey_nwp_channel_names
  else Raise AttributeError.

(** The condition of line 129; [or] evaluates its right operand only when
    the left one is false. *)
Definition is_constant (batch_key : key) : result bool :=
  if endswith (name batch_key) "t0_idx" then Ok true
  else (member <- BatchKey_dot_nwp_channel_names ;;
        Ok (key_eqb batch_key member))%res.

Definition stack_np_examples_into_batch (np_examples : list NumpyBatch)
  : M (dict key stacked) :=
  (first <- lift (item0 np_examples) ;;
   let batch_keys := batch_keys_of first in
   for_eachM
     (fun np_batch batch_key =>
        constant <- lift (is_constant batch_key) ;;
        if constant : bool then
          v <- lift (lookup first batch_key) ;;
          ret (setitem key_eqb np_batch batch_key (Plain v))
        else
          examples_for_key <-
            lift (comprehension (fun np_example => lookup np_example batch_key)
                    np_examples) ;;
          match np_stack examples_for_key with
          | Ok x => ret (setitem key_eqb np_batch batch_key x)
          | Raise e =>
              logger (DEBUG_could_not_stack batch_key) ;;
              shapes <- lift (comprehension shape_attr examples_for_key) ;;
              logger (DEBUG_shapes shapes) ;;
              logger (ERROR e) ;;
              raise e
          end)
     batch_keys [])%M.

End BatchKeyMembers.

End Utils.

(** ** [ocf_datapipes/transform/numpy/extend_timestamps_to_future.py] *)
Module ExtendTimestampsToFuture.

(** The batches of the stream are Python dicts, which [__iter__] changes in
    place and hands on: the stream is a list of references into a store of
    batch objects, and one reference may occur in it more than once. *)
Definition deref (objects : list NumpyBatch) (r : nat) : NumpyBatch :=
  nth r objects [].

Fixpoint assign (objects : list NumpyBatch) (r : nat) (np_batch : NumpyBatch)
  : list NumpyBatch :=
  match objects, r with
  | [], _ => []
  | _ :: rest, O => np_batch :: rest
  | b :: rest, S r' => b :: assign rest r' np_batch
  end.

(** The two durations are [timedelta]s, held as their counts of
    microseconds. *)
Record ExtendTimestepsToFutureIterDataPipe : Type :=
  { source_dp : list nat;
    forecast_duration : Z;
    sample_period_duration : Z;
    num_future_timesteps : Z }.

(** [int(self.forecast_duration / self.sample_period_duration)]: the
    division is the true division, whose result is a [float]. *)
Definition __init__ (source_dp : list nat)
  (forecast_duration sample_period_duration : Z)
  : result ExtendTimestepsToFutureIterDataPipe :=
  (quotient <- truediv forecast_duration sample_period_duration ;;
   Ok {| source_dp := source_dp;
         forecast_duration := forecast_duration;
         sample_period_duration := sample_period_duration;
         num_future_timesteps := int_of_float quotient |})%res.

(** [{key: value for key, value in np_batch.items()
      if key.name.endswith("time_utc")}] *)
Definition all_time_dims_of (np_batch : NumpyBatch) : dict key Np.ndarray :=
  fold_left
    (fun all_time_dims item =>
       match item with
       | Field k a =>
           if endswith (name k) "time_utc"
           then setitem key_eqb all_time_dims k a
           else all_time_dims
       | NwpEntry _ => all_time_dims
       end)
    np_batch [].

(** [for future_step in range(n): times.append(times[-1] + timestep_diff)] *)
Fixpoint append_future (n : nat) (times : list Np.ndarray)
  (timestep_diff : Np.ndarray) : result (list Np.ndarray) :=
  match n with
  | O => Ok times
  | S n' =>
      (last <- item_from_end times 0 ;;
       append_future n' (times ++ [Np.add last timestep_diff]) timestep_diff)%res
  end.

(** The body of [for time_dim_key in all_time_dims.keys()], on the array
    stored under that key. *)
Definition extend_times (num_future_timesteps : Z) (a : Np.ndarray)
  : result Np.ndarray :=
  (times <- Np.to_list a ;;
   last <- item_from_end times 0 ;;
   before_last <- item_from_end times 1 ;;
   let timestep_diff := Np.abs (Np.sub last before_last) in
   times <- append_future (Z.to_nat num_future_timesteps) times timestep_diff ;;
   Np.asarray_float64 times)%res.

(** [np_batch.update(all_time_dims)] *)
Definition update (np_batch : NumpyBatch) (all_time_dims : dict key Np.ndarray)
  : NumpyBatch :=
  fold_left (fun b kv => store b (Field (fst kv) (snd kv))) all_time_dims np_batch.

(** The body of [for np_batch in self.source_dp], up to the [yield]. *)
Definition extend_batch (num_future_timesteps : Z) (np_batch : NumpyBatch)
  : result NumpyBatch :=
  (let all_time_dims := all_time_dims_of np_batch in
   all_time_dims <-
     for_each
       (fun all_time_dims time_dim_key =>
          a <- getitem key_eqb all_time_dims time_dim_key ;;
          times <- extend_times num_future_timesteps a ;;
          Ok (setitem key_eqb all_time_dims time_dim_key times))
       (keys all_time_dims) all_time_dims ;;
   Ok (update np_batch all_time_dims))%res.

(** The loop over a stream of separate batch objects, each met once: what
    it yields depends on the values alone. *)
Fixpoint extend_loop (num_future_timesteps : Z) (source_dp : list NumpyBatch)
  : Gen.run NumpyBatch :=
  match source_dp with
  | [] => Gen.finished
  | np_batch :: rest =>
      match extend_batch num_future_timesteps np_batch with
      | Ok np_batch' =>
          Gen.emit [] np_batch' (extend_loop num_future_timesteps rest)
      | Raise e => Gen.failed [] e
      end
  end.

(** [for np_batch in self.source_dp: ...; np_batch.update(all_time_dims);
    yield np_batch] over the store.  The time axes are worked out in a
    dictionary of their own, so an exception leaves the batch as it was; on
    success the batch object itself is updated and yielded.  The run lists
    each batch as it is when it is yielded; the second component is the
    store when the generator ends. *)
Fixpoint iterate (num_future_timesteps : Z) (source_dp : list nat)
  (objects : list NumpyBatch) : Gen.run NumpyBatch * list NumpyBatch :=
  match source_dp with
  | [] => (Gen.finished, objects)
  | r :: rest =>
      match extend_batch num_future_timesteps (deref objects r) with
      | Ok np_batch' =>
          let later :=
            iterate num_future_timesteps rest (assign objects r np_batch') in
          (Gen.emit [] np_batch' (fst later), snd later)
      | Raise e => (Gen.failed [] e, objects)
      end
  end.

Definition __iter__ (self : ExtendTimestepsToFutureIterDataPipe)
  (objects : list NumpyBatch) : Gen.run NumpyBatch * list NumpyBatch :=
  iterate (num_future_timesteps self) (source_dp self) objects.

End ExtendTimestampsToFuture.

(** ** [ocf_datapipes/utils/utils.py]: [is_sorted] and [ZipperIterDataPipe] *)
Module UtilsMore.

(** [is_sorted(array)].  [len] of a 0-d array raises [TypeError];
    [array[:-1]] and [array[1:]] are the leading slices without the last
    and without the first, compared element by element, and [np.all]
    folds the comparisons. *)
Definition is_sorted (array : Np.ndarray) : result bool :=
  match Np.shape array with
  | [] => Raise TypeError
  | n :: s =>
      if n =? 0 then Ok false
      else
        Ok (forallb (fun p => PrimFloat.leb (fst p) (snd p))
              (combine (firstn ((n - 1) * Np.size s) (Np.data array))
                       (skipn (Np.size s) (Np.data array))))
  end.

(** An argument handed to the zipper: a datapipe, which holds its items
    and may or may not be [Sized], or some other object.  A sized datapipe
    reports the number of its items. *)
Inductive argument (A : Type) : Type :=
| IterDataPipe (items : list A) (sized : bool)
| NotADataPipe.
Arguments NotADataPipe {A}.

Record datapipe (A : Type) : Type :=
  mk_datapipe { items : list A; sized : bool }.

Record ZipperIterDataPipe (A : Type) : Type :=
  mk_zipper { datapipes : list (datapipe A); length : option Z }.

(** [all(isinstance(dp, IterDataPipe) for dp in datapipes)], keeping the
    datapipes. *)
Fixpoint as_datapipes {A} (args : list (argument A)) : option (list (datapipe A)) :=
  match args with
  | [] => Some []
  | IterDataPipe items sized :: rest =>
      match as_datapipes rest with
      | Some dps => Some (mk_datapipe items sized :: dps)
      | None => None
      end
  | NotADataPipe :: _ => None
  end.

Definition __init__ {A} (args : list (argument A)) : result (ZipperIterDataPipe A) :=
  match as_datapipes args with
  | Some dps => Ok (mk_zipper dps None)
  | None => Raise TypeError
  end.

(** [zip] applied to the iterators: one tuple per round, until some iterator is
    exhausted; with no iterator at all there is no round. *)
Fixpoint zip {A} (iterators : list (list A)) : list (list A) :=
  match iterators with
  | [] => []
  | it :: rest =>
      match rest with
      | [] => map (fun x => [x]) it
      | _ => map (fun p => fst p :: snd p) (combine it (zip rest))
      end
  end.

Definition __iter__ {A} (self : ZipperIterDataPipe A) : Gen.run (list A) :=
  Gen.mk_run [] (zip (map (@items A) (datapipes self))) None.

(** [min(len(dp) for dp in self.datapipes)]; [min] of nothing raises
    [ValueError]. *)
Definition min_len {A} (dps : list (datapipe A)) : result Z :=
  match dps with
  | [] => Raise ValueError
  | dp :: rest =>
      Ok (fold_left Z.min
            (map (fun d => Z.of_nat (List.length (items d))) rest)
            (Z.of_nat (List.length (items dp))))
  end.

(** The branch of [__len__] taken when [self.length] is set. *)
Definition cached_len (n : Z) : result Z :=
  if (n =? -1)%Z then Raise TypeError else Ok n.

(** [__len__], returning its answer and the object as it is afterwards.
    When [self.length] is unset it is computed and stored, and the method
    calls itself once. *)
Definition __len__ {A} (self : ZipperIterDataPipe A)
  : result Z * ZipperIterDataPipe A :=
  match length self with
  | Some n => (cached_len n, self)
  | None =>
      if forallb (@sized A) (datapipes self) then
        match min_len (datapipes self) with
        | Ok n => (cached_len n, mk_zipper (datapipes self) (Some n))
        | Raise e => (Raise e, self)
        end
      else (cached_len (-1), mk_zipper (datapipes self) (Some (-1)%Z))
  end.

End UtilsMore.

Module Merge := MergeNumpyExamplesToBatch.
Module Extend := ExtendTimestampsToFuture.

(** ** Vocabulary of the design document

    Notions the statements below are phrased in.  They are written after the
    document's words, not after the code, and the code is compared against
    them. *)
Module Design.

(** The complete groups of [n] consecutive items of [l]: there are
    [length l / n] of them, and the [i]-th holds items [i * n] to
    [i * n + n - 1]. *)
Definition complete_groups {A} (n : nat) (l : list A) : list (list A) :=
  map (fun i => firstn n (skipn (i * n) l)) (seq 0 (length l / n)).


(** A place where per-example values meet: a primary key, or a secondary
    key under a source of the nested modality. *)
Inductive slot : Type :=
| Primary (k : key)
| Secondary (nwp_source : string) (k : key).


(** The per-example values of a slot, example by example. *)
Definition slot_values (dict_list : list NumpyBatch) (s : slot)
  : result (list Np.ndarray) :=
  match s with
  | Primary k => comprehension (fun d => lookup_array d k) dict_list
  | Secondary nwp_source k =>
      comprehension (fun d => nwp_lookup d nwp_source k) dict_list
  end.



(** The timestamps appended to a series: [n] times the step added to the
    running last value. *)
Fixpoint future (n : nat) (last step : float) : list float :=
  match n with
  | O => []
  | S n' => let t := PrimFloat.add last step in t :: future n' t step
  end.

(** A series of at least two timestamps extended by [n] steps, the step
    being the absolute difference of its last two entries. *)
Definition extended (n : nat) (times : list float) : list float :=
  match rev times with
  | last :: before_last :: _ =>
      times ++ future n last (PrimFloat.abs (PrimFloat.sub last before_last))
  | _ => times
  end.

(** Whether a key names a time axis. *)
Definition is_time_key (k : key) : bool := endswith (name k) "time_utc".

(** An item of a batch after forward extension by [n] steps: a time axis is
    replaced by its extended series, anything else is left as it is. *)
Definition extend_entry (n : nat) (e : entry) : entry :=
  match e with
  | Field k a =>
      if is_time_key k then Field k (Np.vector (extended n (Np.data a))) else e
  | NwpEntry _ => e
  end.

(** The time axes of a batch, in key order. *)
Definition time_fields (np_batch : NumpyBatch) : dict key Np.ndarray :=
  flat_map
    (fun e =>
       match e with
       | Field k a => if is_time_key k then [(k, a)] else []
       | NwpEntry _ => []
       end)
    np_batch.

(** What the log holds after a failed stacking under [k]. *)
Definition mismatch_log (k : key) (arrays : list Np.ndarray) : list log_record :=
  [DEBUG_could_not_stack k; DEBUG_shapes (map Np.shape arrays); ERROR ValueError].



(** A computation all of whose exceptions satisfy [P]. *)
Definition raises_only (P : exn -> Prop) {A} (r : result A) : Prop :=
  forall e, r = Raise e -> P e.

(** An example as a Python program can build it and [NumpyBatch] types it:
    keys are distinct, an array never sits under [BatchKey.nwp], and the
    nested mapping names at least one source. *)
Definition well_typed (example : NumpyBatch) : Prop :=
  NoDup (batch_keys_of example)
  /\ (forall a, ~ In (Field BatchKey_nwp a) example)
  /\ (forall m, In (NwpEntry m) example -> m <> []).


End Design.
Export Design.

(** ** Vocabulary for the further properties *)
Module Vocabulary.

(** The length of the shortest of several lists; 0 when there is none. *)
Definition shortest {A} (ls : list (list A)) : nat :=
  match ls with
  | [] => 0
  | l :: rest => fold_left Nat.min (map (@List.length A) rest) (List.length l)
  end.

(** Every entry is at most its successor, in float64 comparison. *)
Definition ascending (xs : list float) : Prop :=
  forall i, S i < List.length xs ->
    PrimFloat.leb (nth i xs 0%float) (nth (S i) xs 0%float) = true.

(** The log is empty, or it is the three records of one failed stacking
    and the exception is numpy's. *)
Definition tidy {A} (c : M A) : Prop :=
  match c with
  | (l, Ok _) => l = []
  | (l, Raise e) =>
      l = [] \/ exists k arrays, l = mismatch_log k arrays /\ e = ValueError
  end.

(** As [tidy], or the handler of the failed stacking failed in its turn:
    one debug record, then [AttributeError]. *)
Definition tidy_or_handler_failed {A} (c : M A) : Prop :=
  match c with
  | (l, Ok _) => l = []
  | (l, Raise e) =>
      l = []
      \/ (exists k arrays, l = mismatch_log k arrays /\ e = ValueError)
      \/ (exists k, l = [DEBUG_could_not_stack k] /\ e = AttributeError)
  end.

(** An item of the first example and the item the stacked batch holds in
    its place: a field becomes the combination of its per-example values,
    the nested modality stays a nested mapping. *)
Definition stacked_entry (dict_list : list NumpyBatch) (e e' : entry) : Prop :=
  match e with
  | Field k _ =>
      exists column x,
        slot_values dict_list (Primary k) = Ok column
        /\ Merge.stack_data_list column k = ([], Ok x)
        /\ e' = Field k x
  | NwpEntry _ => exists m', e' = NwpEntry m'
  end.

(** An example, or a batch, that holds nothing but the nested modality
    with one source. *)
Definition single_source (nwp_source : string) (inner : NWPNumpyBatch)
  : NumpyBatch :=
  [NwpEntry [(nwp_source, inner)]].

(** The loop of [Merge.unstack_nwp_source], started from a dictionary that
    already holds some fields. *)
Definition unstack_nwp_source_loop (start : NWPNumpyBatch) (batch : NumpyBatch)
  (nwp_batch_keys : list key) (i : nat) (nwp_source : string)
  : result NWPNumpyBatch :=
  for_each
    (fun nwp_source_batch nwp_batch_key =>
       (a <- nwp_lookup batch nwp_source nwp_batch_key ;;
        x <- Np.index a i ;;
        a' <- nwp_lookup batch nwp_source nwp_batch_key ;;
        y <- Merge.extract_data_from_batch a' nwp_batch_key i ;;
        Ok (setitem key_eqb
              (setitem key_eqb nwp_source_batch nwp_batch_key x)
              nwp_batch_key y))%res)
    nwp_batch_keys start.

(** The secondary field [k] of a stacked single-source batch: it combines
    the values the examples hold under [k]. *)
Definition stacked_field (inners : list NWPNumpyBatch) (k : key)
  (x : Np.ndarray) : Prop :=
  exists column,
    comprehension (fun inner => getitem key_eqb inner k) inners = Ok column
    /\ Merge.stack_data_list column k = ([], Ok x).

End Vocabulary.
Export Vocabulary.

(** * Properties *)

Unset Implicit Arguments.

(** ** Sample data used by the concrete statements *)
Module Samples.
Open Scope float_scope.

Definition pv : key := BatchKey "pv".
Definition pv_t0_idx : key := BatchKey "pv_t0_idx".
Definition gsp_time_utc : key := BatchKey "gsp_time_utc".
Definition nwp : key := NWPBatchKey "nwp".
Definition nwp_t0_idx : key := NWPBatchKey "nwp_t0_idx".

(** Two examples with one variable field. *)
Definition plain_a : NumpyBatch := [Field pv (Np.vector [1; 2])].
Definition plain_b : NumpyBatch := [Field pv (Np.vector [3; 4])].
Definition batch_plain : NumpyBatch :=
  [Field pv (Np.mk_ndarray [2; 2]%nat [1; 2; 3; 4])].

(** Two examples that differ in the variable field and in the constant one. *)
Definition example_a : NumpyBatch :=
  [Field pv_t0_idx (Np.scalar 5); Field pv (Np.vector [1; 2])].
Definition example_b : NumpyBatch :=
  [Field pv_t0_idx (Np.scalar 7); Field pv (Np.vector [3; 4])].

Definition batch_ab : NumpyBatch :=
  [Field pv_t0_idx (Np.scalar 5);
   Field pv (Np.mk_ndarray [2; 2]%nat [1; 2; 3; 4])].

(** Two examples holding only the nested modality, with one source, and
    the batch they stack to. *)
Definition nested_example (x : float) (t0 : float) : NumpyBatch :=
  [NwpEntry [("A"%string, [(nwp, Np.vector [x]); (nwp_t0_idx, Np.scalar t0)])]].
Definition batch_nested : NumpyBatch :=
  [NwpEntry [("A"%string, [(nwp, Np.mk_ndarray [2; 1]%nat [1; 2]);
                           (nwp_t0_idx, Np.scalar 5)])]].

(** An example with the nested modality next to one that holds an array
    under the same key. *)
Definition nested_next_to_array : list NumpyBatch :=
  [nested_example 1 5; [Field BatchKey_nwp (Np.vector [1; 2])]].

(** An example whose only key is [BatchKey.nwp_channel_names]. *)
Definition channel_names_only : NumpyBatch :=
  [Field BatchKey_nwp_channel_names (Np.vector [1; 2])].

(** Arrays of shapes (3, 4) and (3, 5). *)
Definition zeros (s : list nat) : Np.ndarray :=
  Np.mk_ndarray s (repeat 0 (Np.size s)).

(** A batch with one variable primary field of shape (4, 10) and one
    constant field. *)
Definition batch_4_10 : NumpyBatch :=
  [Field pv (zeros [4; 10]%nat); Field pv_t0_idx (Np.scalar 5)].

(** A time axis of three timestamps, as a series and with a leading batch
    axis of one and of two examples. *)
Definition series_example : NumpyBatch :=
  [Field gsp_time_utc (Np.vector [0; 300; 600]); Field pv (Np.vector [1; 2])].
Definition series_extended : NumpyBatch :=
  [Field gsp_time_utc (Np.vector [0; 300; 600; 900; 1200; 1500]);
   Field pv (Np.vector [1; 2])].
Definition batch_of_one : NumpyBatch :=
  [Field gsp_time_utc (Np.mk_ndarray [1; 3]%nat [0; 300; 600])].
Definition batch_of_two : NumpyBatch :=
  [Field gsp_time_utc (Np.mk_ndarray [2; 3]%nat [0; 300; 600; 300; 600; 900])].
Definition batch_of_two_extended : NumpyBatch :=
  [Field gsp_time_utc
     (Np.mk_ndarray [3; 3]%nat [0; 300; 600; 300; 600; 900; 600; 900; 1200])].

(** The series above after two extensions by three steps. *)
Definition series_extended_twice : NumpyBatch :=
  [Field gsp_time_utc
     (Np.vector [0; 300; 600; 900; 1200; 1500; 1800; 2100; 2400]);
   Field pv (Np.vector [1; 2])].

(** The satellite branch of the end-to-end test
    ([tests/end2end/test_power_perceiver_production.py], lines 123-129):
    examples whose time axis holds one hour of history at five minutes,
    thirteen timestamps in seconds, are merged four at a time and then
    extended by two hours at five minutes. *)
Definition hrvsatellite_time_utc : key := BatchKey "hrvsatellite_time_utc".
Definition history (start : float) : list float :=
  map (fun i => start + 300 * i) [0; 1; 2; 3; 4; 5; 6; 7; 8; 9; 10; 11; 12].
Definition satellite_example (start : float) : NumpyBatch :=
  [Field hrvsatellite_time_utc (Np.vector (history start))].
Definition satellite_examples : list NumpyBatch :=
  map satellite_example [0; 1800; 3600; 5400].
Definition satellite_batch : NumpyBatch :=
  [Field hrvsatellite_time_utc
     (Np.mk_ndarray [4; 13]%nat (concat (map history [0; 1800; 3600; 5400])))].
Definition two_hours : Z := 7200000000.
Definition five_minutes : Z := 300000000.

(** What the test expects of that batch, 13 + 24 = 37 timestamps in every
    series, and what the extension makes of it: 24 more rows, each the row
    before it plus the difference of the last two examples. *)
Definition satellite_batch_expected : NumpyBatch :=
  [Field hrvsatellite_time_utc
     (Np.mk_ndarray [4; 37]%nat
        (concat (map (fun start => extended 24 (history start))
                   [0; 1800; 3600; 5400])))].
Definition satellite_batch_rows : NumpyBatch :=
  [Field hrvsatellite_time_utc
     (Np.mk_ndarray [28; 13]%nat
        (concat (map (fun k => history (1800 * k))
                   [0; 1; 2; 3; 4; 5; 6; 7; 8; 9; 10; 11; 12; 13; 14; 15; 16;
                    17; 18; 19; 20; 21; 22; 23; 24; 25; 26; 27])))].

(** A batch whose only field is constant. *)
Definition all_constant : NumpyBatch := [Field pv_t0_idx (Np.scalar 5)].


End Samples.

(** ** General facts about the runtime model *)

Lemma next_filter_find {A} (f : A -> bool) (l : list A) :
  next (filter f l) =
  match find f l with Some x => Ok x | None => Raise StopIteration end.
Proof.
  induction l as [|x l IH]; simpl; [reflexivity|].
  destruct (f x); [reflexivity | exact IH].
Qed.

Lemma filter_all_false {A} (f : A -> bool) (l : list A) :
  (forall x, In x l -> f x = false) -> filter f l = [].
Proof.
  induction l as [|x l IH]; simpl; intros H; [reflexivity|].
  rewrite (H x (or_introl eq_refl)). apply IH. intros y Hy. apply H. now right.
Qed.

Lemma comprehension_Forall2 {A B} (f : A -> result B) xs ys :
  comprehension f xs = Ok ys -> Forall2 (fun x y => f x = Ok y) xs ys.
Proof.
  revert ys. induction xs as [|x xs IH]; simpl; intros ys H.
  - injection H as <-. constructor.
  - destruct (f x) as [y|e] eqn:Hx; simpl in H; [|discriminate].
    destruct (comprehension f xs) as [ys'|e] eqn:Hxs; simpl in H; [|discriminate].
    injection H as <-. constructor; auto.
Qed.

Lemma comprehension_length {A B} (f : A -> result B) xs ys :
  comprehension f xs = Ok ys -> length ys = length xs.
Proof.
  intros H. apply comprehension_Forall2 in H.
  symmetry. eapply Forall2_length; eauto.
Qed.

Lemma comprehension_nth {A B} (f : A -> result B) xs ys i dx dy :
  comprehension f xs = Ok ys -> i < length xs ->
  f (nth i xs dx) = Ok (nth i ys dy).
Proof.
  intros H. apply comprehension_Forall2 in H.
  revert i. induction H as [|x y xs ys Hxy _ IH]; simpl; intros i Hi; [lia|].
  destruct i; [exact Hxy | apply IH; lia].
Qed.

(** A loop whose body cannot complete for one of the items never completes. *)
Lemma for_each_stuck {A S} (body : S -> A -> result S) xs x :
  In x xs -> (forall acc s, body acc x <> Ok s) ->
  forall acc s, for_each body xs acc <> Ok s.
Proof.
  induction xs as [|y xs IH]; simpl; intros Hin Hx acc s; [contradiction|].
  destruct (body acc y) as [acc'|e] eqn:Hy; simpl; [|discriminate].
  destruct Hin as [->|Hin]; [exfalso; eapply Hx; eauto | now apply IH].
Qed.

(** ** Splitting: the branch for ordinary keys *)

(** One pass over the keys cannot complete when an ordinary key is among
    them: its branch reads the unbound name. *)
Lemma unstack_sample_ordinary_key batch batch_keys i k sample :
  In k batch_keys -> key_eqb k BatchKey_nwp = false ->
  Merge.unstack_sample batch batch_keys i <> Ok sample.
Proof.
  intros Hin Hk. unfold Merge.unstack_sample.
  apply for_each_stuck with (x := k); [exact Hin|].
  intros acc s. rewrite Hk. discriminate.
Qed.

Lemma unstack_ordinary_key_empty batch k samples :
  In k (batch_keys_of batch) -> key_eqb k BatchKey_nwp = false ->
  Merge.unstack_np_batch_into_examples batch = Ok samples -> samples = [].
Proof.
  intros Hin Hk. unfold Merge.unstack_np_batch_into_examples.
  destruct (Merge.batch_size_of batch) as [[|n]|e]; simpl; try discriminate.
  - intros H. now injection H as <-.
  - destruct (Merge.unstack_sample batch (batch_keys_of batch) 0) as [s|e] eqn:E.
    + exfalso. eapply unstack_sample_ordinary_key; eauto.
    + discriminate.
Qed.

Lemma shape_eqb_eq s t : Np.shape_eqb s t = true <-> s = t.
Proof.
  unfold Np.shape_eqb. destruct (list_eq_dec Nat.eq_dec s t); split;
    intros; try discriminate; congruence.
Qed.

(** The two per-field functions are inverse to each other: reading index
    [i] of a stack of well-formed arrays gives back the [i]-th array. *)
Lemma concat_block {A} size (blocks : list (list A)) i block :
  (forall x, In x blocks -> length x = size) ->
  nth_error blocks i = Some block ->
  firstn size (skipn (i * size) (concat blocks)) = block.
Proof.
  revert i. induction blocks as [|x blocks IH]; intros i Hlen Hi.
  - destruct i; discriminate.
  - cbn [concat]. destruct i as [|i]; cbn [nth_error] in Hi.
    + injection Hi as ->. cbn [Nat.mul skipn].
      rewrite firstn_app, (Hlen block (or_introl eq_refl)), Nat.sub_diag.
      cbn [firstn]. rewrite app_nil_r.
      rewrite <- (Hlen block (or_introl eq_refl)). apply firstn_all.
    + rewrite skipn_app, (Hlen x (or_introl eq_refl)).
      rewrite skipn_all2 by (rewrite (Hlen x (or_introl eq_refl)); cbn; lia).
      cbn [app]. replace (S i * size - size) with (i * size) by (cbn; lia).
      apply IH; [|exact Hi]. intros y Hy. apply Hlen. now right.
Qed.

Lemma index_of_stack arrays stacked i a :
  (forall x, In x arrays -> Np.well_formed x) ->
  Np.stack arrays = Ok stacked ->
  nth_error arrays i = Some a ->
  Np.index stacked i = Ok a.
Proof.
  intros Hwf Hstack Hi.
  destruct arrays as [|a0 rest]; [discriminate|].
  unfold Np.stack in Hstack.
  destruct (forallb (fun b => Np.shape_eqb (Np.shape b) (Np.shape a0)) rest)
    eqn:E; [|discriminate].
  injection Hstack as <-.
  assert (Hshape : forall x, In x (a0 :: rest) -> Np.shape x = Np.shape a0).
  { intros x [<-|Hx]; [reflexivity|].
    rewrite forallb_forall in E. now apply shape_eqb_eq, E. }
  assert (Hin : In a (a0 :: rest)) by (eapply nth_error_In; eauto).
  unfold Np.index. cbn [Np.shape Np.data].
  assert (Hlt : i < length (a0 :: rest)) by (apply nth_error_Some; congruence).
  cbn [length] in Hlt.
  destruct (Nat.ltb_spec i (S (length rest))); [|lia].
  unfold Np.slice.
  change (Np.data a0 ++ concat (map Np.data rest))
    with (concat (map Np.data (a0 :: rest))).
  rewrite (concat_block _ _ i (Np.data a)).
  - rewrite <- (Hshape a Hin). now destruct a.
  - intros x Hx. apply in_map_iff in Hx. destruct Hx as (y & <- & Hy).
    rewrite <- (Hshape y Hy). apply Hwf, Hy.
  - now rewrite nth_error_map, Hi.
Qed.

Lemma extract_of_stack data_list batch_key l stacked i a :
  Merge.non_constant batch_key = true ->
  (forall x, In x data_list -> Np.well_formed x) ->
  Merge.stack_data_list data_list batch_key = (l, Ok stacked) ->
  nth_error data_list i = Some a ->
  Merge.extract_data_from_batch stacked batch_key i = Ok a.
Proof.
  intros Hk Hwf Hstack Hi.
  unfold Merge.stack_data_list, Merge.extract_data_from_batch in *.
  unfold Merge.non_constant in Hk. apply negb_true_iff in Hk. rewrite Hk in *.
  destruct (Np.stack data_list) as [r|e] eqn:E; [|discriminate].
  injection Hstack as _ <-. eapply index_of_stack; eauto.
Qed.

(** C1 (round trip).  Stacking two examples with one variable field gives
    the expected batch, but splitting that batch raises [NameError] instead
    of returning the two examples; more generally, for a batch with any key
    other than [BatchKey.nwp] the split never returns a nonempty list.  The
    per-field functions themselves do invert each other: index [i] of the
    stack of well-formed arrays under a variable key is the [i]-th array. *)
Theorem C1_round_trip_stops_with_NameError :
  Merge.stack_np_examples_into_batch [Samples.plain_a; Samples.plain_b]
    = ([], Ok Samples.batch_plain)
  /\ Merge.unstack_np_batch_into_examples Samples.batch_plain = Raise NameError
  /\ (forall batch k samples,
        In k (batch_keys_of batch) -> key_eqb k BatchKey_nwp = false ->
        Merge.unstack_np_batch_into_examples batch = Ok samples -> samples = [])
  /\ (forall data_list batch_key l stacked i a,
        Merge.non_constant batch_key = true ->
        (forall x, In x data_list -> Np.well_formed x) ->
        Merge.stack_data_list data_list batch_key = (l, Ok stacked) ->
        nth_error data_list i = Some a ->
        Merge.extract_data_from_batch stacked batch_key i = Ok a).
Proof.
  split; [reflexivity|]. split; [reflexivity|].
  split; [intros batch k samples; apply unstack_ordinary_key_empty|].
  exact extract_of_stack.
Qed.

(** A constant key is answered with the first list element, whatever the
    other elements are. *)
Lemma stack_data_list_constant x rest batch_key :
  Merge._key_is_constant batch_key = true ->
  Merge.stack_data_list (x :: rest) batch_key = ([], Ok x).
Proof. intros H. unfold Merge.stack_data_list. now rewrite H. Qed.

Lemma extract_data_constant data batch_key i :
  Merge._key_is_constant batch_key = true ->
  Merge.extract_data_from_batch data batch_key i = Ok data.
Proof. intros H. unfold Merge.extract_data_from_batch. now rewrite H. Qed.

(** C2 (constant-key pass-through).  On the stacking side the constant key
    keeps the first example's value (5, not 7), and [stack_data_list] and
    [extract_data_from_batch] pass a constant key's value through untouched.
    Splitting the resulting batch, however, raises [NameError] at the
    primary level, and [IndexError] for a nested 0-d constant, so no
    recovered example reproduces the value. *)
Theorem C2_constant_key_kept_by_stack_lost_by_split :
  Merge.stack_np_examples_into_batch [Samples.example_a; Samples.example_b]
    = ([], Ok Samples.batch_ab)
  /\ lookup_array Samples.batch_ab Samples.pv_t0_idx = Ok (Np.scalar 5%float)
  /\ Merge.unstack_np_batch_into_examples Samples.batch_ab = Raise NameError
  /\ Merge.stack_np_examples_into_batch
       [Samples.nested_example 1%float 5%float;
        Samples.nested_example 2%float 7%float]
     = ([], Ok Samples.batch_nested)
  /\ Merge.unstack_np_batch_into_examples Samples.batch_nested = Raise IndexError
  /\ (forall x rest batch_key,
        Merge._key_is_constant batch_key = true ->
        Merge.stack_data_list (x :: rest) batch_key = ([], Ok x))
  /\ (forall data batch_key i,
        Merge._key_is_constant batch_key = true ->
        Merge.extract_data_from_batch data batch_key i = Ok data).
Proof.
  repeat split; try reflexivity.
  - intros; now apply stack_data_list_constant.
  - intros; now apply extract_data_constant.
Qed.

(** C7 (empty input), as the code behaves: stacking an empty sequence fails
    on [dict_list[0]] with [IndexError], logging nothing. *)
Theorem C7_empty_input_raises_IndexError :
  Merge.stack_np_examples_into_batch [] = ([], Raise IndexError).
Proof. reflexivity. Qed.

(** C7, as stated, does not hold: the failure is not [EmptyInputError]. *)
Lemma C7_not_EmptyInputError :
  snd (Merge.stack_np_examples_into_batch []) <> Raise EmptyInputError.
Proof. discriminate. Qed.

(** C9, as stated, does not hold: construction with a batch size of zero,
    or a negative one, succeeds. *)
Lemma C9_construction_accepts_non_positive :
  Merge.__init__ [Samples.plain_a] 0
    = Ok {| Merge.source_datapipe := [Samples.plain_a];
            Merge.n_examples_per_batch := 0 |}
  /\ Merge.__init__ [Samples.plain_a] (-3)
    = Ok {| Merge.source_datapipe := [Samples.plain_a];
            Merge.n_examples_per_batch := -3 |}.
Proof. split; reflexivity. Qed.

(** ** The accumulating batcher *)

(** With a batch size of zero or less the buffer length, at least one after
    every append, never equals it. *)
Lemma accumulate_non_positive n buffer source :
  (n <= 0)%Z -> Merge.accumulate n buffer source = Gen.finished.
Proof.
  intros Hn. revert buffer.
  induction source as [|x rest IH]; intros buffer; simpl; [reflexivity|].
  rewrite length_app. simpl.
  destruct (Z.eqb_spec (Z.of_nat (length buffer + 1)) n); [lia | apply IH].
Qed.

(** C9 (configuration), as the code behaves: construction performs no check
    and succeeds for every batch size; with a batch size of zero or less the
    iterator then emits nothing and ends normally. *)
Theorem C9_construction_never_fails :
  forall (source : list NumpyBatch) (n : Z),
    exists self,
      Merge.__init__ source n = Ok self
      /\ Merge.source_datapipe self = source
      /\ Merge.n_examples_per_batch self = n
      /\ ((n <= 0)%Z ->
          Gen.yielded (Merge.__iter__ self) = []
          /\ Gen.raised (Merge.__iter__ self) = None).
Proof.
  intros source n. eexists. split; [reflexivity|]. simpl.
  split; [reflexivity|]. split; [reflexivity|].
  intros Hn. unfold Merge.__iter__. simpl.
  rewrite accumulate_non_positive by exact Hn. split; reflexivity.
Qed.

Lemma complete_groups_short {A} n (l : list A) :
  length l < n -> complete_groups n l = [].
Proof.
  intros H. unfold complete_groups. now rewrite Nat.div_small.
Qed.

Lemma complete_groups_app {A} n (g l : list A) :
  0 < n -> length g = n ->
  complete_groups n (g ++ l) = g :: complete_groups n l.
Proof.
  intros Hn Hg. unfold complete_groups.
  rewrite length_app, Hg.
  replace (n + length l) with (1 * n + length l) by lia.
  rewrite Nat.div_add_l by lia. simpl seq. simpl map.
  f_equal.
  - rewrite firstn_app, Hg, Nat.sub_diag. simpl.
    rewrite <- Hg, firstn_all. apply app_nil_r.
  - rewrite <- seq_shift, map_map. apply map_ext. intros i.
    f_equal. replace (S i * n) with (length g + i * n) by lia.
    rewrite skipn_app.
    rewrite skipn_all2 by lia.
    replace (length g + i * n - length g) with (i * n) by lia. reflexivity.
Qed.

Lemma complete_groups_length {A} n (l : list A) :
  length (complete_groups n l) = length l / n.
Proof. unfold complete_groups. now rewrite length_map, length_seq. Qed.

Lemma complete_groups_size {A} n (l g : list A) :
  0 < n -> In g (complete_groups n l) -> length g = n.
Proof.
  intros Hn H. unfold complete_groups in H. apply in_map_iff in H.
  destruct H as (i & <- & Hi). apply in_seq in Hi.
  rewrite length_firstn, length_skipn.
  assert (n * (length l / n) <= length l) by (apply Nat.Div0.mul_div_le).
  nia.
Qed.

(** The buffer plus what is still to come decides the run. *)
Lemma accumulate_groups n buffer source :
  0 < n -> length buffer < n ->
  Merge.accumulate (Z.of_nat n) buffer source
  = Merge.MergeNumpyBatch_loop (complete_groups n (buffer ++ source)).
Proof.
  intros Hn. revert buffer.
  induction source as [|x rest IH]; intros buffer Hb; simpl.
  - rewrite app_nil_r, complete_groups_short by exact Hb. reflexivity.
  - replace (buffer ++ x :: rest) with ((buffer ++ [x]) ++ rest)
      by (rewrite <- app_assoc; reflexivity).
    destruct (Z.eqb_spec (Z.of_nat (length (buffer ++ [x]))) (Z.of_nat n)) as [E|E].
    + apply Nat2Z.inj in E.
      rewrite complete_groups_app by assumption. simpl.
      rewrite (IH [] Hn). reflexivity.
    + apply IH. rewrite length_app in *. simpl in *. lia.
Qed.

(** When every group stacks, one batch per group comes out. *)
Lemma MergeNumpyBatch_loop_all_ok groups :
  (forall g, In g groups ->
     exists b, snd (Merge.stack_np_examples_into_batch g) = Ok b) ->
  length (Gen.yielded (Merge.MergeNumpyBatch_loop groups)) = length groups
  /\ Gen.raised (Merge.MergeNumpyBatch_loop groups) = None.
Proof.
  induction groups as [|g groups IH]; intros H; simpl; [split; reflexivity|].
  destruct (H g (or_introl eq_refl)) as [b Hb].
  destruct (Merge.stack_np_examples_into_batch g) as [l [b'|e]];
    simpl in Hb; [|discriminate].
  destruct IH as [IH1 IH2]; [intros g' Hg'; apply H; now right|].
  simpl. split; [now rewrite IH1 | exact IH2].
Qed.

(** C4 (accumulating batcher).  For a positive batch size [n], iterating the
    accumulating batcher over a stream is iterating the whole-list batcher
    over the stream's complete groups of [n] consecutive examples: one
    stacked batch per group, in order, the buffer starting afresh after each
    and a trailing under-full buffer never stacked.  There are
    [length source / n] groups of exactly [n] examples, and when each of them
    stacks, that many batches are emitted.  Ten examples with [n = 4] give
    the stack of the first four and the stack of the next four, and examples
    nine and ten are never emitted. *)
Theorem C4_accumulating_batcher :
  forall (source : list NumpyBatch) (n : Z) self,
    (0 < n)%Z ->
    Merge.__init__ source n = Ok self ->
    let groups := complete_groups (Z.to_nat n) source in
    Merge.__iter__ self = Merge.MergeNumpyBatch___iter__ groups
    /\ length groups = length source / Z.to_nat n
    /\ (forall g, In g groups -> length g = Z.to_nat n)
    /\ ((forall g, In g groups ->
           exists b, snd (Merge.stack_np_examples_into_batch g) = Ok b) ->
        length (Gen.yielded (Merge.__iter__ self)) = length source / Z.to_nat n
        /\ Gen.raised (Merge.__iter__ self) = None)
    /\ (forall e0 e1 e2 e3 e4 e5 e6 e7 e8 e9 : NumpyBatch,
          Merge.__iter__
            {| Merge.source_datapipe := [e0; e1; e2; e3; e4; e5; e6; e7; e8; e9];
               Merge.n_examples_per_batch := 4 |}
          = Merge.MergeNumpyBatch___iter__ [[e0; e1; e2; e3]; [e4; e5; e6; e7]]).
Proof.
  intros source n self Hn Hinit groups.
  injection Hinit as <-.
  assert (Hrun : Merge.__iter__
                   {| Merge.source_datapipe := source;
                      Merge.n_examples_per_batch := n |}
                 = Merge.MergeNumpyBatch___iter__ groups).
  { unfold Merge.__iter__, Merge.MergeNumpyBatch___iter__. simpl. f_equal.
    rewrite <- (Z2Nat.id n) at 1 by lia.
    rewrite accumulate_groups by (simpl; lia). reflexivity. }
  split; [exact Hrun|].
  split; [apply complete_groups_length|].
  split; [intros g; apply complete_groups_size; lia|].
  split.
  - intros Hall. rewrite Hrun. unfold Merge.MergeNumpyBatch___iter__. simpl.
    destruct (MergeNumpyBatch_loop_all_ok groups Hall) as [H1 H2].
    rewrite H1. split; [apply complete_groups_length | exact H2].
  - intros. reflexivity.
Qed.

Lemma C4_accumulating_batcher_witness :
  (0 < 2)%Z
  /\ Merge.__iter__
       {| Merge.source_datapipe :=
            [Samples.plain_a; Samples.plain_b; Samples.plain_a];
          Merge.n_examples_per_batch := 2 |}
     = Merge.MergeNumpyBatch___iter__
         (complete_groups (Z.to_nat 2)
            [Samples.plain_a; Samples.plain_b; Samples.plain_a]).
Proof.
  split; [reflexivity|].
  exact (proj1 (C4_accumulating_batcher
                  [Samples.plain_a; Samples.plain_b; Samples.plain_a] 2 _
                  eq_refl eq_refl)).
Defined.

(** ** Laws of the logging monad *)

Lemma bind_lift_Ok {A B} (a : A) (f : A -> M B) : bind (lift (Ok a)) f = f a.
Proof. unfold bind, lift. now destruct (f a). Qed.

Lemma bind_lift_Raise {A B} e (f : A -> M B) :
  bind (lift (Raise e)) f = ([], Raise e).
Proof. reflexivity. Qed.

Lemma bind_ret {A B} (a : A) (f : A -> M B) : bind (ret a) f = f a.
Proof. unfold bind, ret. now destruct (f a). Qed.


(** ** Keys and lookups *)

Lemma key_eqb_eq a b : key_eqb a b = true <-> a = b.
Proof.
  destruct a as [n|n], b as [m|m]; simpl; split; intros H;
    try discriminate; try (apply String.eqb_eq in H; now subst);
    injection H as ->; apply String.eqb_refl.
Qed.

Lemma key_eqb_refl a : key_eqb a a = true.
Proof. now apply key_eqb_eq. Qed.

Lemma key_eqb_sym a b : key_eqb a b = key_eqb b a.
Proof.
  destruct a, b; simpl; try reflexivity; apply String.eqb_sym.
Qed.

(** For a key other than [BatchKey.nwp] the value found is an array. *)
Lemma lookup_as_array d k :
  key_eqb k BatchKey_nwp = false ->
  lookup d k = rbind (lookup_array d k) (fun a => Ok (Array a)).
Proof.
  intros Hk. induction d as [|[k' a|m] d IH]; [reflexivity| |];
    cbn [lookup lookup_array key_of value_of].
  - destruct (key_eqb k' k); [reflexivity | exact IH].
  - rewrite key_eqb_sym, Hk. exact IH.
Qed.

Lemma comprehension_ext {A B} (f g : A -> result B) xs :
  (forall x, In x xs -> f x = g x) -> comprehension f xs = comprehension g xs.
Proof.
  induction xs as [|x xs IH]; simpl; intros H; [reflexivity|].
  rewrite (H x (or_introl eq_refl)), IH; [reflexivity|].
  intros y Hy. apply H. now right.
Qed.

Lemma for_eachM_ext {A S} (f g : S -> A -> M S) xs :
  (forall x, In x xs -> forall acc, f acc x = g acc x) ->
  forall acc, for_eachM f xs acc = for_eachM g xs acc.
Proof.
  induction xs as [|x xs IH]; simpl; intros H acc; [reflexivity|].
  rewrite (H x (or_introl eq_refl)).
  destruct (g acc x) as [l [acc'|e]]; simpl; [|reflexivity].
  rewrite IH; [reflexivity|]. intros y Hy. apply H. now right.
Qed.

(** When every item has the key, the comprehension over the items succeeds,
    and its first element is the first item's value. *)
Lemma comprehension_lookup_array k first rest :
  (forall d, In d (first :: rest) -> exists a, lookup_array d k = Ok a) ->
  exists a others,
    lookup_array first k = Ok a
    /\ comprehension (fun d => lookup_array d k) (first :: rest) = Ok (a :: others).
Proof.
  intros H.
  assert (Hrest : exists others,
             comprehension (fun d => lookup_array d k) rest = Ok others).
  { assert (Hr : forall d, In d rest -> exists a, lookup_array d k = Ok a)
      by (intros d Hd; apply H; now right).
    clear H. induction rest as [|d rest IH]; simpl; [now exists []|].
    destruct (Hr d (or_introl eq_refl)) as [a ->].
    destruct IH as [others ->]; [intros d' Hd'; apply Hr; now right|].
    simpl. now eexists. }
  destruct (H first (or_introl eq_refl)) as [a Ha].
  destruct Hrest as [others Ho].
  exists a, others. split; [exact Ha|]. simpl. now rewrite Ha, Ho.
Qed.

(** ** The two stacking functions *)

Lemma comprehension_lookup_as_arrays k ds :
  key_eqb k BatchKey_nwp = false ->
  comprehension (fun d => lookup d k) ds
  = rbind (comprehension (fun d => lookup_array d k) ds)
      (fun arrays => Ok (map Array arrays)).
Proof.
  intros Hk. induction ds as [|d ds IH]; cbn [comprehension]; [reflexivity|].
  rewrite (lookup_as_array d k Hk), IH.
  destruct (lookup_array d k) as [a|e]; cbn [rbind]; [|reflexivity].
  destruct (comprehension (fun d0 => lookup_array d0 k) ds); reflexivity.
Qed.

Lemma arrays_of_map arrays : Utils.arrays_of (map Array arrays) = Some arrays.
Proof.
  induction arrays as [|a arrays IH]; cbn [map Utils.arrays_of]; [reflexivity|].
  now rewrite IH.
Qed.

Lemma shape_attr_arrays arrays :
  comprehension Utils.shape_attr (map Array arrays) = Ok (map Np.shape arrays).
Proof.
  induction arrays as [|a arrays IH]; cbn [map comprehension Utils.shape_attr rbind];
    [reflexivity|].
  now rewrite IH.
Qed.

Lemma of_batch_store acc e :
  Utils.of_batch (store acc e)
  = setitem key_eqb (Utils.of_batch acc) (key_of e) (Utils.Plain (value_of e)).
Proof.
  induction acc as [|e' acc IH]; cbn [store Utils.of_batch map setitem];
    [reflexivity|].
  destruct (key_eqb (key_of e') (key_of e)) eqn:E; cbn [map].
  - apply key_eqb_eq in E. now rewrite E.
  - f_equal. exact IH.
Qed.

(** A loop over ordinary batches, seen through [Utils.of_batch]. *)
Lemma for_eachM_of_result {A} (f : NumpyBatch -> A -> M NumpyBatch)
  (g : dict key Utils.stacked -> A -> M (dict key Utils.stacked)) xs :
  (forall x, In x xs -> forall acc,
      g (Utils.of_batch acc) x = Utils.of_result (f acc x)) ->
  forall acc,
    for_eachM g xs (Utils.of_batch acc) = Utils.of_result (for_eachM f xs acc).
Proof.
  induction xs as [|x xs IH]; intros H acc; cbn [for_eachM]; [reflexivity|].
  rewrite (H x (or_introl eq_refl)).
  destruct (f acc x) as [l [acc'|e]]; cbn [Utils.of_result fst snd bind];
    [|reflexivity].
  rewrite IH by (intros y Hy; apply H; now right).
  destruct (for_eachM f xs acc') as [l' r]. reflexivity.
Qed.

(** Where the two functions agree, if [BatchKey] declares the member: on
    lists of examples, the empty one included, in which the first example's
    keys are neither [BatchKey.nwp] nor one of the two [nwp_channel_names]
    members, and in which every example holds each constant key of the
    first. *)
Lemma stack_functions_agree np_examples :
  (forall first rest k,
      np_examples = first :: rest -> In k (batch_keys_of first) ->
      key_eqb k BatchKey_nwp = false
      /\ key_eqb k BatchKey_nwp_channel_names = false
      /\ key_eqb k NWPBatchKey_nwp_channel_names = false
      /\ (Merge._key_is_constant k = true ->
          forall d, In d np_examples -> exists a, lookup_array d k = Ok a)) ->
  Utils.stack_np_examples_into_batch true np_examples
  = Utils.of_result (Merge.stack_np_examples_into_batch np_examples).
Proof.
  destruct np_examples as [|first rest]; intros H; [reflexivity|].
  unfold Utils.stack_np_examples_into_batch, Merge.stack_np_examples_into_batch.
  cbn [item0]. rewrite !bind_lift_Ok.
  change (@nil (key * Utils.stacked)) with (Utils.of_batch []).
  apply for_eachM_of_result. intros k Hk acc.
  destruct (H first rest k eq_refl Hk) as (Hnwp & Hb & Hn & Hconst).
  rewrite Hnwp.
  unfold Utils.is_constant, Utils.BatchKey_dot_nwp_channel_names.
  cbn [rbind]. rewrite Hb.
  unfold Merge.stack_data_list, Merge._key_is_constant in *.
  rewrite Hn in *. rewrite orb_false_r in *.
  destruct (endswith (name k) "t0_idx") eqn:Hc; rewrite bind_lift_Ok.
  - destruct (comprehension_lookup_array k first rest (Hconst eq_refl))
      as (a & others & Ha & Hall).
    rewrite Hall, (lookup_as_array first k Hnwp), Ha. cbn [rbind item0].
    rewrite !bind_lift_Ok. cbn [item0]. rewrite bind_lift_Ok.
    unfold ret, Utils.of_result. cbn [fst snd].
    now rewrite (of_batch_store acc (Field k a)).
  - rewrite (comprehension_lookup_as_arrays k (first :: rest) Hnwp).
    destruct (comprehension (fun d => lookup_array d k) (first :: rest))
      as [arrays|e]; cbn [rbind]; [|reflexivity].
    rewrite !bind_lift_Ok. unfold Utils.np_stack.
    rewrite arrays_of_map.
    destruct (Np.stack arrays) as [x|e]; cbn [rbind].
    + rewrite bind_ret. unfold ret, Utils.of_result. cbn [fst snd].
      now rewrite (of_batch_store acc (Field k x)).
    + rewrite shape_attr_arrays. reflexivity.
Qed.

(** Without the member, the function of [utils.py] stops at the first key
    whose name does not end in [t0_idx]. *)
Lemma utils_stack_without_member e tail rest :
  endswith (name (key_of e)) "t0_idx" = false ->
  Utils.stack_np_examples_into_batch false ((e :: tail) :: rest)
  = ([], Raise AttributeError).
Proof.
  intros H. unfold Utils.stack_np_examples_into_batch.
  cbn [item0]. rewrite bind_lift_Ok.
  cbn [batch_keys_of map for_eachM].
  unfold Utils.is_constant. rewrite H. reflexivity.
Qed.

(** C10 (the two stacking functions).  The claim holds the function of
    [utils.py] and the function of the batch module to return equal batches
    on examples without the nested key.  [utils.py] tests a key against
    [BatchKey.nwp_channel_names], the batch module against
    [NWPBatchKey.nwp_channel_names], and members of different classes are
    never equal.  If [BatchKey] declares the member, the two functions
    differ on it: for one example holding an array of shape (2,) under it,
    [utils.py] passes the array through and the batch module stacks it to
    shape (1, 2).  If [BatchKey] does not declare it, [utils.py] raises
    [AttributeError] at the first key whose name does not end in [t0_idx],
    where the batch module returns the stacked batch.  Either way there is a
    nonempty list of examples without the nested key on which the results
    differ.  With the member declared, the two functions return the same
    thing, batch or exception and log, whenever the first example's keys are
    neither [BatchKey.nwp] nor a [nwp_channel_names] member and every
    example holds each constant key of the first. *)
Theorem C10_stack_functions_disagree :
  Utils.stack_np_examples_into_batch true [Samples.channel_names_only]
  = ([], Ok [(BatchKey_nwp_channel_names,
              Utils.Plain (Array (Np.mk_ndarray [2] [1%float; 2%float])))])
  /\ Merge.stack_np_examples_into_batch [Samples.channel_names_only]
     = ([], Ok [Field BatchKey_nwp_channel_names
                  (Np.mk_ndarray [1; 2] [1%float; 2%float])])
  /\ (forall e tail rest,
        endswith (name (key_of e)) "t0_idx" = false ->
        Utils.stack_np_examples_into_batch false ((e :: tail) :: rest)
        = ([], Raise AttributeError))
  /\ Utils.stack_np_examples_into_batch false [Samples.plain_a; Samples.plain_b]
     = ([], Raise AttributeError)
  /\ Merge.stack_np_examples_into_batch [Samples.plain_a; Samples.plain_b]
     = ([], Ok Samples.batch_plain)
  /\ (forall declared : bool,
        exists np_examples,
          np_examples <> []
          /\ (forall d, In d np_examples -> ~ In BatchKey_nwp (batch_keys_of d))
          /\ Utils.stack_np_examples_into_batch declared np_examples
             <> Utils.of_result (Merge.stack_np_examples_into_batch np_examples))
  /\ (forall np_examples : list NumpyBatch,
        (forall first rest k,
            np_examples = first :: rest -> In k (batch_keys_of first) ->
            key_eqb k BatchKey_nwp = false
            /\ key_eqb k BatchKey_nwp_channel_names = false
            /\ key_eqb k NWPBatchKey_nwp_channel_names = false
            /\ (Merge._key_is_constant k = true ->
                forall d, In d np_examples -> exists a, lookup_array d k = Ok a)) ->
        Utils.stack_np_examples_into_batch true np_examples
        = Utils.of_result (Merge.stack_np_examples_into_batch np_examples))
  /\ Utils.stack_np_examples_into_batch true [Samples.example_a; Samples.example_b]
     = ([], Ok (Utils.of_batch Samples.batch_ab)).
Proof.
  split; [reflexivity|]. split; [reflexivity|].
  split; [exact utils_stack_without_member|].
  split; [reflexivity|]. split; [reflexivity|]. split.
  { intros [|].
    - exists [Samples.channel_names_only]. split; [discriminate|]. split.
      + intros d [<-|[]] [H|[]]. discriminate H.
      + discriminate.
    - exists [Samples.plain_a; Samples.plain_b]. split; [discriminate|]. split.
      + intros d [<-|[<-|[]]] [H|[]]; discriminate H.
      + discriminate. }
  split; [exact stack_functions_agree | reflexivity].
Qed.

(** ** Stacking and shapes *)





(** *** Success and failure through [bind] and loops *)

Lemma bind_Ok_inv {A B} (c : M A) (f : A -> M B) l b :
  bind c f = (l, Ok b) ->
  exists l1 a l2, c = (l1, Ok a) /\ f a = (l2, Ok b).
Proof.
  destruct c as [l1 [a|e]]; simpl; [|discriminate].
  destruct (f a) as [l2 r] eqn:E. intros H. injection H as _ ->.
  now exists l1, a, l2.
Qed.

Lemma for_eachM_Ok_inv {A S} (body : S -> A -> M S) xs :
  forall acc l r,
    for_eachM body xs acc = (l, Ok r) ->
    forall x, In x xs -> exists acc' l' r', body acc' x = (l', Ok r').
Proof.
  induction xs as [|y xs IH]; simpl; intros acc l r H x Hx; [contradiction|].
  apply bind_Ok_inv in H. destruct H as (l1 & a & l2 & Hy & Hrest).
  destruct Hx as [<-|Hx]; [eauto | eapply IH; eauto].
Qed.

Section Dichotomy.
Variable dict_list : list NumpyBatch.
Variable first : NumpyBatch.




End Dichotomy.

(** *** The whole stacking function *)

Lemma lookup_entry d e :
  NoDup (batch_keys_of d) -> In e d -> lookup d (key_of e) = Ok (value_of e).
Proof.
  induction d as [|e' d IH]; intros Hnd Hin; [contradiction|].
  cbn [lookup]. inversion Hnd as [|? ? Hnotin Hnd']; subst.
  destruct Hin as [->|Hin]; [now rewrite key_eqb_refl|].
  destruct (key_eqb (key_of e') (key_of e)) eqn:E; [|now apply IH].
  apply key_eqb_eq in E. exfalso. apply Hnotin. rewrite E.
  now apply in_map.
Qed.

Lemma well_typed_field first k a :
  well_typed first -> In (Field k a) first -> key_eqb k BatchKey_nwp = false.
Proof.
  intros (_ & Hf & _) Hin. destruct (key_eqb k BatchKey_nwp) eqn:E; [|reflexivity].
  apply key_eqb_eq in E. subst. now apply Hf in Hin.
Qed.

Lemma well_typed_nested first m :
  well_typed first -> In (NwpEntry m) first ->
  nwp_mapping first = Ok m
  /\ exists source0 inner others, m = (source0, inner) :: others.
Proof.
  intros (Hnd & _ & Hm) Hin. split.
  - unfold nwp_mapping.
    change BatchKey_nwp with (key_of (NwpEntry m)).
    now rewrite (lookup_entry first (NwpEntry m) Hnd Hin).
  - specialize (Hm m Hin). destruct m as [|[source0 inner] others]; [congruence|].
    now exists source0, inner, others.
Qed.








(** ** Splitting: the batch size *)

Lemma nwp_mapping_lookup batch m :
  nwp_mapping batch = Ok m -> lookup batch BatchKey_nwp = Ok (Nested m).
Proof.
  unfold nwp_mapping. destruct (lookup batch BatchKey_nwp) as [[a|m']|e];
    cbn [rbind]; intros H; try discriminate. now injection H as ->.
Qed.

Lemma batch_size_primary batch k a n s :
  find Merge.non_constant (batch_keys_of batch) = Some k ->
  key_eqb k BatchKey_nwp = false ->
  lookup_array batch k = Ok a -> Np.shape a = n :: s ->
  Merge.batch_size_of batch = Ok n.
Proof.
  intros Hfind Hk Ha Hs. unfold Merge.batch_size_of.
  rewrite next_filter_find, Hfind. cbn [rbind]. rewrite Hk, Ha. cbn [rbind].
  unfold Np.shape0. now rewrite Hs.
Qed.

Lemma batch_size_nested batch nwp_source inner others k a n s :
  find Merge.non_constant (batch_keys_of batch) = Some BatchKey_nwp ->
  nwp_mapping batch = Ok ((nwp_source, inner) :: others) ->
  find Merge.non_constant (keys inner) = Some k ->
  getitem key_eqb inner k = Ok a -> Np.shape a = n :: s ->
  Merge.batch_size_of batch = Ok n.
Proof.
  intros Hfind Hm Hk Ha Hs. unfold Merge.batch_size_of.
  rewrite next_filter_find, Hfind. cbn [rbind]. rewrite key_eqb_refl, Hm.
  cbn [rbind keys map fst next getitem]. rewrite String.eqb_refl. cbn [rbind].
  rewrite next_filter_find, Hk. cbn [rbind].
  unfold nwp_lookup. rewrite (nwp_mapping_lookup _ _ Hm).
  cbn [rbind getitem]. rewrite String.eqb_refl. cbn [rbind]. rewrite Ha.
  cbn [rbind]. unfold Np.shape0. now rewrite Hs.
Qed.

Lemma unstack_returns_batch_size batch samples :
  Merge.unstack_np_batch_into_examples batch = Ok samples ->
  exists B,
    Merge.batch_size_of batch = Ok B
    /\ length samples = B
    /\ forall i, i < B ->
         Merge.unstack_sample batch (batch_keys_of batch) i = Ok (nth i samples []).
Proof.
  unfold Merge.unstack_np_batch_into_examples.
  destruct (Merge.batch_size_of batch) as [B|e]; cbn [rbind]; [|discriminate].
  intros H. exists B. split; [reflexivity|]. split.
  - apply comprehension_length in H. now rewrite length_seq in H.
  - intros i Hi.
    pose proof (comprehension_nth _ _ _ i 0 [] H) as Hn.
    rewrite length_seq, seq_nth in Hn by exact Hi. now apply Hn.
Qed.

Lemma unstack_all_constant batch :
  (forall k, In k (batch_keys_of batch) -> Merge._key_is_constant k = true) ->
  Merge.unstack_np_batch_into_examples batch = Raise StopIteration.
Proof.
  intros H. unfold Merge.unstack_np_batch_into_examples, Merge.batch_size_of.
  rewrite filter_all_false; [reflexivity|].
  intros k Hk. unfold Merge.non_constant. now rewrite (H k Hk).
Qed.

Lemma unstack_nested_all_constant batch nwp_source inner others :
  find Merge.non_constant (batch_keys_of batch) = Some BatchKey_nwp ->
  nwp_mapping batch = Ok ((nwp_source, inner) :: others) ->
  (forall k, In k (keys inner) -> Merge._key_is_constant k = true) ->
  Merge.unstack_np_batch_into_examples batch = Raise StopIteration.
Proof.
  intros Hfind Hm H.
  unfold Merge.unstack_np_batch_into_examples, Merge.batch_size_of.
  rewrite next_filter_find, Hfind. cbn [rbind]. rewrite key_eqb_refl, Hm.
  cbn [rbind keys map fst next getitem]. rewrite String.eqb_refl. cbn [rbind].
  rewrite filter_all_false; [reflexivity|].
  intros k Hk. unfold Merge.non_constant. now rewrite (H k Hk).
Qed.

Lemma unstack_nested_no_source batch :
  find Merge.non_constant (batch_keys_of batch) = Some BatchKey_nwp ->
  nwp_mapping batch = Ok [] ->
  Merge.unstack_np_batch_into_examples batch = Raise StopIteration.
Proof.
  intros Hfind Hm.
  unfold Merge.unstack_np_batch_into_examples, Merge.batch_size_of.
  rewrite next_filter_find, Hfind. cbn [rbind]. now rewrite key_eqb_refl, Hm.
Qed.

(** C3, as stated, does not hold: on a batch whose fields are all constant
    the split stops with [StopIteration], raised by [next], and not with
    [NoVariableFieldError]. *)
Lemma C3_all_constant_is_not_NoVariableFieldError :
  Merge.unstack_np_batch_into_examples Samples.all_constant = Raise StopIteration
  /\ Merge.unstack_np_batch_into_examples Samples.all_constant
     <> Raise NoVariableFieldError.
Proof. split; [reflexivity | discriminate]. Qed.

(** C3 (batch size), as the code behaves.  The batch size is the
    leading-axis length of the field under the first non-constant primary
    key in key order or, when that key is [BatchKey.nwp], of the field under
    the first non-constant secondary key of the first source; for a field of
    shape (4, 10) next to a constant field it is 4.  Whenever the split
    returns, it returns exactly that many examples, the [i]-th being the one
    built for index [i].  When every primary key is constant, or the nested
    mapping reached has no source or only constant secondary keys, the split
    stops with [StopIteration]. *)
Theorem C3_batch_size_inference :
  (forall batch k a n s,
      find Merge.non_constant (batch_keys_of batch) = Some k ->
      key_eqb k BatchKey_nwp = false ->
      lookup_array batch k = Ok a -> Np.shape a = n :: s ->
      Merge.batch_size_of batch = Ok n)
  /\ (forall batch nwp_source inner others k a n s,
        find Merge.non_constant (batch_keys_of batch) = Some BatchKey_nwp ->
        nwp_mapping batch = Ok ((nwp_source, inner) :: others) ->
        find Merge.non_constant (keys inner) = Some k ->
        getitem key_eqb inner k = Ok a -> Np.shape a = n :: s ->
        Merge.batch_size_of batch = Ok n)
  /\ Merge.batch_size_of Samples.batch_4_10 = Ok 4
  /\ (forall batch samples,
        Merge.unstack_np_batch_into_examples batch = Ok samples ->
        exists B,
          Merge.batch_size_of batch = Ok B
          /\ length samples = B
          /\ forall i, i < B ->
               Merge.unstack_sample batch (batch_keys_of batch) i
               = Ok (nth i samples []))
  /\ (forall batch,
        (forall k, In k (batch_keys_of batch) ->
                   Merge._key_is_constant k = true) ->
        Merge.unstack_np_batch_into_examples batch = Raise StopIteration)
  /\ (forall batch nwp_source inner others,
        find Merge.non_constant (batch_keys_of batch) = Some BatchKey_nwp ->
        nwp_mapping batch = Ok ((nwp_source, inner) :: others) ->
        (forall k, In k (keys inner) -> Merge._key_is_constant k = true) ->
        Merge.unstack_np_batch_into_examples batch = Raise StopIteration)
  /\ (forall batch,
        find Merge.non_constant (batch_keys_of batch) = Some BatchKey_nwp ->
        nwp_mapping batch = Ok [] ->
        Merge.unstack_np_batch_into_examples batch = Raise StopIteration).
Proof.
  split; [exact batch_size_primary|].
  split; [exact batch_size_nested|].
  split; [reflexivity|].
  split; [exact unstack_returns_batch_size|].
  split; [exact unstack_all_constant|].
  split; [exact unstack_nested_all_constant | exact unstack_nested_no_source].
Qed.

(** ** Splitting: which exceptions can come out *)

Lemma raises_only_Ok P {A} (a : A) : raises_only P (Ok a).
Proof. intros e H. discriminate. Qed.

Lemma raises_only_Raise (P : exn -> Prop) {A} e : P e -> raises_only P (@Raise A e).
Proof. intros H e' E. now injection E as <-. Qed.

Lemma raises_only_rbind P {A B} (c : result A) (f : A -> result B) :
  raises_only P c -> (forall a, c = Ok a -> raises_only P (f a)) ->
  raises_only P (rbind c f).
Proof.
  intros Hc Hf. destruct c as [a|e]; cbn [rbind]; [now apply Hf|].
  intros e' E. apply Hc. now injection E as ->.
Qed.


Lemma raises_only_comprehension P {A B} (f : A -> result B) xs :
  (forall x, In x xs -> raises_only P (f x)) ->
  raises_only P (comprehension f xs).
Proof.
  induction xs as [|x xs IH]; cbn [comprehension]; intros H.
  - apply raises_only_Ok.
  - apply raises_only_rbind; [apply H; now left|]. intros y _.
    apply raises_only_rbind; [apply IH; intros z Hz; apply H; now right|].
    intros ys _. apply raises_only_Ok.
Qed.



Lemma raises_only_lookup_array (P : exn -> Prop) d k :
  P KeyError -> raises_only P (lookup_array d k).
Proof.
  intros HP. induction d as [|[k' a|m] d IH]; cbn [lookup_array].
  - now apply raises_only_Raise.
  - destruct (key_eqb k' k); [apply raises_only_Ok | exact IH].
  - exact IH.
Qed.







(** ** Splitting a batch that holds one nested source *)



Lemma single_source_mapping nwp_source inner :
  nwp_mapping [NwpEntry [(nwp_source, inner)]] = Ok [(nwp_source, inner)].
Proof. reflexivity. Qed.

Lemma single_source_lookup nwp_source inner k :
  nwp_lookup [NwpEntry [(nwp_source, inner)]] nwp_source k
  = getitem key_eqb inner k.
Proof.
  unfold nwp_lookup. cbn [lookup key_of value_of]. rewrite key_eqb_refl.
  cbn [rbind getitem]. now rewrite String.eqb_refl.
Qed.

Lemma single_source_sample nwp_source inner i :
  Merge.unstack_sample [NwpEntry [(nwp_source, inner)]] [BatchKey_nwp] i
  = rbind (Merge.unstack_nwp_source [NwpEntry [(nwp_source, inner)]]
             (keys inner) i nwp_source)
      (fun nwp_source_batch => Ok [NwpEntry [(nwp_source, nwp_source_batch)]]).
Proof.
  unfold Merge.unstack_sample. cbn [for_each].
  rewrite key_eqb_refl, single_source_mapping.
  cbn [rbind keys map fst item0 getitem]. rewrite String.eqb_refl.
  cbn [rbind for_each].
  destruct (Merge.unstack_nwp_source [NwpEntry [(nwp_source, inner)]]
              (keys inner) i nwp_source); reflexivity.
Qed.




Lemma comprehension_fails_with {A B} (f : A -> result B) xs e0 x :
  (forall y, In y xs -> raises_only (fun e => e = e0) (f y)) ->
  In x xs -> (forall b, f x <> Ok b) ->
  comprehension f xs = Raise e0.
Proof.
  intros Hall Hx Hstuck.
  destruct (comprehension f xs) as [ys|e] eqn:E.
  - exfalso. apply comprehension_Forall2 in E.
    clear Hall. induction E as [|x' y' xs ys Hxy _ IH]; [contradiction|].
    destruct Hx as [->|Hx]; [now apply (Hstuck y') | now apply IH].
  - f_equal. exact (raises_only_comprehension _ f xs Hall e E).
Qed.




(** ** Forward time extension *)

(** *** One series *)

Lemma slices_of_vector pre ts :
  map (Np.slice [] (pre ++ ts)) (seq (length pre) (length ts))
  = map Np.scalar ts.
Proof.
  revert pre. induction ts as [|x ts IH]; intros pre; [reflexivity|].
  cbn [length seq map]. f_equal.
  - unfold Np.slice, Np.scalar. f_equal. cbn [Np.size fold_right].
    rewrite Nat.mul_1_r, skipn_app, Nat.sub_diag, skipn_all. reflexivity.
  - specialize (IH (pre ++ [x])).
    rewrite <- app_assoc, length_app in IH. cbn [app length] in IH.
    rewrite Nat.add_1_r in IH. exact IH.
Qed.

Lemma to_list_vector ts : Np.to_list (Np.vector ts) = Ok (map Np.scalar ts).
Proof.
  unfold Np.to_list, Np.vector. cbn [Np.shape Np.data]. f_equal.
  exact (slices_of_vector [] ts).
Qed.

Lemma item_from_end_scalars ts i x :
  nth_error (rev ts) i = Some x ->
  item_from_end (map Np.scalar ts) i = Ok (Np.scalar x).
Proof.
  intros H. unfold item_from_end.
  now rewrite <- map_rev, nth_error_map, H.
Qed.

Lemma append_future_scalars n ts last step :
  nth_error (rev ts) 0 = Some last ->
  Extend.append_future n (map Np.scalar ts) (Np.scalar step)
  = Ok (map Np.scalar (ts ++ future n last step)).
Proof.
  revert ts last. induction n as [|n IH]; intros ts last Hlast;
    cbn [Extend.append_future future].
  - now rewrite app_nil_r.
  - rewrite (item_from_end_scalars ts 0 last Hlast). cbn [rbind].
    change (Np.add (Np.scalar last) (Np.scalar step))
      with (Np.scalar (PrimFloat.add last step)).
    change [Np.scalar (PrimFloat.add last step)]
      with (map Np.scalar [PrimFloat.add last step]).
    rewrite <- map_app, (IH _ (PrimFloat.add last step)).
    + now rewrite <- app_assoc.
    + now rewrite rev_app_distr.
Qed.

Lemma concat_scalars xs : concat (map Np.data (map Np.scalar xs)) = xs.
Proof.
  induction xs as [|x xs IH]; [reflexivity|].
  cbn [map concat Np.scalar Np.data app]. f_equal. exact IH.
Qed.

Lemma stack_scalars xs :
  xs <> [] -> Np.stack (map Np.scalar xs) = Ok (Np.vector xs).
Proof.
  destruct xs as [|x xs]; [congruence|]. intros _.
  unfold Np.stack. cbn [map].
  assert (H : forallb (fun b => Np.shape_eqb (Np.shape b) (Np.shape (Np.scalar x)))
                (map Np.scalar xs) = true).
  { apply forallb_forall. intros b Hb. apply in_map_iff in Hb.
    destruct Hb as (y & <- & _). reflexivity. }
  rewrite H. unfold Np.vector. f_equal. f_equal.
  - cbn [length]. now rewrite length_map.
  - exact (concat_scalars (x :: xs)).
Qed.

(** A one-dimensional series of at least two timestamps is extended as the
    design document says. *)
Lemma extend_times_vector n ts :
  2 <= length ts ->
  Extend.extend_times n (Np.vector ts)
  = Ok (Np.vector (extended (Z.to_nat n) ts)).
Proof.
  intros Hlen. unfold Extend.extend_times, extended.
  rewrite to_list_vector. cbn [rbind].
  destruct (rev ts) as [|last [|before_last rest]] eqn:Hrev;
    try (apply (f_equal (@length _)) in Hrev; rewrite length_rev in Hrev;
         cbn [length] in Hrev; lia).
  rewrite (item_from_end_scalars ts 0 last) by now rewrite Hrev.
  rewrite (item_from_end_scalars ts 1 before_last) by now rewrite Hrev.
  cbn [rbind].
  change (Np.abs (Np.sub (Np.scalar last) (Np.scalar before_last)))
    with (Np.scalar (PrimFloat.abs (PrimFloat.sub last before_last))).
  rewrite (append_future_scalars _ ts last) by now rewrite Hrev.
  cbn [rbind]. unfold Np.asarray_float64.
  assert (Hne : ts ++ future (Z.to_nat n) last
                        (PrimFloat.abs (PrimFloat.sub last before_last)) <> []).
  { destruct ts; [cbn [length] in Hlen; lia | discriminate]. }
  rewrite stack_scalars by exact Hne.
  destruct (ts ++ _) eqn:E; [congruence | reflexivity].
Qed.

(** *** Dictionaries with distinct keys *)

Lemma setitem_fresh {V} (d : dict key V) k v :
  ~ In k (keys d) -> setitem key_eqb d k v = d ++ [(k, v)].
Proof.
  induction d as [|[k' v'] d IH]; cbn [keys map fst setitem app]; intros H;
    [reflexivity|].
  destruct (key_eqb k' k) eqn:E.
  - apply key_eqb_eq in E. exfalso. apply H. now left.
  - f_equal. apply IH. intros Hin. apply H. now right.
Qed.

Lemma getitem_middle {V} (d1 d2 : dict key V) k v :
  ~ In k (keys d1) -> getitem key_eqb (d1 ++ (k, v) :: d2) k = Ok v.
Proof.
  induction d1 as [|[k' v'] d1 IH]; cbn [keys map fst getitem app]; intros H.
  - now rewrite key_eqb_refl.
  - destruct (key_eqb k' k) eqn:E.
    + apply key_eqb_eq in E. exfalso. apply H. now left.
    + apply IH. intros Hin. apply H. now right.
Qed.

Lemma setitem_middle {V} (d1 d2 : dict key V) k v v' :
  ~ In k (keys d1) ->
  setitem key_eqb (d1 ++ (k, v) :: d2) k v' = d1 ++ (k, v') :: d2.
Proof.
  induction d1 as [|[k' w] d1 IH]; cbn [keys map fst setitem app]; intros H.
  - now rewrite key_eqb_refl.
  - destruct (key_eqb k' k) eqn:E.
    + apply key_eqb_eq in E. exfalso. apply H. now left.
    + f_equal. apply IH. intros Hin. apply H. now right.
Qed.

Lemma store_middle pre post k a a' :
  ~ In k (batch_keys_of pre) ->
  store (pre ++ Field k a :: post) (Field k a') = pre ++ Field k a' :: post.
Proof.
  induction pre as [|e pre IH]; cbn [batch_keys_of map store app key_of]; intros H.
  - now rewrite key_eqb_refl.
  - destruct (key_eqb (key_of e) k) eqn:E.
    + apply key_eqb_eq in E. exfalso. apply H. now left.
    + f_equal. apply IH. intros Hin. apply H. now right.
Qed.

Lemma keys_app {K V} (d1 d2 : dict K V) : keys (d1 ++ d2) = keys d1 ++ keys d2.
Proof. unfold keys. apply map_app. Qed.

Lemma time_fields_keys np_batch k :
  In k (keys (time_fields np_batch)) -> In k (batch_keys_of np_batch).
Proof.
  induction np_batch as [|[k' a|m] b IH]; cbn [time_fields flat_map];
    [intros [] | |].
  - fold (time_fields b). rewrite keys_app. intros H. apply in_app_or in H.
    cbn [batch_keys_of map key_of].
    destruct H as [H|H]; [|right; now apply IH].
    destruct (is_time_key k'); [|contradiction].
    destruct H as [<-|[]]. now left.
  - fold (time_fields b). cbn [app batch_keys_of map]. intros H.
    right. now apply IH.
Qed.

Lemma time_fields_NoDup np_batch :
  NoDup (batch_keys_of np_batch) -> NoDup (keys (time_fields np_batch)).
Proof.
  induction np_batch as [|[k a|m] b IH]; cbn [time_fields flat_map];
    [constructor | |]; fold (time_fields b);
    cbn [batch_keys_of map key_of]; intros H;
    inversion H as [|? ? Hnotin Hnd]; subst.
  - destruct (is_time_key k); cbn [app]; [|now apply IH].
    cbn [keys map fst]. constructor; [|now apply IH].
    intros Hin. apply Hnotin. now apply time_fields_keys.
  - cbn [app]. now apply IH.
Qed.

Lemma time_fields_In np_batch k a :
  In (k, a) (time_fields np_batch) ->
  In (Field k a) np_batch /\ is_time_key k = true.
Proof.
  unfold time_fields. intros H. apply in_flat_map in H.
  destruct H as ([k' a'|m] & He & H); [|contradiction].
  destruct (is_time_key k') eqn:E; [|contradiction].
  destruct H as [H|[]]. injection H as <- <-. now split.
Qed.

(** *** One batch *)

(** The comprehension collects the time axes in key order. *)
Lemma all_time_dims_of_time_fields np_batch :
  NoDup (batch_keys_of np_batch) ->
  Extend.all_time_dims_of np_batch = time_fields np_batch.
Proof.
  unfold Extend.all_time_dims_of. fold is_time_key.
  intros Hnd.
  enough (H : forall acc,
             (forall k, In k (keys acc) -> ~ In k (batch_keys_of np_batch)) ->
             fold_left
               (fun all_time_dims item =>
                  match item with
                  | Field k a =>
                      if endswith (name k) "time_utc"
                      then setitem key_eqb all_time_dims k a
                      else all_time_dims
                  | NwpEntry _ => all_time_dims
                  end) np_batch acc
             = acc ++ time_fields np_batch)
    by (apply (H []); intros k []).
  induction np_batch as [|[k a|m] b IH]; intros acc Hacc;
    cbn [fold_left time_fields flat_map]; [|fold (time_fields b) ..].
  - now rewrite app_nil_r.
  - cbn [batch_keys_of map key_of] in *.
    inversion Hnd as [|? ? Hnotin Hnd']; subst.
    unfold is_time_key. destruct (endswith (name k) "time_utc").
    + rewrite setitem_fresh
        by (intros Hin; apply (Hacc k Hin); now left).
      rewrite IH; [now rewrite <- app_assoc | exact Hnd' |].
      intros k' Hk'. rewrite keys_app in Hk'. apply in_app_or in Hk'.
      destruct Hk' as [Hk'|[<-|[]]]; [|exact Hnotin].
      intros Hin. apply (Hacc k' Hk'). now right.
    + cbn [app]. apply IH; [exact Hnd'|].
      intros k' Hk' Hin. apply (Hacc k' Hk'). now right.
  - cbn [batch_keys_of map key_of] in *.
    inversion Hnd as [|? ? Hnotin Hnd']; subst. cbn [app].
    apply IH; [exact Hnd'|].
    intros k' Hk' Hin. apply (Hacc k' Hk'). now right.
Qed.

(** The loop over the time axes replaces each series by its extension. *)
Lemma extend_all_time_dims n (todo : dict key Np.ndarray) :
  (forall k a, In (k, a) todo ->
     exists ts, a = Np.vector ts /\ 2 <= length ts) ->
  forall done,
    NoDup (keys (done ++ todo)) ->
    for_each
      (fun all_time_dims time_dim_key =>
         rbind (getitem key_eqb all_time_dims time_dim_key)
           (fun a =>
              rbind (Extend.extend_times n a)
                (fun times =>
                   Ok (setitem key_eqb all_time_dims time_dim_key times))))
      (keys todo) (done ++ todo)
    = Ok (done ++
            map (fun kv =>
                   (fst kv,
                    Np.vector (extended (Z.to_nat n) (Np.data (snd kv)))))
              todo).
Proof.
  induction todo as [|[k a] todo IH]; intros Hall done Hnd;
    cbn [keys map fst snd for_each]; [reflexivity|].
  fold (keys todo).
  assert (Hk : ~ In k (keys done)).
  { rewrite keys_app in Hnd. cbn [keys map fst] in Hnd.
    apply NoDup_remove_2 in Hnd. intros Hin. apply Hnd.
    apply in_or_app. now left. }
  rewrite getitem_middle by exact Hk. cbn [rbind].
  destruct (Hall k a (or_introl eq_refl)) as (ts & -> & Hlen).
  rewrite extend_times_vector by exact Hlen. cbn [rbind].
  rewrite setitem_middle by exact Hk.
  change (done ++ (k, Np.vector (extended (Z.to_nat n) ts)) :: todo)
    with (done ++ [(k, Np.vector (extended (Z.to_nat n) ts))] ++ todo).
  assert (Hall' : forall k' a', In (k', a') todo ->
                    exists ts', a' = Np.vector ts' /\ 2 <= length ts')
    by (intros k' a' H; apply (Hall k' a'); now right).
  rewrite app_assoc,
    (IH Hall' (done ++ [(k, Np.vector (extended (Z.to_nat n) ts))])).
  - rewrite <- app_assoc. reflexivity.
  - rewrite <- app_assoc. cbn [app].
    rewrite keys_app in *. exact Hnd.
Qed.

(** Writing the extended series back touches the time axes only and keeps
    every key in its place. *)
Lemma update_extended n post :
  forall pre,
    NoDup (batch_keys_of (pre ++ post)) ->
    Extend.update (pre ++ post)
      (map (fun kv =>
              (fst kv, Np.vector (extended n (Np.data (snd kv)))))
         (time_fields post))
    = pre ++ map (extend_entry n) post.
Proof.
  unfold Extend.update.
  induction post as [|[k a|m] post IH]; intros pre Hnd;
    cbn [time_fields flat_map map extend_entry]; [|fold (time_fields post) ..].
  - reflexivity.
  - assert (Hk : ~ In k (batch_keys_of pre)).
    { unfold batch_keys_of in *. rewrite map_app in Hnd.
      cbn [map key_of] in Hnd. apply NoDup_remove_2 in Hnd.
      intros Hin. apply Hnd. apply in_or_app. now left. }
    destruct (is_time_key k); cbn [app map fold_left fst snd].
    + rewrite store_middle by exact Hk.
      change (pre ++ Field k (Np.vector (extended n (Np.data a))) :: post)
        with (pre ++ [Field k (Np.vector (extended n (Np.data a)))] ++ post).
      rewrite app_assoc, IH; [now rewrite <- app_assoc|].
      rewrite <- app_assoc. cbn [app].
      unfold batch_keys_of in *. rewrite map_app in *. exact Hnd.
    + change (pre ++ Field k a :: post) with (pre ++ [Field k a] ++ post).
      rewrite app_assoc, IH; [now rewrite <- app_assoc|].
      now rewrite <- app_assoc.
  - cbn [app].
    change (pre ++ NwpEntry m :: post) with (pre ++ [NwpEntry m] ++ post).
    rewrite app_assoc, IH; [now rewrite <- app_assoc|].
    now rewrite <- app_assoc.
Qed.

Lemma extend_batch_one_dimensional n np_batch :
  NoDup (batch_keys_of np_batch) ->
  (forall k a, In (Field k a) np_batch -> is_time_key k = true ->
     exists ts, a = Np.vector ts /\ 2 <= length ts) ->
  Extend.extend_batch n np_batch
  = Ok (map (extend_entry (Z.to_nat n)) np_batch).
Proof.
  intros Hnd Hall. unfold Extend.extend_batch.
  rewrite all_time_dims_of_time_fields by exact Hnd.
  assert (Hseries : forall k a, In (k, a) (time_fields np_batch) ->
                      exists ts, a = Np.vector ts /\ 2 <= length ts).
  { intros k a H. apply time_fields_In in H. destruct H as [H1 H2].
    now apply (Hall k a). }
  pose proof (extend_all_time_dims n (time_fields np_batch) Hseries []
                (time_fields_NoDup np_batch Hnd)) as E.
  cbn [app] in E. rewrite E. cbn [rbind]. f_equal.
  exact (update_extended _ np_batch [] Hnd).
Qed.

(** *** The iterator *)

Lemma extend_loop_one_dimensional n source_dp :
  (forall np_batch, In np_batch source_dp ->
     NoDup (batch_keys_of np_batch)
     /\ forall k a, In (Field k a) np_batch -> is_time_key k = true ->
          exists ts, a = Np.vector ts /\ 2 <= length ts) ->
  Extend.extend_loop n source_dp
  = Gen.mk_run [] (map (map (extend_entry (Z.to_nat n))) source_dp) None.
Proof.
  induction source_dp as [|np_batch rest IH]; intros H;
    cbn [Extend.extend_loop map]; [reflexivity|].
  destruct (H np_batch (or_introl eq_refl)) as [Hnd Hseries].
  rewrite (extend_batch_one_dimensional n np_batch Hnd Hseries).
  rewrite IH by (intros b Hb; apply H; now right). reflexivity.
Qed.

(** *** Objects and references *)

Lemma deref_assign_other objects r r' np_batch :
  r <> r' -> Extend.deref (Extend.assign objects r np_batch) r' = Extend.deref objects r'.
Proof.
  unfold Extend.deref. revert r r'.
  induction objects as [|b objects IH]; intros r r' Hr; [now destruct r|].
  destruct r as [|r]; destruct r' as [|r']; cbn [Extend.assign nth];
    try reflexivity; [contradiction|].
  apply IH. congruence.
Qed.

Lemma assign_deref objects r :
  Extend.assign objects r (Extend.deref objects r) = objects.
Proof.
  unfold Extend.deref. revert r.
  induction objects as [|b objects IH]; intros r; [reflexivity|].
  destruct r as [|r]; cbn [Extend.assign nth]; [reflexivity|].
  now rewrite IH.
Qed.

(** Over references that are all different the store plays no part: the
    generator yields what the loop over the values yields. *)
Lemma iterate_separate n source_dp :
  NoDup source_dp ->
  forall objects,
    fst (Extend.iterate n source_dp objects)
    = Extend.extend_loop n (map (Extend.deref objects) source_dp).
Proof.
  induction 1 as [|r rest Hr Hnd IH]; intros objects;
    cbn [Extend.iterate Extend.extend_loop map]; [reflexivity|].
  destruct (Extend.extend_batch n (Extend.deref objects r)) as [b|e];
    cbn [fst]; [|reflexivity].
  rewrite IH. do 2 f_equal. apply map_ext_in. intros r' Hr'.
  apply deref_assign_other. intros ->. contradiction.
Qed.

(** *** The number of future steps *)

Lemma round_half_even_bounds n d :
  (0 <= n)%Z -> (0 < d)%Z ->
  (n / d <= round_half_even n d <= n / d + 1)%Z
  /\ (round_half_even n d = (n / d + 1)%Z -> (d <= 2 * (n mod d))%Z).
Proof.
  intros Hn Hd. unfold round_half_even.
  destruct (Z.ltb_spec (2 * (n mod d)) d); [lia|].
  destruct (Z.ltb_spec d (2 * (n mod d))); [lia|].
  destruct (Z.even (n / d)); lia.
Qed.

Section TrueDivision.
Open Scope Z_scope.

Lemma scaled_first_exponent x y :
  0 < x -> 0 < y ->
  let e0 := Z.log2 x - Z.log2 y - 53 in
  0 < snd (scaled x y e0) /\ 2 ^ 52 * snd (scaled x y e0) <= fst (scaled x y e0).
Proof.
  intros Hx Hy e0. unfold scaled.
  pose proof (Z.log2_spec x Hx) as [Hx1 Hx2].
  pose proof (Z.log2_spec y Hy) as [Hy1 Hy2].
  pose proof (Z.log2_nonneg x) as Hlx. pose proof (Z.log2_nonneg y) as Hly.
  set (lx := Z.log2 x) in *. set (ly := Z.log2 y) in *.
  assert (H52 : 0 < 2 ^ 52) by (apply Z.pow_pos_nonneg; lia).
  destruct (Z.leb_spec 0 e0) as [He|He]; cbn [fst snd].
  - assert (Hp : 0 < 2 ^ e0) by (apply Z.pow_pos_nonneg; lia).
    split; [nia|].
    assert (E : 2 ^ lx = 2 ^ 52 * 2 ^ Z.succ ly * 2 ^ e0).
    { rewrite <- !Z.pow_add_r by lia. f_equal. lia. }
    assert (2 ^ 52 * (y * 2 ^ e0) <= 2 ^ 52 * 2 ^ Z.succ ly * 2 ^ e0); [|lia].
    rewrite <- Z.mul_assoc. apply Z.mul_le_mono_nonneg_l; [lia|].
    apply Z.mul_le_mono_nonneg_r; lia.
  - split; [lia|].
    assert (Hp : 0 < 2 ^ (- e0)) by (apply Z.pow_pos_nonneg; lia).
    assert (E : 2 ^ lx * 2 ^ (- e0) = 2 ^ 52 * 2 ^ Z.succ ly).
    { rewrite <- !Z.pow_add_r by lia. f_equal. lia. }
    assert (2 ^ 52 * y <= 2 ^ 52 * 2 ^ Z.succ ly)
      by (apply Z.mul_le_mono_nonneg_l; lia).
    assert (2 ^ lx * 2 ^ (- e0) <= x * 2 ^ (- e0))
      by (apply Z.mul_le_mono_nonneg_r; lia).
    lia.
Qed.

Lemma scaled_exponent x y :
  0 < x -> 0 < y ->
  let e0 := Z.log2 x - Z.log2 y - 53 in
  let e1 := if 2 ^ 53 <=? fst (scaled x y e0) / snd (scaled x y e0)
            then e0 + 1 else e0 in
  0 < snd (scaled x y e1) /\ 2 ^ 52 * snd (scaled x y e1) <= fst (scaled x y e1).
Proof.
  intros Hx Hy e0 e1.
  destruct (scaled_first_exponent x y Hx Hy) as [Hd Hn]. fold e0 in Hd, Hn.
  subst e1.
  destruct (Z.leb_spec (2 ^ 53) (fst (scaled x y e0) / snd (scaled x y e0)))
    as [Hbig|_]; [|now split].
  assert (Hbig' : 2 ^ 53 * snd (scaled x y e0) <= fst (scaled x y e0)).
  { pose proof (Z.mul_div_le (fst (scaled x y e0)) (snd (scaled x y e0)) Hd).
    nia. }
  clear Hbig Hn. revert Hd Hbig'. unfold scaled.
  change (2 ^ 53) with (2 * 2 ^ 52).
  assert (H52 : 0 < 2 ^ 52) by (apply Z.pow_pos_nonneg; lia).
  destruct (Z.leb_spec 0 e0) as [He|He]; cbn [fst snd].
  - destruct (Z.leb_spec 0 (e0 + 1)); [|lia]. cbn [fst snd].
    rewrite Z.pow_add_r by lia. change (2 ^ 1) with 2. intros. split; nia.
  - destruct (Z.leb_spec 0 (e0 + 1)) as [He'|He']; cbn [fst snd].
    + assert (e0 = -1) by lia. subst e0.
      replace (Z.log2 x - Z.log2 y - 53) with (-1) by lia.
      change (- -1) with 1. change (-1 + 1) with 0.
      change (2 ^ 1) with 2. change (2 ^ 0) with 1.
      intros. split; lia.
    + replace (- e0) with ((- (e0 + 1)) + 1) by lia.
      rewrite Z.pow_add_r by lia. change (2 ^ 1) with 2.
      assert (0 < 2 ^ (- (e0 + 1))) by (apply Z.pow_pos_nonneg; lia).
      intros. split; nia.
Qed.

(** Below 2 ^ 53 the rounding of the quotient never reaches the next
    integer. *)
Lemma int_of_rounded x y e :
  0 < x < 2 ^ 53 -> 0 < y ->
  2 ^ 52 * snd (scaled x y e) <= fst (scaled x y e) ->
  e <= 0
  /\ int_of_float
       (mk_float (round_half_even (fst (scaled x y e)) (snd (scaled x y e))) e)
     = x / y.
Proof.
  intros Hx Hy. unfold scaled, int_of_float. cbn [significand exponent].
  assert (H52 : 0 < 2 ^ 52) by (apply Z.pow_pos_nonneg; lia).
  change (2 ^ 53) with (2 * 2 ^ 52) in Hx.
  destruct (Z.leb_spec 0 e) as [He|He]; cbn [fst snd]; intros Hn.
  - assert (Hp : 0 < 2 ^ e) by (apply Z.pow_pos_nonneg; lia).
    assert (Hy1 : y * 2 ^ e = 1) by nia.
    assert (y = 1) by nia. subst y.
    assert (He0 : 2 ^ e = 1) by lia.
    assert (e = 0).
    { destruct (Z.eq_dec e 0); [assumption|].
      assert (2 ^ 1 <= 2 ^ e) by (apply Z.pow_le_mono_r; lia).
      change (2 ^ 1) with 2 in *. lia. }
    subst e. split; [lia|]. cbn. unfold round_half_even.
    rewrite Z.mod_1_r, !Z.div_1_r. cbn. lia.
  - split; [lia|].
    set (K := 2 ^ (- e)) in *.
    assert (HK : 2 <= K).
    { subst K. change 2 with (2 ^ 1). apply Z.pow_le_mono_r; lia. }
    assert (HyK : y < 2 * K) by nia.
    destruct (round_half_even_bounds (x * K) y) as [[Hlo Hhi] Hup]; [nia|lia|].
    set (m := round_half_even (x * K) y) in *.
    assert (Hm0 : 0 <= m).
    { assert (0 <= x * K / y) by (apply Z.div_pos; nia). lia. }
    rewrite Z.quot_div_nonneg by lia.
    set (t := x / y).
    pose proof (Z.div_mod x y ltac:(lia)) as Hxy. fold t in Hxy.
    pose proof (Z.mod_pos_bound x y Hy) as Hr.
    pose proof (Z.div_mod (x * K) y ltac:(lia)) as HxK.
    pose proof (Z.mod_pos_bound (x * K) y Hy) as Hr'.
    assert (Ht0 : 0 <= t) by (apply Z.div_pos; lia).
    set (q := x * K / y) in *. set (r' := (x * K) mod y) in *.
    set (r := x mod y) in *.
    symmetry. apply Z.div_unique with (r := m - t * K); [|lia].
    left. split.
    + assert (t * K <= q); [|lia].
      apply Z.div_le_lower_bound; [lia|]. nia.
    + assert (Hq : q < (t + 1) * K).
      { apply Z.div_lt_upper_bound; [lia|]. nia. }
      destruct (Z.eq_dec m (q + 1)) as [Hm|Hm]; [|lia].
      specialize (Hup Hm).
      destruct (Z.eq_dec (q + 1) ((t + 1) * K)) as [Hq1|Hq1]; [|lia].
      exfalso.
      assert (K * ((t + 1) * y - x) = y - r') by nia.
      assert (1 <= (t + 1) * y - x) by nia.
      nia.
Qed.

(** For two counts below 2 ^ 53 in magnitude, [int(a / b)] is the exact
    quotient with its fractional part dropped. *)
Lemma int_of_truediv a b :
  b <> 0 -> Z.abs a < 2 ^ 53 -> Z.abs b < 2 ^ 53 ->
  exists f, truediv a b = Ok f /\ int_of_float f = Z.quot a b.
Proof.
  intros Hb Ha Hb'. unfold truediv.
  destruct (Z.eqb_spec b 0) as [?|_]; [contradiction|].
  destruct (Z.eqb_spec a 0) as [->|Ha0].
  - eexists. split; [reflexivity|]. now rewrite Z.quot_0_l.
  - set (x := Z.abs a) in *. set (y := Z.abs b) in *.
    assert (Hx : 0 < x) by (subst x; lia).
    assert (Hy : 0 < y) by (subst y; lia).
    pose proof (scaled_exponent x y Hx Hy) as Hs. cbn zeta in Hs.
    unfold binary64_exponent.
    set (e1 := if 2 ^ 53 <=? _ then _ else _) in *.
    assert (He1 : -1074 <= e1).
    { pose proof (Z.log2_nonneg x).
      assert (Z.log2 y < 53) by (apply Z.log2_lt_pow2; lia).
      subst e1. destruct (2 ^ 53 <=? _); lia. }
    rewrite Z.max_l by lia.
    destruct Hs as [Hd Hn].
    destruct (int_of_rounded x y e1 (conj Hx Ha) Hy Hn) as [He Hint].
    set (m := round_half_even _ _) in *.
    destruct (Z.leb_spec 972 e1); [lia|].
    destruct (Z.eqb_spec e1 971); [lia|]. cbn [orb andb].
    eexists. split; [reflexivity|].
    rewrite (Z.quot_div a b Hb). fold x y. rewrite <- Hint.
    unfold int_of_float. cbn [significand exponent].
    destruct (Z.leb_spec 0 e1); [ring|].
    assert (0 < 2 ^ (- e1)) by (apply Z.pow_pos_nonneg; lia).
    assert (Hs : Z.sgn a * Z.sgn b = 1 \/ Z.sgn a * Z.sgn b = -1).
    { destruct (Z.sgn_spec a) as [[? ->]|[[? ->]|[? ->]]];
        destruct (Z.sgn_spec b) as [[? ->]|[[? ->]|[? ->]]]; lia. }
    destruct Hs as [->| ->].
    + now rewrite !Z.mul_1_l.
    + rewrite !(Z.mul_comm (-1)), <- !Z.opp_eq_mul_m1.
      apply Z.quot_opp_l. lia.
Qed.

End TrueDivision.

Lemma init_small_durations source_dp horizon step :
  step <> 0%Z -> (Z.abs horizon < 2 ^ 53)%Z -> (Z.abs step < 2 ^ 53)%Z ->
  Extend.__init__ source_dp horizon step
  = Ok {| Extend.source_dp := source_dp;
          Extend.forecast_duration := horizon;
          Extend.sample_period_duration := step;
          Extend.num_future_timesteps := Z.quot horizon step |}.
Proof.
  intros Hs Hh Hs'. unfold Extend.__init__.
  destruct (int_of_truediv horizon step Hs Hh Hs') as (f & -> & <-).
  reflexivity.
Qed.

(** C5 (forward time extension).  The claim, like the design document's
    contract, takes the time axis of a batch to be a series or a series
    behind a leading batch axis, and the end-to-end test extends the merged
    batches and expects 13 + 24 = 37 timestamps.  The code extends whatever
    axis comes first.  On the test's own pipeline, four examples of thirteen
    timestamps merged into a field of shape (4, 13) and extended by two
    hours at five minutes (24 steps), it returns a field of shape (28, 13):
    24 more rows, each the row before it plus the difference of the last two
    examples, the four series themselves unchanged; the field of shape
    (4, 37) that the claim describes is not produced.  A batch of one
    example, shape (1, 3), stops the iteration with [IndexError], and one of
    two examples, shape (2, 3), gains a third row.  The number of steps is
    the horizon divided by the step and rounded down, for durations below
    2 ^ 53 microseconds.  On a stream of separate batches whose time axes
    are plain series of at least two timestamps the code does what the
    claim says: every such series is replaced by its extension, everything
    else stays, and 0, 300, 600 with a horizon of 900 and a step of 300
    becomes 0, 300, 600, 900, 1200, 1500.  A batch object that comes twice
    in the stream is extended twice, since the batch is updated in place. *)
Theorem C5_extension_after_batching_adds_rows :
  Merge.__iter__
    {| Merge.source_datapipe := Samples.satellite_examples;
       Merge.n_examples_per_batch := 4 |}
  = Gen.mk_run [DEBUG "Merging numpy batch"] [Samples.satellite_batch] None
  /\ Extend.__init__ [0] Samples.two_hours Samples.five_minutes
     = Ok {| Extend.source_dp := [0];
             Extend.forecast_duration := Samples.two_hours;
             Extend.sample_period_duration := Samples.five_minutes;
             Extend.num_future_timesteps := 24 |}
  /\ Extend.iterate 24 [0] [Samples.satellite_batch]
     = (Gen.mk_run [] [Samples.satellite_batch_rows] None,
        [Samples.satellite_batch_rows])
  /\ Samples.satellite_batch_rows <> Samples.satellite_batch_expected
  /\ (forall i, i < 4 ->
        rbind (lookup_array Samples.satellite_batch_rows
                 Samples.hrvsatellite_time_utc) (fun a => Np.index a i)
        = rbind (lookup_array Samples.satellite_batch
                   Samples.hrvsatellite_time_utc) (fun a => Np.index a i))
  /\ Extend.iterate 3 [0] [Samples.batch_of_one]
     = (Gen.mk_run [] [] (Some IndexError), [Samples.batch_of_one])
  /\ Extend.extend_batch 1 Samples.batch_of_two
     = Ok Samples.batch_of_two_extended
  /\ (forall (source_dp : list nat) (horizon step : Z),
        (0 <= horizon < 2 ^ 53)%Z -> (0 < step < 2 ^ 53)%Z ->
        Extend.__init__ source_dp horizon step
        = Ok {| Extend.source_dp := source_dp;
                Extend.forecast_duration := horizon;
                Extend.sample_period_duration := step;
                Extend.num_future_timesteps := (horizon / step)%Z |})
  /\ (forall (n : Z) (source_dp : list nat) (objects : list NumpyBatch),
        NoDup source_dp ->
        (forall r, In r source_dp ->
           NoDup (batch_keys_of (Extend.deref objects r))
           /\ forall k a, In (Field k a) (Extend.deref objects r) ->
                is_time_key k = true ->
                exists ts, a = Np.vector ts /\ 2 <= length ts) ->
        fst (Extend.iterate n source_dp objects)
        = Gen.mk_run []
            (map (fun r => map (extend_entry (Z.to_nat n)) (Extend.deref objects r))
               source_dp)
            None)
  /\ (exists self,
        Extend.__init__ [0] 900000000 300000000 = Ok self
        /\ Extend.__iter__ self [Samples.series_example]
           = (Gen.mk_run [] [Samples.series_extended] None,
              [Samples.series_extended]))
  /\ Extend.iterate 3 [0; 0] [Samples.series_example]
     = (Gen.mk_run [] [Samples.series_extended; Samples.series_extended_twice]
          None,
        [Samples.series_extended_twice]).
Proof.
  split; [vm_compute; reflexivity|].
  split; [vm_compute; reflexivity|].
  split; [vm_compute; reflexivity|].
  split; [intros H; discriminate H|].
  split.
  { intros i Hi.
    destruct i as [|[|[|[|i]]]]; [vm_compute; reflexivity ..|lia]. }
  split; [vm_compute; reflexivity|].
  split; [vm_compute; reflexivity|].
  split.
  { intros source_dp horizon step Hh Hs.
    rewrite init_small_durations by lia.
    now rewrite Z.quot_div_nonneg by lia. }
  split.
  { intros n source_dp objects Hnd Hall.
    rewrite iterate_separate by exact Hnd.
    rewrite extend_loop_one_dimensional.
    - now rewrite map_map.
    - intros np_batch Hin. apply in_map_iff in Hin.
      destruct Hin as (r & <- & Hr). now apply Hall. }
  split; [|vm_compute; reflexivity].
  eexists. split; vm_compute; reflexivity.
Qed.

(** * Further properties *)

(** ** [ZipperIterDataPipe] *)

Lemma fold_min_absorb l a b :
  fold_left Nat.min l (Nat.min a b) = Nat.min a (fold_left Nat.min l b).
Proof.
  revert a b. induction l as [|x l IH]; intros a b; cbn [fold_left];
    [reflexivity|].
  rewrite <- Nat.min_assoc. apply IH.
Qed.

Lemma zip_length {A} (iterators : list (list A)) :
  length (UtilsMore.zip iterators) = shortest iterators.
Proof.
  induction iterators as [|it rest IH]; [reflexivity|].
  destruct rest as [|r rs].
  - cbn. apply length_map.
  - change (UtilsMore.zip (it :: r :: rs))
      with (map (fun p => fst p :: snd p)
              (combine it (UtilsMore.zip (r :: rs)))).
    rewrite length_map, length_combine, IH.
    unfold shortest. cbn [map fold_left]. symmetry. apply fold_min_absorb.
Qed.

Lemma zip_nth {A} (iterators : list (list A)) i tuple :
  nth_error (UtilsMore.zip iterators) i = Some tuple ->
  Forall2 (fun it x => nth_error it i = Some x) iterators tuple.
Proof.
  revert tuple. induction iterators as [|it rest IH]; intros tuple H.
  - destruct i; discriminate.
  - destruct rest as [|r rs].
    + cbn in H. rewrite nth_error_map in H.
      destruct (nth_error it i) as [x|] eqn:E; [|discriminate].
      injection H as <-. repeat constructor. exact E.
    + change (UtilsMore.zip (it :: r :: rs))
        with (map (fun p => fst p :: snd p)
                (combine it (UtilsMore.zip (r :: rs)))) in H.
      rewrite nth_error_map in H.
      destruct (nth_error (combine it (UtilsMore.zip (r :: rs))) i)
        as [[x t]|] eqn:E; [|discriminate].
      injection H as <-. cbn [fst snd].
      assert (Hx : nth_error it i = Some x /\
                   nth_error (UtilsMore.zip (r :: rs)) i = Some t).
      { clear IH. revert i E. generalize (UtilsMore.zip (r :: rs)) as ts.
        induction it as [|y it IHit]; intros ts i E; [destruct i; discriminate|].
        destruct ts as [|t' ts]; [destruct i; discriminate|].
        destruct i as [|i]; cbn in E |- *; [now injection E as -> ->|].
        now apply IHit. }
      destruct Hx as [Hx Ht]. constructor; [exact Hx | now apply IH].
Qed.

(** X1.  Iterating the zipper yields as many tuples as its shortest
    datapipe has items and no more, the [i]-th tuple holding the [i]-th item
    of every datapipe in argument order; with no datapipe at all it yields
    nothing.  It logs nothing and ends normally. *)
Theorem zipper_iter_stops_at_shortest :
  forall (A : Type) (self : UtilsMore.ZipperIterDataPipe A),
    let iterators := map (@UtilsMore.items A) (UtilsMore.datapipes self) in
    length (Gen.yielded (UtilsMore.__iter__ self)) = shortest iterators
    /\ (forall i tuple,
          nth_error (Gen.yielded (UtilsMore.__iter__ self)) i = Some tuple ->
          Forall2 (fun it x => nth_error it i = Some x) iterators tuple)
    /\ (forall it, In it iterators ->
          length (Gen.yielded (UtilsMore.__iter__ self)) <= length it)
    /\ Gen.raised (UtilsMore.__iter__ self) = None
    /\ Gen.log (UtilsMore.__iter__ self) = [].
Proof.
  intros A self iterators. cbn [UtilsMore.__iter__ Gen.yielded Gen.raised Gen.log].
  fold iterators. split; [apply zip_length|].
  split; [intros i tuple; apply zip_nth|].
  split; [|split; reflexivity].
  intros it Hin. rewrite zip_length. clearbody iterators. clear self.
  destruct iterators as [|l rest]; [contradiction|]. unfold shortest.
  revert l Hin. induction rest as [|r rest IH]; intros l Hin; cbn [map fold_left].
  - destruct Hin as [->|[]]. apply le_n.
  - destruct Hin as [->|[->|Hin]].
    + rewrite fold_min_absorb. apply Nat.le_min_l.
    + rewrite Nat.min_comm, fold_min_absorb. apply Nat.le_min_l.
    + rewrite Nat.min_comm, fold_min_absorb.
      etransitivity; [apply Nat.le_min_r|]. apply IH. now right.
Qed.

Lemma min_len_shortest {A} (dps : list (UtilsMore.datapipe A)) :
  dps <> [] ->
  UtilsMore.min_len dps
  = Ok (Z.of_nat (shortest (map (@UtilsMore.items A) dps))).
Proof.
  destruct dps as [|dp rest]; [congruence|]. intros _.
  unfold UtilsMore.min_len, shortest. cbn [map]. f_equal.
  generalize (length (UtilsMore.items dp)) as n.
  induction rest as [|d rest IH]; intros n; cbn [map fold_left]; [reflexivity|].
  rewrite <- Nat2Z.inj_min. apply IH.
Qed.

(** X2.  For a zipper built from at least one datapipe, all of them sized,
    [len] answers the number of tuples that iteration yields; the answer is
    stored, so a second call gives it again and changes nothing, and the
    datapipes are not touched. *)
Theorem zipper_len_is_number_of_tuples :
  forall (A : Type) (args : list (UtilsMore.argument A)) self,
    UtilsMore.__init__ args = Ok self ->
    UtilsMore.datapipes self <> [] ->
    forallb (@UtilsMore.sized A) (UtilsMore.datapipes self) = true ->
    let n := Z.of_nat (length (Gen.yielded (UtilsMore.__iter__ self))) in
    let self' := snd (UtilsMore.__len__ self) in
    fst (UtilsMore.__len__ self) = Ok n
    /\ UtilsMore.__len__ self' = (Ok n, self')
    /\ UtilsMore.datapipes self' = UtilsMore.datapipes self.
Proof.
  intros A args self Hinit Hne Hsized n self'.
  assert (Hlen : UtilsMore.length self = None).
  { unfold UtilsMore.__init__ in Hinit.
    destruct (UtilsMore.as_datapipes args); [|discriminate].
    now injection Hinit as <-. }
  assert (Hn : n = Z.of_nat
                     (shortest (map (@UtilsMore.items A) (UtilsMore.datapipes self)))).
  { unfold n. cbn [UtilsMore.__iter__ Gen.yielded]. now rewrite zip_length. }
  assert (Hcached : UtilsMore.cached_len n = Ok n).
  { unfold UtilsMore.cached_len. destruct (Z.eqb_spec n (-1)); [lia|reflexivity]. }
  assert (Hfirst : UtilsMore.__len__ self
                   = (Ok n, UtilsMore.mk_zipper (UtilsMore.datapipes self) (Some n))).
  { unfold UtilsMore.__len__.
    now rewrite Hlen, Hsized, (min_len_shortest _ Hne), <- Hn, Hcached. }
  subst self'. rewrite Hfirst. cbn [fst snd UtilsMore.datapipes].
  split; [reflexivity|]. split; [|reflexivity].
  unfold UtilsMore.__len__. cbn [UtilsMore.length]. now rewrite Hcached.
Qed.

Lemma zipper_len_is_number_of_tuples_witness :
  fst (UtilsMore.__len__
         (UtilsMore.mk_zipper
            [UtilsMore.mk_datapipe [1; 2; 3] true;
             UtilsMore.mk_datapipe [4; 5] true] None))
  = Ok 2%Z.
Proof.
  exact (proj1 (zipper_len_is_number_of_tuples nat
                  [UtilsMore.IterDataPipe [1; 2; 3] true;
                   UtilsMore.IterDataPipe [4; 5] true]
                  _ eq_refl ltac:(discriminate) eq_refl)).
Defined.

Lemma as_datapipes_Some {A} (args : list (UtilsMore.argument A)) dps :
  UtilsMore.as_datapipes args = Some dps ->
  ~ In UtilsMore.NotADataPipe args
  /\ args = map (fun d => UtilsMore.IterDataPipe (UtilsMore.items d)
                            (UtilsMore.sized d)) dps.
Proof.
  revert dps. induction args as [|[its sz|] args IH]; intros dps H;
    cbn [UtilsMore.as_datapipes] in H.
  - injection H as <-. split; [intros []|reflexivity].
  - destruct (UtilsMore.as_datapipes args) as [dps'|]; [|discriminate].
    injection H as <-. destruct (IH dps' eq_refl) as [Hn Hargs]. split.
    + intros [H|H]; [discriminate | now apply Hn].
    + cbn [map UtilsMore.items UtilsMore.sized]. now rewrite <- Hargs.
  - discriminate.
Qed.

Lemma as_datapipes_None {A} (args : list (UtilsMore.argument A)) :
  UtilsMore.as_datapipes args = None -> In UtilsMore.NotADataPipe args.
Proof.
  induction args as [|[its sz|] args IH]; cbn [UtilsMore.as_datapipes]; intros H.
  - discriminate.
  - destruct (UtilsMore.as_datapipes args); [discriminate|]. right. now apply IH.
  - now left.
Qed.

(** X3.  Construction of the zipper fails, with [TypeError], exactly when
    some argument is not a datapipe; otherwise the zipper holds the
    arguments in their order and no stored length.  Built from nothing, it
    yields nothing when iterated while [len] raises [ValueError] and stores
    nothing.  When some datapipe is not sized, [len] raises [TypeError],
    on the first call and on every later one. *)
Theorem zipper_construction_and_len_failures :
  forall (A : Type) (args : list (UtilsMore.argument A)),
    (UtilsMore.__init__ args = Raise TypeError
     <-> In UtilsMore.NotADataPipe args)
    /\ (forall self,
          UtilsMore.__init__ args = Ok self ->
          UtilsMore.length self = None
          /\ args = map (fun d => UtilsMore.IterDataPipe (UtilsMore.items d)
                                    (UtilsMore.sized d))
                      (UtilsMore.datapipes self))
    /\ (forall self,
          UtilsMore.__init__ args = Ok self -> args = [] ->
          Gen.yielded (UtilsMore.__iter__ self) = []
          /\ UtilsMore.__len__ self = (Raise ValueError, self))
    /\ (forall self,
          UtilsMore.__init__ args = Ok self ->
          forallb (@UtilsMore.sized A) (UtilsMore.datapipes self) = false ->
          let self' := snd (UtilsMore.__len__ self) in
          fst (UtilsMore.__len__ self) = Raise TypeError
          /\ UtilsMore.__len__ self' = (Raise TypeError, self')).
Proof.
  intros A args. unfold UtilsMore.__init__.
  destruct (UtilsMore.as_datapipes args) as [dps|] eqn:E.
  - destruct (as_datapipes_Some args dps E) as [Hn Hargs].
    split; [split; [discriminate | intros H; now apply Hn in H]|].
    split; [intros self H; injection H as <-; now split|].
    split.
    + intros self H ->. injection H as <-.
      cbn [map] in Hargs. destruct dps; [|discriminate]. now split.
    + intros self H Hs. injection H as <-.
      cbn [UtilsMore.datapipes] in Hs.
      unfold UtilsMore.__len__. cbn [UtilsMore.length UtilsMore.datapipes].
      rewrite Hs. cbn. now split.
  - split; [split; [intros _; now apply as_datapipes_None | reflexivity]|].
    repeat split; intros; discriminate.
Qed.

(** ** [is_sorted] *)

Lemma adjacent_pairs_ascending xs :
  forallb (fun p => PrimFloat.leb (fst p) (snd p))
    (combine (firstn (length xs - 1) xs) (skipn 1 xs)) = true
  <-> ascending xs.
Proof.
  unfold ascending. induction xs as [|x l IH].
  - cbn. split; [intros _ i H; inversion H | reflexivity].
  - destruct l as [|y l'].
    + cbn. split; [intros _ i H; cbn in H; lia | reflexivity].
    + replace (length (x :: y :: l') - 1) with (S (length (y :: l') - 1))
        by (cbn [length]; lia).
      cbn [firstn skipn combine forallb fst snd].
      change (skipn 1 (y :: l')) with l' in IH.
      rewrite andb_true_iff, IH. split.
      * intros [Hxy Hrest] [|i] Hi; [exact Hxy|].
        apply (Hrest i). cbn [length] in *. lia.
      * intros H. split; [apply (H 0); cbn [length]; lia|].
        intros i Hi. apply (H (S i)). cbn [length] in *. lia.
Qed.

(** X4.  [is_sorted] answers [False] for an empty series, raises
    [TypeError] for a 0-d array, and for a one-dimensional series with at
    least one entry answers [True] exactly when every entry is at most its
    successor; a series of one entry is therefore sorted. *)
Theorem is_sorted_of_series :
  UtilsMore.is_sorted (Np.vector []) = Ok false
  /\ (forall x, UtilsMore.is_sorted (Np.scalar x) = Raise TypeError)
  /\ (forall x, UtilsMore.is_sorted (Np.vector [x]) = Ok true)
  /\ (forall xs, xs <> [] ->
        exists b, UtilsMore.is_sorted (Np.vector xs) = Ok b
                  /\ (b = true <-> ascending xs)).
Proof.
  split; [reflexivity|]. split; [reflexivity|]. split; [reflexivity|].
  intros xs Hne. unfold UtilsMore.is_sorted, Np.vector.
  cbn [Np.shape Np.data Np.size fold_right].
  destruct (Nat.eqb_spec (length xs) 0) as [E|E].
  - destruct xs; [congruence | discriminate].
  - eexists. split; [reflexivity|].
    rewrite Nat.mul_1_r. apply adjacent_pairs_ascending.
Qed.

(** ** What the stacking functions log *)

Lemma tidy_bind {A B} (c : M A) (f : A -> M B) :
  tidy c -> (forall a, tidy (f a)) -> tidy (bind c f).
Proof.
  destruct c as [l [a|e]]; cbn [tidy bind]; intros Hc Hf.
  - subst l. specialize (Hf a). destruct (f a) as [l' r]. exact Hf.
  - exact Hc.
Qed.

Lemma tidy_lift {A} (r : result A) : tidy (lift r).
Proof. destruct r; cbn; [reflexivity | now left]. Qed.

Lemma tidy_ret {A} (a : A) : tidy (ret a).
Proof. reflexivity. Qed.

Lemma tidy_for_eachM {A S} (body : S -> A -> M S) xs :
  (forall acc x, tidy (body acc x)) -> forall acc, tidy (for_eachM body xs acc).
Proof.
  intros H. induction xs as [|x xs IH]; intros acc; cbn [for_eachM].
  - apply tidy_ret.
  - apply tidy_bind; [apply H | exact IH].
Qed.

Lemma np_stack_raises_ValueError arrays e :
  Np.stack arrays = Raise e -> e = ValueError.
Proof.
  unfold Np.stack. destruct arrays as [|a rest]; [congruence|].
  destruct (forallb _ rest); [discriminate | congruence].
Qed.

Lemma tidy_stack_failure {A} k arrays e :
  Np.stack arrays = Raise e ->
  tidy (bind (logger (DEBUG_could_not_stack k))
          (fun _ => bind (logger (DEBUG_shapes (map Np.shape arrays)))
             (fun _ => bind (logger (ERROR e)) (fun _ => @raise A e)))).
Proof.
  intros H. apply np_stack_raises_ValueError in H. subst e.
  cbn. right. now exists k, arrays.
Qed.

Lemma tidy_stack_data_list data_list k : tidy (Merge.stack_data_list data_list k).
Proof.
  unfold Merge.stack_data_list. destruct (Merge._key_is_constant k).
  - apply tidy_lift.
  - destruct (Np.stack data_list) as [a|e] eqn:E;
      [apply tidy_ret | now apply tidy_stack_failure].
Qed.

Lemma tidy_merge_stack dict_list :
  tidy (Merge.stack_np_examples_into_batch dict_list).
Proof.
  unfold Merge.stack_np_examples_into_batch.
  apply tidy_bind; [apply tidy_lift|]. intros first.
  apply tidy_for_eachM. intros acc k. destruct (key_eqb k BatchKey_nwp).
  - apply tidy_bind; [apply tidy_lift|]. intros m.
    apply tidy_bind; [apply tidy_lift|]. intros source0.
    apply tidy_bind; [apply tidy_lift|]. intros inner.
    apply tidy_bind; [|intros; apply tidy_ret].
    apply tidy_for_eachM. intros acc' nwp_source.
    apply tidy_bind; [|intros; apply tidy_ret].
    unfold Merge.stack_nwp_source. apply tidy_for_eachM. intros acc'' nk.
    apply tidy_bind; [apply tidy_lift|]. intros data_list.
    apply tidy_bind; [apply tidy_stack_data_list | intros; apply tidy_ret].
  - apply tidy_bind; [apply tidy_lift|]. intros data_list.
    apply tidy_bind; [apply tidy_stack_data_list | intros; apply tidy_ret].
Qed.

Lemma handler_bind {A B} (c : M A) (f : A -> M B) :
  tidy_or_handler_failed c -> (forall a, tidy_or_handler_failed (f a)) ->
  tidy_or_handler_failed (bind c f).
Proof.
  destruct c as [l [a|e]]; cbn [tidy_or_handler_failed bind]; intros Hc Hf.
  - subst l. specialize (Hf a). destruct (f a) as [l' r]. exact Hf.
  - exact Hc.
Qed.

Lemma handler_lift {A} (r : result A) : tidy_or_handler_failed (lift r).
Proof. destruct r; cbn; [reflexivity | now left]. Qed.

Lemma handler_ret {A} (a : A) : tidy_or_handler_failed (ret a).
Proof. reflexivity. Qed.

Lemma handler_for_eachM {A S} (body : S -> A -> M S) xs :
  (forall acc x, tidy_or_handler_failed (body acc x)) ->
  forall acc, tidy_or_handler_failed (for_eachM body xs acc).
Proof.
  intros H. induction xs as [|x xs IH]; intros acc; cbn [for_eachM].
  - apply handler_ret.
  - apply handler_bind; [apply H | exact IH].
Qed.

Lemma utils_np_stack_raises_ValueError items e :
  Utils.np_stack items = Raise e -> e = ValueError.
Proof.
  unfold Utils.np_stack. destruct (Utils.arrays_of items) as [arrays|].
  - destruct (Np.stack arrays) as [a|e'] eqn:E; cbn [rbind]; [discriminate|].
    intros H. injection H as <-. now apply np_stack_raises_ValueError in E.
  - destruct (forallb _ items); [discriminate | congruence].
Qed.

(** Reading [.shape] off every item works only when all of them are
    arrays, and fails with [AttributeError] otherwise. *)
Lemma shape_attr_cases items :
  (exists arrays, items = map Array arrays
                  /\ comprehension Utils.shape_attr items = Ok (map Np.shape arrays))
  \/ comprehension Utils.shape_attr items = Raise AttributeError.
Proof.
  induction items as [|[a|m] items IH]; cbn [comprehension Utils.shape_attr rbind].
  - left. now exists [].
  - destruct IH as [(arrays & -> & ->)| ->]; [left | now right].
    now exists (a :: arrays).
  - now right.
Qed.

Lemma handler_utils_stack declared np_examples :
  tidy_or_handler_failed (Utils.stack_np_examples_into_batch declared np_examples).
Proof.
  unfold Utils.stack_np_examples_into_batch.
  apply handler_bind; [apply handler_lift|]. intros first.
  apply handler_for_eachM. intros acc k.
  apply handler_bind; [apply handler_lift|]. intros [|].
  - apply handler_bind; [apply handler_lift | intros; apply handler_ret].
  - apply handler_bind; [apply handler_lift|]. intros items.
    destruct (Utils.np_stack items) as [x|e] eqn:E; [apply handler_ret|].
    apply utils_np_stack_raises_ValueError in E. subst e.
    destruct (shape_attr_cases items) as [(arrays & -> & ->)| ->]; cbn.
    + right. left. now exists k, arrays.
    + right. right. now exists k.
Qed.

(** X5.  Both stacking functions write to the log only when [np.stack]
    fails: a returned batch comes with an empty log.  A failure of the batch
    module's function comes either with an empty log or with exactly the
    three records of one failed stacking, and then the exception is numpy's
    [ValueError].  The same holds of the function of [utils.py], whether or
    not [BatchKey] declares [nwp_channel_names], but for one more case: its
    handler reads [.shape] off the values that did not stack, and when one
    of them is a nested mapping that raises [AttributeError] after the first
    debug record alone, as on a nested mapping next to an array of shape
    (2,).  Nested mappings alone do stack, to an array of objects.  A
    [KeyError] or [IndexError] is never logged by either function. *)
Theorem stacking_logs_only_shape_failures :
  forall examples : list NumpyBatch,
    (forall l batch,
        Merge.stack_np_examples_into_batch examples = (l, Ok batch) -> l = [])
    /\ (forall l e,
          Merge.stack_np_examples_into_batch examples = (l, Raise e) ->
          (l = [] \/ exists k arrays, l = mismatch_log k arrays /\ e = ValueError)
          /\ (e <> ValueError -> l = []))
    /\ (forall declared l batch,
          Utils.stack_np_examples_into_batch declared examples = (l, Ok batch) ->
          l = [])
    /\ (forall declared l e,
          Utils.stack_np_examples_into_batch declared examples = (l, Raise e) ->
          (l = []
           \/ (exists k arrays, l = mismatch_log k arrays /\ e = ValueError)
           \/ (exists k, l = [DEBUG_could_not_stack k] /\ e = AttributeError))
          /\ (e <> ValueError -> e <> AttributeError -> l = []))
    /\ Utils.stack_np_examples_into_batch true Samples.nested_next_to_array
       = ([DEBUG_could_not_stack BatchKey_nwp], Raise AttributeError)
    /\ Utils.stack_np_examples_into_batch true
         [Samples.nested_example 1 5; Samples.nested_example 2 7]
       = ([], Ok [(BatchKey_nwp,
                   Utils.ObjectArray
                     [value_of (NwpEntry [("A"%string,
                         [(Samples.nwp, Np.vector [1%float]);
                          (Samples.nwp_t0_idx, Np.scalar 5%float)])]);
                      value_of (NwpEntry [("A"%string,
                         [(Samples.nwp, Np.vector [2%float]);
                          (Samples.nwp_t0_idx, Np.scalar 7%float)])])])]).
Proof.
  intros examples.
  pose proof (tidy_merge_stack examples) as Hm.
  split; [intros l batch H; now rewrite H in Hm|].
  split.
  { intros l e H. rewrite H in Hm. split; [exact Hm|].
    intros He. destruct Hm as [Hl|(k & arrays & _ & He')];
      [exact Hl | contradiction]. }
  split.
  { intros declared l batch H.
    pose proof (handler_utils_stack declared examples) as Hu.
    now rewrite H in Hu. }
  split; [|split; reflexivity].
  intros declared l e H.
  pose proof (handler_utils_stack declared examples) as Hu.
  rewrite H in Hu. split; [exact Hu|].
  intros He Ha.
  destruct Hu as [Hl|[(k & arrays & _ & He')|(k & _ & Ha')]];
    [exact Hl | contradiction | contradiction].
Qed.

(** ** The whole-list batcher *)

Lemma MergeNumpyBatch_loop_prefix good bad rest l e :
  Forall (fun g => exists b, Merge.stack_np_examples_into_batch g = ([], Ok b))
    good ->
  Merge.stack_np_examples_into_batch bad = (l, Raise e) ->
  let r := Merge.MergeNumpyBatch_loop (good ++ bad :: rest) in
  Forall2 (fun g b => Merge.stack_np_examples_into_batch g = ([], Ok b))
    good (Gen.yielded r)
  /\ Gen.raised r = Some e
  /\ Gen.log r = l.
Proof.
  intros Hgood Hbad. induction Hgood as [|g good [b Hb] _ IH];
    cbn [app Merge.MergeNumpyBatch_loop].
  - rewrite Hbad. cbn. repeat split. constructor.
  - rewrite Hb. destruct IH as (IH1 & IH2 & IH3). cbn.
    repeat split; [constructor; assumption | assumption | assumption].
Qed.

Lemma MergeNumpyBatch_loop_all good :
  Forall (fun g => exists b, Merge.stack_np_examples_into_batch g = ([], Ok b))
    good ->
  let r := Merge.MergeNumpyBatch_loop good in
  Forall2 (fun g b => Merge.stack_np_examples_into_batch g = ([], Ok b))
    good (Gen.yielded r)
  /\ Gen.raised r = None
  /\ Gen.log r = [].
Proof.
  intros Hgood. induction Hgood as [|g good [b Hb] _ IH];
    cbn [Merge.MergeNumpyBatch_loop].
  - cbn. repeat split. constructor.
  - rewrite Hb. destruct IH as (IH1 & IH2 & IH3). cbn.
    repeat split; [constructor; assumption | assumption | assumption].
Qed.

(** X6.  The whole-list batcher yields, in order, the stacked batch of
    each list of examples up to the first list whose stacking fails; that
    failure ends the iteration with the same exception, the lists after it
    are never stacked, and the log is the opening debug record followed by
    what the failed stacking logged.  An empty list of examples in the
    stream is such a failure, with [IndexError].  When every list stacks,
    there is one batch per list and the iteration ends normally. *)
Theorem whole_list_batcher_stops_at_first_failure :
  forall (good : list (list NumpyBatch)),
    Forall (fun g => exists b, Merge.stack_np_examples_into_batch g = ([], Ok b))
      good ->
    (forall bad rest l e,
        Merge.stack_np_examples_into_batch bad = (l, Raise e) ->
        let r := Merge.MergeNumpyBatch___iter__ (good ++ bad :: rest) in
        Forall2 (fun g b => Merge.stack_np_examples_into_batch g = ([], Ok b))
          good (Gen.yielded r)
        /\ Gen.raised r = Some e
        /\ Gen.log r = DEBUG "Merging numpy batch" :: l)
    /\ (forall rest,
          let r := Merge.MergeNumpyBatch___iter__ (good ++ [] :: rest) in
          length (Gen.yielded r) = length good
          /\ Gen.raised r = Some IndexError)
    /\ (let r := Merge.MergeNumpyBatch___iter__ good in
        Forall2 (fun g b => Merge.stack_np_examples_into_batch g = ([], Ok b))
          good (Gen.yielded r)
        /\ Gen.raised r = None
        /\ Gen.log r = [DEBUG "Merging numpy batch"]).
Proof.
  intros good Hgood. split; [|split].
  - intros bad rest l e Hbad.
    destruct (MergeNumpyBatch_loop_prefix good bad rest l e Hgood Hbad)
      as (H1 & H2 & H3).
    cbn. repeat split; [exact H1 | exact H2 | now rewrite H3].
  - intros rest.
    destruct (MergeNumpyBatch_loop_prefix good [] rest [] IndexError Hgood eq_refl)
      as (H1 & H2 & _).
    cbn. split; [|exact H2]. symmetry. eapply Forall2_length; eauto.
  - destruct (MergeNumpyBatch_loop_all good Hgood) as (H1 & H2 & H3).
    cbn. repeat split; [exact H1 | exact H2 | now rewrite H3].
Qed.

Lemma whole_list_batcher_stops_at_first_failure_witness :
  let r := Merge.MergeNumpyBatch___iter__
             ([[Samples.plain_a; Samples.plain_b]] ++ [] :: [[Samples.plain_a]]) in
  length (Gen.yielded r) = 1 /\ Gen.raised r = Some IndexError.
Proof.
  refine (proj1 (proj2 (whole_list_batcher_stops_at_first_failure
                          [[Samples.plain_a; Samples.plain_b]] _))
            [[Samples.plain_a]]).
  constructor; [|constructor]. eexists. reflexivity.
Defined.

(** ** Keys that an example lacks *)

Lemma comprehension_Ok_In {A B} (f : A -> result B) xs ys x :
  comprehension f xs = Ok ys -> In x xs -> exists y, f x = Ok y.
Proof.
  intros H. apply comprehension_Forall2 in H.
  induction H as [|x' y' xs ys Hxy _ IH]; intros Hin; [contradiction|].
  destruct Hin as [<-|Hin]; [eauto | now apply IH].
Qed.

Lemma comprehension_missing_key d k dict_list :
  In d dict_list -> (forall v, lookup_array d k <> Ok v) ->
  comprehension (fun d' => lookup_array d' k) dict_list = Raise KeyError.
Proof.
  intros Hin Hmiss. apply comprehension_fails_with with (x := d).
  - intros y _. now apply raises_only_lookup_array.
  - exact Hin.
  - exact Hmiss.
Qed.

(** X7.  The stacking function of the batch module reads every primary key
    of the first example from every example, constant keys included: when
    some example lacks such a key no batch is returned, and when the key is
    the first one the failure is [KeyError] with nothing logged. *)
Theorem stack_needs_every_key_in_every_example :
  forall (first : NumpyBatch) (rest : list NumpyBatch) k a d,
    In (Field k a) first ->
    key_eqb k BatchKey_nwp = false ->
    In d rest ->
    (forall v, lookup_array d k <> Ok v) ->
    (forall l batch,
        Merge.stack_np_examples_into_batch (first :: rest) <> (l, Ok batch))
    /\ (forall tail,
          first = Field k a :: tail ->
          Merge.stack_np_examples_into_batch (first :: rest)
          = ([], Raise KeyError)).
Proof.
  intros first rest k a d Hin Hk Hd Hmiss.
  assert (Hcomp : comprehension (fun d' => lookup_array d' k) (first :: rest)
                  = Raise KeyError).
  { apply comprehension_missing_key with (d := d); [now right | exact Hmiss]. }
  split.
  - intros l batch H. unfold Merge.stack_np_examples_into_batch in H.
    cbn [item0] in H. rewrite bind_lift_Ok in H.
    destruct (for_eachM_Ok_inv _ _ _ _ _ H k) as (acc & l' & r & Hbody).
    { change k with (key_of (Field k a)). now apply in_map. }
    rewrite Hk, Hcomp in Hbody. discriminate Hbody.
  - intros tail ->. unfold Merge.stack_np_examples_into_batch.
    cbn [item0]. rewrite bind_lift_Ok.
    cbn [batch_keys_of map key_of for_eachM]. rewrite Hk.
    change (map key_of tail) with (batch_keys_of tail).
    unfold batch_keys_of in Hcomp. cbn [map key_of] in Hcomp.
    now rewrite Hcomp.
Qed.

Lemma stack_needs_every_key_in_every_example_witness :
  Merge.stack_np_examples_into_batch
    [[Field Samples.pv_t0_idx (Np.scalar 5%float)]; []]
  = ([], Raise KeyError).
Proof.
  refine (proj2 (stack_needs_every_key_in_every_example
                   [Field Samples.pv_t0_idx (Np.scalar 5%float)] [[]]
                   Samples.pv_t0_idx (Np.scalar 5%float) []
                   (or_introl eq_refl) eq_refl (or_introl eq_refl) _)
            [] eq_refl).
  intros v H. discriminate H.
Defined.

Lemma comprehension_through_map {A B C} (g : A -> B) (h : B -> result C) xs ys :
  map g xs = map g ys ->
  comprehension (fun x => h (g x)) xs = comprehension (fun x => h (g x)) ys.
Proof.
  revert ys. induction xs as [|x xs IH]; intros [|y ys] H; try discriminate;
    [reflexivity|].
  cbn [map] in H. injection H as Hxy Hrest.
  cbn [comprehension]. now rewrite Hxy, (IH ys Hrest).
Qed.

(** X8.  The stacking function of [utils.py] looks at the examples after
    the first one only under the keys it stacks: two lists of examples with
    the same first example, whose other examples hold the same values under
    every non-constant key of the first, give the same result, whatever the
    other examples hold, or lack, under the constant keys, and whether or
    not [BatchKey] declares [nwp_channel_names]. *)
Theorem utils_stack_reads_constant_keys_from_first_only :
  forall (declared : bool) (first : NumpyBatch) (rest rest' : list NumpyBatch),
    (forall k, In k (batch_keys_of first) ->
       endswith (name k) "t0_idx" || key_eqb k BatchKey_nwp_channel_names = false ->
       map (fun d => lookup d k) rest = map (fun d => lookup d k) rest') ->
    Utils.stack_np_examples_into_batch declared (first :: rest)
    = Utils.stack_np_examples_into_batch declared (first :: rest').
Proof.
  intros declared first rest rest' H.
  unfold Utils.stack_np_examples_into_batch.
  cbn [item0]. rewrite !bind_lift_Ok. apply for_eachM_ext. intros k Hk acc.
  unfold Utils.is_constant, Utils.BatchKey_dot_nwp_channel_names.
  destruct (endswith (name k) "t0_idx") eqn:Hc;
    [now rewrite !bind_lift_Ok|].
  destruct declared; cbn [rbind]; [|reflexivity].
  rewrite !bind_lift_Ok.
  destruct (key_eqb k BatchKey_nwp_channel_names) eqn:Hn; [reflexivity|].
  assert (Hv : endswith (name k) "t0_idx"
               || key_eqb k BatchKey_nwp_channel_names = false)
    by now rewrite Hc, Hn.
  pose proof (comprehension_through_map (fun d => lookup d k) (fun r => r)
                rest rest' (H k Hk Hv)) as E.
  cbn beta in E. cbn [comprehension]. rewrite E. reflexivity.
Qed.

Lemma utils_stack_reads_constant_keys_from_first_only_witness :
  Utils.stack_np_examples_into_batch true
    [[Field Samples.pv_t0_idx (Np.scalar 5%float)]; []]
  = Utils.stack_np_examples_into_batch true
      [[Field Samples.pv_t0_idx (Np.scalar 5%float)]; Samples.example_b].
Proof.
  apply utils_stack_reads_constant_keys_from_first_only.
  intros k [<-|[]] H. discriminate H.
Defined.

(** ** The layout of a stacked batch *)

Lemma store_fresh acc e :
  ~ In (key_of e) (batch_keys_of acc) -> store acc e = acc ++ [e].
Proof.
  induction acc as [|e0 acc IH]; cbn [store batch_keys_of map app]; intros H;
    [reflexivity|].
  destruct (key_eqb (key_of e0) (key_of e)) eqn:E.
  - apply key_eqb_eq in E. exfalso. apply H. now left.
  - f_equal. apply IH. intros Hin. apply H. now right.
Qed.

Lemma lookup_array_In d k x :
  NoDup (batch_keys_of d) -> In (Field k x) d -> lookup_array d k = Ok x.
Proof.
  induction d as [|e d IH]; intros Hnd Hin; [contradiction|].
  cbn [batch_keys_of map] in Hnd. inversion Hnd as [|? ? Hnotin Hnd']; subst.
  destruct Hin as [->|Hin].
  - cbn [lookup_array]. now rewrite key_eqb_refl.
  - destruct e as [k' a'|m]; cbn [lookup_array key_of] in *.
    + destruct (key_eqb k' k) eqn:E; [|now apply IH].
      apply key_eqb_eq in E. subst. exfalso. apply Hnotin.
      change k with (key_of (Field k x)). now apply in_map.
    + now apply IH.
Qed.

Lemma Forall2_In_left {A B} (R : A -> B -> Prop) xs ys x :
  Forall2 R xs ys -> In x xs -> exists y, In y ys /\ R x y.
Proof.
  intros H. induction H as [|x' y' xs ys Hxy _ IH]; intros Hin; [contradiction|].
  destruct Hin as [<-|Hin].
  - exists y'. split; [now left | exact Hxy].
  - destruct (IH Hin) as (y & Hy & HR). exists y. split; [now right | exact HR].
Qed.

(** A loop that stores one item per key, each under a key not yet present,
    appends the items in order. *)
Lemma for_eachM_store (body : NumpyBatch -> key -> M NumpyBatch)
  (R : entry -> entry -> Prop) es :
  (forall e, In e es -> forall acc l acc',
      body acc (key_of e) = (l, Ok acc') ->
      exists e', acc' = store acc e' /\ key_of e' = key_of e /\ R e e') ->
  forall acc l batch,
    NoDup (batch_keys_of acc ++ batch_keys_of es) ->
    for_eachM body (batch_keys_of es) acc = (l, Ok batch) ->
    exists news,
      batch = acc ++ news
      /\ Forall2 R es news
      /\ batch_keys_of news = batch_keys_of es.
Proof.
  induction es as [|e es IH]; intros Hstep acc l batch Hnd H.
  - cbn in H. injection H as _ <-. exists []. rewrite app_nil_r.
    repeat split. constructor.
  - cbn [batch_keys_of map for_eachM] in H.
    apply bind_Ok_inv in H. destruct H as (l1 & acc1 & l2 & Hbody & Hrest).
    destruct (Hstep e (or_introl eq_refl) acc l1 acc1 Hbody)
      as (e' & -> & Hkey & HR).
    cbn [batch_keys_of map] in Hnd.
    assert (Hfresh : ~ In (key_of e') (batch_keys_of acc)).
    { rewrite Hkey. apply NoDup_remove_2 in Hnd. intros Hin. apply Hnd.
      apply in_or_app. now left. }
    rewrite (store_fresh acc e' Hfresh) in Hrest.
    destruct (IH (fun e0 H0 => Hstep e0 (or_intror H0)) (acc ++ [e']) l2 batch)
      as (news & -> & HF & Hkeys).
    + unfold batch_keys_of in *. rewrite map_app, <- app_assoc.
      cbn [map app]. now rewrite Hkey.
    + exact Hrest.
    + exists (e' :: news). rewrite <- app_assoc. cbn [app].
      repeat split; [now constructor|].
      cbn [batch_keys_of map]. unfold batch_keys_of in Hkeys.
      now rewrite Hkey, Hkeys.
Qed.

Lemma lift_Ok_inv {A} (r : result A) l a : lift r = (l, Ok a) -> r = Ok a.
Proof. unfold lift. intros H. now injection H as _ ->. Qed.

Lemma ret_Ok_inv {A} (x : A) l a : ret x = (l, Ok a) -> a = x.
Proof. unfold ret. intros H. now injection H as _ <-. Qed.

Lemma stack_data_list_quiet data_list k l x :
  Merge.stack_data_list data_list k = (l, Ok x) ->
  Merge.stack_data_list data_list k = ([], Ok x).
Proof.
  intros H. pose proof (tidy_stack_data_list data_list k) as T.
  rewrite H in T. cbn in T. now subst l.
Qed.

(** The items of a returned batch stand, in order, for the items of the
    first example. *)
Lemma stack_Ok_entries first rest l batch :
  well_typed first ->
  Merge.stack_np_examples_into_batch (first :: rest) = (l, Ok batch) ->
  Forall2 (stacked_entry (first :: rest)) first batch
  /\ batch_keys_of batch = batch_keys_of first.
Proof.
  intros Hwt H. unfold Merge.stack_np_examples_into_batch in H.
  cbn [item0] in H. rewrite bind_lift_Ok in H.
  eapply (for_eachM_store _ (stacked_entry (first :: rest)) first) in H.
  - destruct H as (news & -> & HF & Hkeys). now split.
  - intros [k a|m] He acc l0 acc' Hbody; cbn [key_of] in Hbody.
    + rewrite (well_typed_field first k a Hwt He) in Hbody.
      apply bind_Ok_inv in Hbody.
      destruct Hbody as (l1 & column & l2 & Hcol & Hbody).
      apply lift_Ok_inv in Hcol.
      apply bind_Ok_inv in Hbody. destruct Hbody as (l3 & x & l4 & Hx & Hret).
      apply ret_Ok_inv in Hret. subst acc'.
      exists (Field k x). split; [reflexivity|]. split; [reflexivity|].
      exists column, x. repeat split; [exact Hcol|].
      eapply stack_data_list_quiet; eauto.
    + destruct (well_typed_nested first m Hwt He)
        as (Hm & source0 & inner & others & ->).
      rewrite key_eqb_refl, Hm, bind_lift_Ok in Hbody.
      cbn [keys map fst item0 getitem] in Hbody.
      rewrite bind_lift_Ok, String.eqb_refl, bind_lift_Ok in Hbody.
      apply bind_Ok_inv in Hbody. destruct Hbody as (l1 & m' & l2 & _ & Hret).
      apply ret_Ok_inv in Hret. subst acc'.
      exists (NwpEntry m'). split; [reflexivity|]. split; [reflexivity|].
      now exists m'.
  - cbn [batch_keys_of map app]. apply Hwt.
Qed.

Lemma np_stack_shape a others x :
  Np.stack (a :: others) = Ok x ->
  Np.shape x = S (length others) :: Np.shape a.
Proof.
  unfold Np.stack.
  destruct (forallb (fun b => Np.shape_eqb (Np.shape b) (Np.shape a)) others);
    [|discriminate].
  intros H. now injection H as <-.
Qed.

(** X9.  When the stacking function of the batch module returns a batch
    for examples typed as [NumpyBatch], the batch has the keys of the first
    example in the same order.  Under a constant key it holds the first
    example's value itself.  Under a variable key it holds an array whose
    leading axis counts the examples and whose remaining shape is the first
    example's; if the per-example arrays are well formed, index [i] of it is
    the value of the [i]-th example. *)
Theorem stacked_batch_layout :
  forall (first : NumpyBatch) (rest : list NumpyBatch) l batch,
    well_typed first ->
    Merge.stack_np_examples_into_batch (first :: rest) = (l, Ok batch) ->
    batch_keys_of batch = batch_keys_of first
    /\ forall k a, In (Field k a) first ->
         exists x,
           lookup_array batch k = Ok x
           /\ (Merge._key_is_constant k = true -> x = a)
           /\ (Merge.non_constant k = true ->
               Np.shape x = S (length rest) :: Np.shape a
               /\ forall i d v,
                    nth_error (first :: rest) i = Some d ->
                    lookup_array d k = Ok v ->
                    (forall d' v', In d' (first :: rest) ->
                                   lookup_array d' k = Ok v' ->
                                   Np.well_formed v') ->
                    Np.index x i = Ok v).
Proof.
  intros first rest l batch Hwt H.
  destruct (stack_Ok_entries first rest l batch Hwt H) as [HF Hkeys].
  split; [exact Hkeys|]. intros k a Hin.
  destruct (Forall2_In_left _ _ _ _ HF Hin) as (e' & He' & column & x & Hcol & Hx & ->).
  assert (Hnd : NoDup (batch_keys_of batch)) by (rewrite Hkeys; apply Hwt).
  exists x. split; [now apply lookup_array_In|].
  cbn [slot_values] in Hcol.
  assert (Ha : lookup_array first k = Ok a)
    by (apply lookup_array_In; [apply Hwt | exact Hin]).
  assert (Hcolumn : exists others, column = a :: others /\ length others = length rest).
  { pose proof (comprehension_length _ _ _ Hcol) as Hlen.
    cbn [comprehension] in Hcol. rewrite Ha in Hcol. cbn [rbind] in Hcol.
    destruct (comprehension (fun d => lookup_array d k) rest) as [others|e];
      cbn [rbind] in Hcol; [|discriminate].
    injection Hcol as <-. exists others. split; [reflexivity|].
    cbn [length] in Hlen. now injection Hlen. }
  destruct Hcolumn as (others & -> & Hlen).
  unfold Merge.stack_data_list in Hx. split.
  - intros Hc. rewrite Hc in Hx. cbn in Hx. now injection Hx as <-.
  - intros Hv. unfold Merge.non_constant in Hv. apply negb_true_iff in Hv.
    rewrite Hv in Hx.
    destruct (Np.stack (a :: others)) as [r|e] eqn:Hstack; [|discriminate].
    injection Hx as <-. split.
    + rewrite <- Hlen. now apply np_stack_shape.
    + intros i d v Hi Hd Hwf.
      apply index_of_stack with (arrays := a :: others); [|exact Hstack|].
      * intros y Hy. apply comprehension_Forall2 in Hcol.
        clear - Hcol Hy Hwf.
        induction Hcol as [|d' y' ds ys Hdy _ IH]; [contradiction|].
        destruct Hy as [<-|Hy].
        -- apply (Hwf d' y'); [now left | exact Hdy].
        -- apply IH; [|exact Hy].
           intros d0 v0 H0. apply Hwf. now right.
      * apply comprehension_Forall2 in Hcol. clear - Hcol Hi Hd.
        revert i Hi. induction Hcol as [|d' y' ds ys Hdy _ IH]; intros i Hi.
        -- destruct i; discriminate.
        -- destruct i as [|i]; cbn [nth_error] in *.
           ++ injection Hi as ->. congruence.
           ++ now apply IH.
Qed.

Lemma stacked_batch_layout_witness :
  batch_keys_of Samples.batch_ab = batch_keys_of Samples.example_a.
Proof.
  refine (proj1 (stacked_batch_layout Samples.example_a [Samples.example_b]
                   [] Samples.batch_ab _ eq_refl)).
  split; [|split].
  - constructor; [intros [H|[]]; discriminate H|].
    constructor; [intros []|constructor].
  - intros a [H|[H|[]]]; discriminate H.
  - intros m [H|[H|[]]]; discriminate H.
Defined.

(** ** Examples that hold one nested source: stacking *)

Lemma getitem_In {V} (d : dict key V) k v :
  NoDup (keys d) -> In (k, v) d -> getitem key_eqb d k = Ok v.
Proof.
  induction d as [|[k' v'] d IH]; intros Hnd Hin; [contradiction|].
  cbn [keys map fst] in Hnd. inversion Hnd as [|? ? Hnotin Hnd']; subst.
  cbn [getitem]. destruct Hin as [H|Hin].
  - injection H as -> ->. now rewrite key_eqb_refl.
  - destruct (key_eqb k' k) eqn:E; [|now apply IH].
    apply key_eqb_eq in E. subst. exfalso. apply Hnotin.
    change k with (fst (k, v)). now apply in_map.
Qed.

Lemma for_eachM_setitem {V} (body : dict key V -> key -> M (dict key V))
  (R : key -> V -> Prop) ks :
  (forall k, In k ks -> forall acc l acc',
      body acc k = (l, Ok acc') ->
      exists v, acc' = setitem key_eqb acc k v /\ R k v) ->
  forall acc l out,
    NoDup (keys acc ++ ks) ->
    for_eachM body ks acc = (l, Ok out) ->
    exists news,
      out = acc ++ news
      /\ keys news = ks
      /\ Forall (fun kv => R (fst kv) (snd kv)) news.
Proof.
  induction ks as [|k ks IH]; intros Hstep acc l out Hnd H.
  - cbn in H. injection H as _ <-. exists []. rewrite app_nil_r.
    repeat split. constructor.
  - cbn [for_eachM] in H.
    apply bind_Ok_inv in H. destruct H as (l1 & acc1 & l2 & Hbody & Hrest).
    destruct (Hstep k (or_introl eq_refl) acc l1 acc1 Hbody) as (v & -> & HR).
    assert (Hfresh : ~ In k (keys acc)).
    { apply NoDup_remove_2 in Hnd. intros Hin. apply Hnd.
      apply in_or_app. now left. }
    rewrite (setitem_fresh acc k v Hfresh) in Hrest.
    destruct (IH (fun k0 H0 => Hstep k0 (or_intror H0)) (acc ++ [(k, v)]) l2 out)
      as (news & -> & Hkeys & HF).
    + rewrite keys_app, <- app_assoc. exact Hnd.
    + exact Hrest.
    + exists ((k, v) :: news). rewrite <- app_assoc. cbn [app].
      repeat split; [cbn [keys map fst]; now rewrite <- Hkeys|].
      now constructor.
Qed.

Lemma comprehension_map {A B C} (g : A -> B) (f : B -> result C) xs :
  comprehension f (map g xs) = comprehension (fun x => f (g x)) xs.
Proof.
  induction xs as [|x xs IH]; cbn [map comprehension]; [reflexivity|].
  now rewrite IH.
Qed.

Lemma single_source_column nwp_source k inners :
  comprehension (fun d => nwp_lookup d nwp_source k)
    (map (single_source nwp_source) inners)
  = comprehension (fun inner => getitem key_eqb inner k) inners.
Proof.
  rewrite comprehension_map. apply comprehension_ext.
  intros inner _. apply single_source_lookup.
Qed.

(** The batch stacked from single-source examples is a single-source batch
    whose secondary keys are those of the first example, each holding the
    combination of the examples' values. *)
Lemma stack_single_source nwp_source inner0 others l batch :
  NoDup (keys inner0) ->
  Merge.stack_np_examples_into_batch
    (map (single_source nwp_source) (inner0 :: others)) = (l, Ok batch) ->
  exists stacked,
    batch = single_source nwp_source stacked
    /\ keys stacked = keys inner0
    /\ Forall (fun kv => stacked_field (inner0 :: others) (fst kv) (snd kv))
         stacked.
Proof.
  intros Hnd H. unfold Merge.stack_np_examples_into_batch in H.
  cbn [map item0] in H. rewrite bind_lift_Ok in H.
  change (batch_keys_of (single_source nwp_source inner0))
    with [BatchKey_nwp] in H.
  cbn [for_eachM] in H. rewrite key_eqb_refl in H.
  change (nwp_mapping (single_source nwp_source inner0))
    with (nwp_mapping [NwpEntry [(nwp_source, inner0)]]) in H.
  rewrite single_source_mapping, bind_lift_Ok in H.
  cbn [keys map fst item0 getitem] in H.
  rewrite bind_lift_Ok, String.eqb_refl, bind_lift_Ok in H.
  apply bind_Ok_inv in H. destruct H as (l1 & acc1 & l2 & H & Hend).
  apply ret_Ok_inv in Hend. subst batch.
  apply bind_Ok_inv in H. destruct H as (l3 & nwp_batch & l4 & H & Hret).
  apply ret_Ok_inv in Hret. subst acc1.
  apply bind_Ok_inv in H. destruct H as (l5 & acc2 & l6 & H & Hend).
  apply ret_Ok_inv in Hend. subst nwp_batch.
  apply bind_Ok_inv in H. destruct H as (l7 & stacked & l8 & H & Hret).
  apply ret_Ok_inv in Hret. subst acc2.
  exists stacked. split; [reflexivity|].
  unfold Merge.stack_nwp_source in H.
  eapply (for_eachM_setitem _ (stacked_field (inner0 :: others))) in H.
  - destruct H as (news & -> & Hkeys & HF). cbn [app]. now split.
  - intros k Hk acc l0 acc' Hbody.
    change (single_source nwp_source inner0 :: map (single_source nwp_source) others)
      with (map (single_source nwp_source) (inner0 :: others)) in Hbody.
    rewrite single_source_column in Hbody.
    apply bind_Ok_inv in Hbody.
    destruct Hbody as (l9 & column & l10 & Hcol & Hbody).
    apply lift_Ok_inv in Hcol.
    apply bind_Ok_inv in Hbody. destruct Hbody as (l11 & x & l12 & Hx & Hret).
    apply ret_Ok_inv in Hret. subst acc'.
    exists x. split; [reflexivity|]. exists column. split; [exact Hcol|].
    eapply stack_data_list_quiet; eauto.
  - cbn [keys map app]. exact Hnd.
Qed.

(** ** Examples that hold one nested source: splitting the stack *)

Lemma comprehension_seq {B} (f : nat -> result B) (d : B) ys :
  forall start,
    (forall i, i < length ys -> f (start + i) = Ok (nth i ys d)) ->
    comprehension f (seq start (length ys)) = Ok ys.
Proof.
  induction ys as [|y ys IH]; intros start H; [reflexivity|].
  cbn [length seq comprehension].
  pose proof (H 0 (Nat.lt_0_succ _)) as H0. rewrite Nat.add_0_r in H0.
  cbn [nth] in H0. rewrite H0. cbn [rbind].
  rewrite (IH (S start)); [reflexivity|].
  intros i Hi. specialize (H (S i)). cbn [length nth] in H.
  rewrite Nat.add_succ_r in H. apply H. lia.
Qed.

Lemma getitem_Ok_In_pair {V} (d : dict key V) k v :
  getitem key_eqb d k = Ok v -> In (k, v) d.
Proof.
  induction d as [|[k' v'] d IH]; cbn [getitem]; intros H; [discriminate|].
  destruct (key_eqb k' k) eqn:E.
  - apply key_eqb_eq in E. injection H as ->. subst. now left.
  - right. now apply IH.
Qed.

Lemma In_keys_pair {V} (d : dict key V) k :
  In k (keys d) -> exists v, In (k, v) d.
Proof.
  unfold keys. intros H. apply in_map_iff in H.
  destruct H as ([k' v] & <- & H). now exists v.
Qed.

Lemma extract_data_variable data k i :
  Merge.non_constant k = true ->
  Merge.extract_data_from_batch data k i = Np.index data i.
Proof.
  unfold Merge.extract_data_from_batch, Merge.non_constant.
  intros H. apply negb_true_iff in H. now rewrite H.
Qed.

(** Rebuilding one example from a single-source batch: every secondary
    field is read at index [i] and stored, twice, under its key. *)
Lemma unstack_fields nwp_source stacked i todo :
  forall done,
    NoDup (keys (done ++ todo)) ->
    (forall k a, In (k, a) todo ->
       Merge.non_constant k = true
       /\ exists x, getitem key_eqb stacked k = Ok x /\ Np.index x i = Ok a) ->
    unstack_nwp_source_loop done (single_source nwp_source stacked)
      (keys todo) i nwp_source
    = Ok (done ++ todo).
Proof.
  unfold unstack_nwp_source_loop, single_source.
  induction todo as [|[k a] todo IH]; intros done Hnd Hall.
  - cbn. now rewrite app_nil_r.
  - cbn [keys map fst for_each]. fold (keys todo).
    destruct (Hall k a (or_introl eq_refl)) as (Hk & x & Hx & Hi).
    rewrite !single_source_lookup, Hx. cbn [rbind].
    rewrite Hi. cbn [rbind].
    rewrite (extract_data_variable x k i Hk), Hi. cbn [rbind].
    assert (Hfresh : ~ In k (keys done)).
    { rewrite keys_app in Hnd. cbn [keys map fst] in Hnd.
      apply NoDup_remove_2 in Hnd. intros Hin. apply Hnd.
      apply in_or_app. now left. }
    rewrite (setitem_fresh done k a Hfresh).
    rewrite (setitem_middle done [] k a a Hfresh).
    rewrite (IH (done ++ [(k, a)])).
    + now rewrite <- app_assoc.
    + rewrite <- app_assoc. exact Hnd.
    + intros k' a' H'. apply Hall. now right.
Qed.

Lemma stacked_field_index inners k x i inner a :
  stacked_field inners k x ->
  Merge.non_constant k = true ->
  (forall inner' a', In inner' inners -> In (k, a') inner' -> Np.well_formed a') ->
  nth_error inners i = Some inner ->
  getitem key_eqb inner k = Ok a ->
  Np.index x i = Ok a.
Proof.
  intros (column & Hcol & Hx) Hk Hwf Hi Ha.
  unfold Merge.stack_data_list in Hx.
  unfold Merge.non_constant in Hk. apply negb_true_iff in Hk. rewrite Hk in Hx.
  destruct (Np.stack column) as [r|e] eqn:Hstack; [|discriminate].
  injection Hx as <-.
  apply comprehension_Forall2 in Hcol.
  apply index_of_stack with (arrays := column); [|exact Hstack|].
  - clear - Hcol Hwf. intros y Hy.
    induction Hcol as [|inner' y' ds ys Hdy _ IH]; [contradiction|].
    destruct Hy as [<-|Hy].
    + apply (Hwf inner' y'); [now left | now apply getitem_Ok_In_pair].
    + apply IH; [|exact Hy]. intros d0 v0 H0. apply Hwf. now right.
  - clear - Hcol Hi Ha. revert i Hi.
    induction Hcol as [|inner' y' ds ys Hdy _ IH]; intros i Hi.
    + destruct i; discriminate.
    + destruct i as [|i]; cbn [nth_error] in *.
      * injection Hi as ->. congruence.
      * now apply IH.
Qed.

Lemma stacked_field_leading inner0 others k x :
  stacked_field (inner0 :: others) k x ->
  Merge.non_constant k = true ->
  exists s, Np.shape x = S (length others) :: s.
Proof.
  intros (column & Hcol & Hx) Hk.
  pose proof (comprehension_length _ _ _ Hcol) as Hlen.
  unfold Merge.stack_data_list in Hx.
  unfold Merge.non_constant in Hk. apply negb_true_iff in Hk. rewrite Hk in Hx.
  destruct (Np.stack column) as [r|e] eqn:Hstack; [|discriminate].
  injection Hx as <-.
  destruct column as [|c cs]; [discriminate|].
  exists (Np.shape c). rewrite (np_stack_shape c cs r Hstack).
  cbn [length] in Hlen. now injection Hlen as ->.
Qed.

(** X10.  Round trip for the nested modality.  Take examples that hold
    nothing but the nested modality under one source, with the same
    secondary keys in the same order, at least one key, all keys variable
    and all arrays well formed.  If stacking them returns a batch, then
    splitting that batch returns exactly the examples, in order. *)
Theorem nested_single_source_round_trip :
  forall nwp_source (inner0 : NWPNumpyBatch) (others : list NWPNumpyBatch) l batch,
    keys inner0 <> [] ->
    NoDup (keys inner0) ->
    (forall inner, In inner (inner0 :: others) -> keys inner = keys inner0) ->
    (forall k, In k (keys inner0) -> Merge.non_constant k = true) ->
    (forall inner k a, In inner (inner0 :: others) -> In (k, a) inner ->
                       Np.well_formed a) ->
    Merge.stack_np_examples_into_batch
      (map (single_source nwp_source) (inner0 :: others)) = (l, Ok batch) ->
    Merge.unstack_np_batch_into_examples batch
    = Ok (map (single_source nwp_source) (inner0 :: others)).
Proof.
  intros nwp_source inner0 others l batch Hne Hnd Hkeys Hvar Hwf Hstack.
  destruct (stack_single_source nwp_source inner0 others l batch Hnd Hstack)
    as (stacked & -> & Hsk & Hfields).
  assert (Hfield : forall k, In k (keys inner0) ->
            exists x, getitem key_eqb stacked k = Ok x
                      /\ stacked_field (inner0 :: others) k x).
  { intros k Hk. rewrite <- Hsk in Hk.
    destruct (In_keys_pair stacked k Hk) as [x Hx]. exists x. split.
    - apply getitem_In; [now rewrite Hsk | exact Hx].
    - rewrite Forall_forall in Hfields. exact (Hfields (k, x) Hx). }
  (* the batch size *)
  assert (HB : Merge.batch_size_of (single_source nwp_source stacked)
               = Ok (length (inner0 :: others))).
  { destruct (keys inner0) as [|k0 ks] eqn:Hk0; [congruence|].
    destruct (Hfield k0 (or_introl eq_refl)) as (x0 & Hx0 & Hf0).
    destruct (stacked_field_leading inner0 others k0 x0 Hf0
                (Hvar k0 (or_introl eq_refl))) as [s Hs].
    apply (batch_size_nested (single_source nwp_source stacked)
             nwp_source stacked [] k0 x0 _ s); try reflexivity; try assumption.
    rewrite Hsk. cbn [find]. now rewrite (Hvar k0 (or_introl eq_refl)). }
  unfold Merge.unstack_np_batch_into_examples. rewrite HB. cbn [rbind].
  change (batch_keys_of (single_source nwp_source stacked)) with [BatchKey_nwp].
  rewrite <- (length_map (single_source nwp_source) (inner0 :: others)).
  apply comprehension_seq with (d := []).
  intros i Hi. cbn [Nat.add]. rewrite length_map in Hi.
  destruct (nth_error (inner0 :: others) i) as [inner|] eqn:Hnth;
    [|apply nth_error_None in Hnth; lia].
  assert (Hin : In inner (inner0 :: others)) by (eapply nth_error_In; eauto).
  unfold single_source at 1. rewrite single_source_sample.
  change (Merge.unstack_nwp_source [NwpEntry [(nwp_source, stacked)]]
            (keys stacked) i nwp_source)
    with (unstack_nwp_source_loop [] (single_source nwp_source stacked)
            (keys stacked) i nwp_source).
  rewrite Hsk, <- (Hkeys inner Hin).
  pose proof (unstack_fields nwp_source stacked i inner []) as Hloop.
  cbn [app] in Hloop. rewrite Hloop.
  - cbn [rbind]. f_equal. symmetry. apply nth_error_nth.
    now rewrite nth_error_map, Hnth.
  - rewrite (Hkeys inner Hin). exact Hnd.
  - intros k a Hka.
    assert (Hk : In k (keys inner0)).
    { rewrite <- (Hkeys inner Hin). change k with (fst (k, a)).
      now apply in_map. }
    split; [now apply Hvar|].
    destruct (Hfield k Hk) as (x & Hx & Hf). exists x. split; [exact Hx|].
    apply (stacked_field_index (inner0 :: others) k x i inner a Hf).
    + now apply Hvar.
    + intros inner' a' H1 H2. now apply (Hwf inner' k a').
    + exact Hnth.
    + apply getitem_In; [rewrite (Hkeys inner Hin); exact Hnd | exact Hka].
Qed.

Lemma nested_single_source_round_trip_witness :
  Merge.unstack_np_batch_into_examples
    (single_source "A"
       [(Samples.nwp, Np.mk_ndarray [2; 2] [1; 2; 3; 4]%float)])
  = Ok (map (single_source "A")
          [[(Samples.nwp, Np.vector [1; 2]%float)];
           [(Samples.nwp, Np.vector [3; 4]%float)]]).
Proof.
  refine (nested_single_source_round_trip "A"
            [(Samples.nwp, Np.vector [1; 2]%float)]
            [[(Samples.nwp, Np.vector [3; 4]%float)]] [] _ _ _ _ _ _ eq_refl).
  - discriminate.
  - constructor; [intros []|constructor].
  - intros inner [<-|[<-|[]]]; reflexivity.
  - intros k [<-|[]]. reflexivity.
  - intros inner k a [<-|[<-|[]]] [H|[]]; injection H as <- <-; reflexivity.
Defined.

(** ** Forward time extension along the leading axis *)

Lemma firstn_plus {A} a b (xs : list A) :
  firstn (a + b) xs = firstn a xs ++ firstn b (skipn a xs).
Proof.
  revert xs. induction a as [|a IH]; intros xs; [reflexivity|].
  destruct xs as [|x xs]; cbn [Nat.add firstn skipn app].
  - now rewrite firstn_nil.
  - now rewrite IH.
Qed.

Lemma concat_slices s (xs : list float) m :
  concat (map Np.data (map (Np.slice s xs) (seq 0 m)))
  = firstn (m * Np.size s) xs.
Proof.
  induction m as [|m IH]; [reflexivity|].
  rewrite seq_S, !map_app, concat_app, IH. cbn [Nat.add map concat Np.slice Np.data].
  rewrite app_nil_r.
  replace (S m * Np.size s) with (m * Np.size s + Np.size s) by (cbn; lia).
  now rewrite firstn_plus.
Qed.

Lemma item_from_end_lt {A} (l : list A) i :
  i < length l -> exists x, item_from_end l i = Ok x /\ In x l.
Proof.
  intros H. unfold item_from_end.
  destruct (nth_error (rev l) i) as [x|] eqn:E.
  - exists x. split; [reflexivity|]. apply in_rev. eapply nth_error_In; eauto.
  - apply nth_error_None in E. rewrite length_rev in E. lia.
Qed.

Lemma append_future_rows n s step :
  forall times,
    times <> [] ->
    Forall (fun r => Np.shape r = s) times ->
    exists extra,
      Extend.append_future n times step = Ok (times ++ extra)
      /\ length extra = n
      /\ Forall (fun r => Np.shape r = s) extra.
Proof.
  induction n as [|n IH]; intros times Hne Hall; cbn [Extend.append_future].
  - exists []. rewrite app_nil_r. repeat split. constructor.
  - destruct times as [|t ts] eqn:Et; [congruence|]. rewrite <- Et in *.
    destruct (item_from_end_lt times 0) as (last & -> & Hin);
      [subst; cbn; lia|].
    cbn [rbind].
    assert (Hs : Np.shape (Np.add last step) = s).
    { cbn [Np.add Np.shape]. rewrite Forall_forall in Hall. now apply Hall. }
    destruct (IH (times ++ [Np.add last step])) as (extra & -> & Hlen & Hextra).
    + intros H. apply app_eq_nil in H. destruct H; discriminate.
    + apply Forall_app. split; [exact Hall | now constructor].
    + exists (Np.add last step :: extra). rewrite <- app_assoc.
      repeat split; [cbn [length]; now rewrite Hlen | now constructor].
Qed.

Lemma stack_same_shape s arrays :
  arrays <> [] ->
  Forall (fun r => Np.shape r = s) arrays ->
  Np.stack arrays
  = Ok (Np.mk_ndarray (length arrays :: s) (concat (map Np.data arrays))).
Proof.
  intros Hne Hall. destruct arrays as [|a rest]; [congruence|].
  unfold Np.stack.
  assert (Ha : Np.shape a = s) by now inversion Hall.
  assert (E : forallb (fun b => Np.shape_eqb (Np.shape b) (Np.shape a)) rest = true).
  { apply forallb_forall. intros b Hb. apply shape_eqb_eq.
    rewrite Forall_forall in Hall. rewrite Ha. apply Hall. now right. }
  now rewrite E, Ha.
Qed.

(** X11.  On a well-formed array with at least two entries along its
    leading axis, the extension of one time axis succeeds for every number
    of steps: the result has that many more entries along the leading axis
    (none more when the number is zero or negative), the same shape
    otherwise, and the original data in front.  The leading axis is the one
    extended, whether or not it is the time axis. *)
Theorem extend_times_grows_leading_axis :
  forall (n : Z) (a : Np.ndarray) m s,
    Np.shape a = m :: s ->
    2 <= m ->
    Np.well_formed a ->
    exists a',
      Extend.extend_times n a = Ok a'
      /\ Np.shape a' = (m + Z.to_nat n) :: s
      /\ firstn (length (Np.data a)) (Np.data a') = Np.data a.
Proof.
  intros n a m s Hs Hm Hwf. unfold Extend.extend_times, Np.to_list.
  rewrite Hs. cbn [rbind].
  set (rows := map (Np.slice s (Np.data a)) (seq 0 m)).
  assert (Hlen : length rows = m) by (unfold rows; now rewrite length_map, length_seq).
  assert (Hrows : Forall (fun r => Np.shape r = s) rows).
  { apply Forall_forall. intros r Hr. unfold rows in Hr.
    apply in_map_iff in Hr. now destruct Hr as (i & <- & _). }
  destruct (item_from_end_lt rows 0) as (last & -> & _); [lia|].
  destruct (item_from_end_lt rows 1) as (before & -> & _); [lia|].
  cbn [rbind].
  assert (Hne : rows <> []) by (intros E; rewrite E in Hlen; cbn in Hlen; lia).
  destruct (append_future_rows (Z.to_nat n) s
              (Np.abs (Np.sub last before)) rows Hne Hrows)
    as (extra & -> & Hextra & Hshapes).
  cbn [rbind]. unfold Np.asarray_float64.
  assert (Hall : Forall (fun r => Np.shape r = s) (rows ++ extra))
    by (apply Forall_app; now split).
  assert (Hne' : rows ++ extra <> [])
    by (intros E; apply app_eq_nil in E; now destruct E).
  rewrite (stack_same_shape s (rows ++ extra) Hne' Hall).
  destruct (rows ++ extra) eqn:E; [congruence|]. rewrite <- E.
  eexists. split; [reflexivity|]. cbn [Np.shape Np.data]. split.
  - now rewrite length_app, Hlen, Hextra.
  - rewrite map_app, concat_app. unfold rows. rewrite concat_slices.
    unfold Np.well_formed in Hwf. rewrite Hs in Hwf. cbn [Np.size fold_right] in Hwf.
    fold (Np.size s) in Hwf. rewrite <- Hwf, firstn_all.
    rewrite firstn_app, Nat.sub_diag, firstn_all. cbn [firstn].
    apply app_nil_r.
Qed.

Lemma extend_times_grows_leading_axis_witness :
  exists a',
    Extend.extend_times 1 (Np.mk_ndarray [2; 3] [0; 300; 600; 300; 600; 900]%float)
    = Ok a'
    /\ Np.shape a' = [2 + Z.to_nat 1; 3]
    /\ firstn 6 (Np.data a') = [0; 300; 600; 300; 600; 900]%float.
Proof.
  exact (extend_times_grows_leading_axis 1
           (Np.mk_ndarray [2; 3] [0; 300; 600; 300; 600; 900]%float)
           2 [3] eq_refl (le_n 2) eq_refl).
Defined.

(** The extension of one time axis fails for every number of steps, zero
    included, when the array cannot supply two entries: a 0-d array is not
    iterable ([TypeError]), and an array whose leading axis has length zero
    or one has no last-but-one entry ([IndexError]). *)
Lemma extend_times_needs_two_entries :
  forall (n : Z) (a : Np.ndarray),
    (Np.shape a = [] -> Extend.extend_times n a = Raise TypeError)
    /\ (forall m s, Np.shape a = m :: s -> m < 2 ->
          Extend.extend_times n a = Raise IndexError).
Proof.
  intros n a. unfold Extend.extend_times, Np.to_list. split.
  - intros ->. reflexivity.
  - intros m s -> Hm. cbn [rbind].
    destruct m as [|[|m]]; [reflexivity | reflexivity | lia].
Qed.

Lemma time_fields_complete np_batch k a :
  In (Field k a) np_batch -> is_time_key k = true ->
  In (k, a) (time_fields np_batch).
Proof.
  intros Hin Hk. unfold time_fields. apply in_flat_map.
  exists (Field k a). split; [exact Hin|]. rewrite Hk. now left.
Qed.

(** The loop over the time axes cannot complete when one of them cannot be
    extended. *)
Lemma extend_all_time_dims_stuck n k a :
  (forall r, Extend.extend_times n a <> Ok r) ->
  forall (todo done : dict key Np.ndarray),
    NoDup (keys (done ++ todo)) ->
    In (k, a) todo ->
    forall out,
      for_each
        (fun all_time_dims time_dim_key =>
           rbind (getitem key_eqb all_time_dims time_dim_key)
             (fun a0 =>
                rbind (Extend.extend_times n a0)
                  (fun times =>
                     Ok (setitem key_eqb all_time_dims time_dim_key times))))
        (keys todo) (done ++ todo)
      <> Ok out.
Proof.
  intros Hfail. induction todo as [|[k' a'] todo IH]; intros done Hnd Hin out;
    [contradiction|].
  cbn [keys map fst for_each]. fold (keys todo).
  assert (Hk : ~ In k' (keys done)).
  { rewrite keys_app in Hnd. cbn [keys map fst] in Hnd.
    apply NoDup_remove_2 in Hnd. intros H. apply Hnd.
    apply in_or_app. now left. }
  rewrite getitem_middle by exact Hk. cbn [rbind].
  destruct (Extend.extend_times n a') as [t|e] eqn:E; cbn [rbind];
    [|discriminate].
  destruct Hin as [H|Hin].
  - injection H as -> ->. exfalso. exact (Hfail t E).
  - rewrite setitem_middle by exact Hk.
    change (done ++ (k', t) :: todo) with (done ++ [(k', t)] ++ todo).
    rewrite app_assoc. apply IH; [|exact Hin].
    rewrite <- app_assoc. cbn [app]. rewrite keys_app in *. exact Hnd.
Qed.

Lemma extend_batch_stuck n np_batch k a :
  NoDup (batch_keys_of np_batch) ->
  In (Field k a) np_batch -> is_time_key k = true ->
  (forall r, Extend.extend_times n a <> Ok r) ->
  forall out, Extend.extend_batch n np_batch <> Ok out.
Proof.
  intros Hnd Hin Hk Hfail out. unfold Extend.extend_batch.
  rewrite all_time_dims_of_time_fields by exact Hnd.
  pose proof (extend_all_time_dims_stuck n k a Hfail (time_fields np_batch) []
                (time_fields_NoDup np_batch Hnd)
                (time_fields_complete np_batch k a Hin Hk)) as H.
  cbn [app] in H.
  destruct (for_each _ (keys (time_fields np_batch)) (time_fields np_batch))
    as [d|e] eqn:E; [|discriminate].
  exfalso. exact (H d eq_refl).
Qed.

Lemma extend_loop_stops n before bad after :
  (forall out, Extend.extend_batch n bad <> Ok out) ->
  let r := Extend.extend_loop n (before ++ bad :: after) in
  length (Gen.yielded r) <= length before /\ Gen.raised r <> None.
Proof.
  intros Hbad. induction before as [|b before IH]; cbn [app Extend.extend_loop].
  - destruct (Extend.extend_batch n bad) as [out|e];
      [exfalso; exact (Hbad out eq_refl)|].
    cbn. split; [apply le_n | discriminate].
  - destruct (Extend.extend_batch n b) as [out|e].
    + cbn in *. destruct IH as [IH1 IH2]. split; [lia | exact IH2].
    + cbn. split; [lia | discriminate].
Qed.

(** The same over the store: the generator stops at the first reference to
    such a batch at the latest, since until then nothing has changed it. *)
Lemma iterate_stops n bad r later :
  (forall out, Extend.extend_batch n bad <> Ok out) ->
  forall earlier objects,
    Extend.deref objects r = bad ->
    let run := fst (Extend.iterate n (earlier ++ r :: later) objects) in
    length (Gen.yielded run) <= length earlier /\ Gen.raised run <> None.
Proof.
  intros Hbad. induction earlier as [|r0 earlier IH]; intros objects Hr;
    cbn [app Extend.iterate].
  - rewrite Hr. destruct (Extend.extend_batch n bad) as [out|e];
      [exfalso; exact (Hbad out eq_refl)|].
    cbn. split; [apply le_n | discriminate].
  - destruct (Extend.extend_batch n (Extend.deref objects r0)) as [out|e] eqn:E.
    + assert (Hne : r0 <> r).
      { intros ->. rewrite Hr in E. exact (Hbad out E). }
      specialize (IH (Extend.assign objects r0 out)).
      rewrite (deref_assign_other objects r0 r out Hne) in IH.
      destruct (IH Hr) as [IH1 IH2]. cbn in *. split; [lia | exact IH2].
    + cbn. split; [lia | discriminate].
Qed.

(** X12.  A time axis that cannot supply two entries stops the forward
    extension whatever the number of steps, zero included: on a 0-d array
    the extension raises [TypeError], on an array whose leading axis has
    length zero or one it raises [IndexError]; a batch with distinct keys
    that holds such an array under a key ending in [time_utc] is never
    returned, and the iterator ends with an exception at that batch at the
    latest, having yielded at most the batches before it.  This holds of
    the loop over separate batches and of the generator over the store
    alike. *)
Theorem extension_stops_at_short_time_axis :
  forall (n : Z) (before : list NumpyBatch) (bad : NumpyBatch)
         (after : list NumpyBatch) k a,
    NoDup (batch_keys_of bad) ->
    In (Field k a) bad ->
    is_time_key k = true ->
    (Np.shape a = [] \/ exists m s, Np.shape a = m :: s /\ m < 2) ->
    (Np.shape a = [] -> Extend.extend_times n a = Raise TypeError)
    /\ (forall m s, Np.shape a = m :: s -> Extend.extend_times n a = Raise IndexError)
    /\ (forall out, Extend.extend_batch n bad <> Ok out)
    /\ (let r := Extend.extend_loop n (before ++ bad :: after) in
        length (Gen.yielded r) <= length before /\ Gen.raised r <> None)
    /\ (forall (objects : list NumpyBatch) (earlier later : list nat) (r : nat),
          Extend.deref objects r = bad ->
          let run := fst (Extend.iterate n (earlier ++ r :: later) objects) in
          length (Gen.yielded run) <= length earlier /\ Gen.raised run <> None).
Proof.
  intros n before bad after k a Hnd Hin Hk Hshape.
  destruct (extend_times_needs_two_entries n a) as [H0 H1].
  assert (Hfail : forall r, Extend.extend_times n a <> Ok r).
  { intros r. destruct Hshape as [Hs|(m & s & Hs & Hm)].
    - rewrite (H0 Hs). discriminate.
    - rewrite (H1 m s Hs Hm). discriminate. }
  split; [exact H0|]. split.
  - intros m s Hs. destruct Hshape as [Hs'|(m' & s' & Hs' & Hm)].
    + congruence.
    + apply (H1 m s Hs). congruence.
  - assert (Hbad : forall out, Extend.extend_batch n bad <> Ok out)
      by now apply extend_batch_stuck with (k := k) (a := a).
    split; [exact Hbad|]. split; [now apply extend_loop_stops|].
    intros objects earlier later r Hr. now apply iterate_stops with (bad := bad).
Qed.

Lemma extension_stops_at_short_time_axis_witness :
  let r := Extend.extend_loop 0
             ([Samples.series_example] ++ Samples.batch_of_one :: []) in
  length (Gen.yielded r) <= 1 /\ Gen.raised r <> None.
Proof.
  refine (proj1 (proj2 (proj2 (proj2 (extension_stops_at_short_time_axis 0
            [Samples.series_example] Samples.batch_of_one []
            Samples.gsp_time_utc
            (Np.mk_ndarray [1; 3] [0; 300; 600]%float) _ _ eq_refl _))))).
  - constructor; [intros []|constructor].
  - now left.
  - right. exists 1, [3]. split; [reflexivity | apply le_n].
Defined.

(** ** A horizon shorter than one step *)

Lemma extended_zero ts : extended 0 ts = ts.
Proof.
  unfold extended. destruct (rev ts) as [|last [|before_last l]];
    try reflexivity.
  cbn [future]. apply app_nil_r.
Qed.

Lemma extend_entry_zero np_batch :
  (forall k a, In (Field k a) np_batch -> is_time_key k = true ->
     exists ts, a = Np.vector ts /\ 2 <= length ts) ->
  map (extend_entry 0) np_batch = np_batch.
Proof.
  induction np_batch as [|e b IH]; intros Hall; cbn [map]; [reflexivity|].
  rewrite IH by (intros k a H; apply (Hall k a); now right).
  f_equal. destruct e as [k a|m]; cbn [extend_entry]; [|reflexivity].
  destruct (is_time_key k) eqn:Hk; [|reflexivity].
  destruct (Hall k a (or_introl eq_refl) Hk) as (ts & -> & _).
  cbn [Np.data Np.vector]. now rewrite extended_zero.
Qed.

Lemma no_future_steps horizon step :
  step <> 0%Z ->
  (Z.abs horizon < Z.abs step)%Z \/ (horizon * step <= 0)%Z ->
  Z.to_nat (Z.quot horizon step) = 0.
Proof.
  intros Hstep H.
  assert (Hq : (Z.quot horizon step <= 0)%Z);
    [|destruct (Z.quot horizon step); (reflexivity || lia)].
  pose proof (Z.quot_abs horizon step Hstep) as Habs.
  destruct H as [H|H].
  - rewrite Z.quot_small in Habs by lia. lia.
  - destruct (Z.eq_dec horizon 0) as [->|Hh];
      [rewrite Z.quot_0_l by exact Hstep; lia|].
    destruct (Z.lt_total horizon 0) as [Hneg|[?|Hpos]]; [|lia|].
    + assert (0 < step)%Z by nia.
      pose proof (Z.quot_pos (- horizon) step) as P.
      rewrite Z.quot_opp_l in P by exact Hstep. lia.
    + assert (step < 0)%Z by nia.
      pose proof (Z.quot_pos horizon (- step)) as P.
      rewrite Z.quot_opp_r in P by exact Hstep. lia.
Qed.

(** Without future steps the generator hands every batch on as it is, and
    the store stays as it was, however often a batch comes. *)
Lemma iterate_without_steps n objects source_dp :
  Z.to_nat n = 0 ->
  (forall r, In r source_dp ->
     NoDup (batch_keys_of (Extend.deref objects r))
     /\ forall k a, In (Field k a) (Extend.deref objects r) ->
          is_time_key k = true ->
          exists ts, a = Np.vector ts /\ 2 <= length ts) ->
  Extend.iterate n source_dp objects
  = (Gen.mk_run [] (map (Extend.deref objects) source_dp) None, objects).
Proof.
  intros Hn. induction source_dp as [|r rest IH]; intros Hall;
    cbn [Extend.iterate map]; [reflexivity|].
  destruct (Hall r (or_introl eq_refl)) as [Hnd Hseries].
  rewrite (extend_batch_one_dimensional n _ Hnd Hseries), Hn.
  rewrite (extend_entry_zero _ Hseries), assign_deref.
  rewrite IH by (intros r' Hr'; apply Hall; now right).
  reflexivity.
Qed.

(** X13.  The constructor divides the horizon by the sample period, so a
    sample period of zero makes construction fail with [ZeroDivisionError]
    whatever the source.  The division is the true division, carried out in
    binary64: for two durations below 2 ^ 53 microseconds in magnitude,
    construction succeeds, keeps the source and both durations, and the
    number of future steps is the exact quotient with its fractional part
    dropped, while beyond that bound rounding shows, 2 ^ 60 - 1 over 2 ^ 60
    giving one step and not none.  Within the bound, when the horizon is
    shorter in magnitude than the sample period, or the two have opposite
    signs, no future step is added and no error is raised either: over a
    stream whose time axes are one-dimensional series of at least two
    timestamps the iterator yields the batches exactly as they are, leaves
    the store as it was and ends normally. *)
Theorem extension_without_future_steps :
  forall (source_dp : list nat) (objects : list NumpyBatch) (horizon step : Z),
    (forall r, In r source_dp ->
       NoDup (batch_keys_of (Extend.deref objects r))
       /\ forall k a, In (Field k a) (Extend.deref objects r) ->
            is_time_key k = true ->
            exists ts, a = Np.vector ts /\ 2 <= length ts) ->
    (step = 0%Z ->
       Extend.__init__ source_dp horizon step = Raise ZeroDivisionError)
    /\ (step <> 0%Z ->
        (Z.abs horizon < 2 ^ 53)%Z -> (Z.abs step < 2 ^ 53)%Z ->
        exists self,
          Extend.__init__ source_dp horizon step = Ok self
          /\ Extend.source_dp self = source_dp
          /\ Extend.forecast_duration self = horizon
          /\ Extend.sample_period_duration self = step
          /\ Extend.num_future_timesteps self = Z.quot horizon step
          /\ ((Z.abs horizon < Z.abs step)%Z \/ (horizon * step <= 0)%Z ->
              Extend.__iter__ self objects
              = (Gen.mk_run [] (map (Extend.deref objects) source_dp) None,
                 objects)))
    /\ (exists self,
          Extend.__init__ source_dp (2 ^ 60 - 1) (2 ^ 60) = Ok self
          /\ Extend.num_future_timesteps self = 1%Z).
Proof.
  intros source_dp objects horizon step Hall. split; [|split].
  - intros ->. reflexivity.
  - intros Hstep Hh Hs.
    rewrite (init_small_durations source_dp horizon step Hstep Hh Hs).
    eexists. split; [reflexivity|].
    cbn [Extend.source_dp Extend.forecast_duration
         Extend.sample_period_duration Extend.num_future_timesteps].
    repeat (split; [reflexivity|]).
    intros Hshort. unfold Extend.__iter__.
    cbn [Extend.source_dp Extend.num_future_timesteps].
    apply iterate_without_steps; [|exact Hall].
    now apply no_future_steps.
  - eexists. split; [vm_compute; reflexivity | reflexivity].
Qed.

Lemma extension_without_future_steps_witness :
  exists self,
    Extend.__init__ [0; 0] 200000000 (-300000000) = Ok self
    /\ Extend.source_dp self = [0; 0]
    /\ Extend.forecast_duration self = 200000000%Z
    /\ Extend.sample_period_duration self = (-300000000)%Z
    /\ Extend.num_future_timesteps self = Z.quot 200000000 (-300000000)
    /\ ((Z.abs 200000000 < Z.abs (-300000000))%Z
        \/ (200000000 * -300000000 <= 0)%Z ->
        Extend.__iter__ self [Samples.series_example]
        = (Gen.mk_run []
             (map (Extend.deref [Samples.series_example]) [0; 0]) None,
           [Samples.series_example])).
Proof.
  refine (proj1 (proj2 (extension_without_future_steps
                          [0; 0] [Samples.series_example]
                          200000000 (-300000000) _)) _ _ _).
  - intros r [<-|[<-|[]]]; (split;
      [constructor; [intros [H|[]]; discriminate H|];
       constructor; [intros []|constructor]
      |intros k a [H|[H|[]]] Ht; injection H as <- <-;
       [exists [0%float; 300%float; 600%float]; split; [reflexivity|];
        apply le_S, le_n
       |discriminate Ht]]).
  - discriminate.
  - reflexivity.
  - reflexivity.
Defined.
